(** * Al-Kafeel book extractor: the extraction pipeline of
    [src/alkafeel_extractor.py] as Rocq definitions, with the properties of
    its URL validation, payload matcher, PDF codec, frame scan, orchestrator
    and batch runner.

    Conventions of the embedding.
    - A Python [str] is a [string]; a character is an [ascii] whose code is
      read as a code point of U+0000..U+00FF.
    - [bytes] are [list byte].
    - An awaited browser call, a file write and every other call into the
      environment has its result fixed by a [Scenario] record: it returns,
      raises an [Exception], or is interrupted by a [BaseException]
      (cancellation, keyboard interrupt), which [except Exception] does not
      catch.
    - Effects are a trace of events (log records, printed lines, browser
      calls) and a file store, threaded through a small state-and-exception
      monad.  The text of a message leaves out the colour codes and the
      values formatted as numbers with separators, rates or durations.
    - The file store holds the files that the program writes itself (the
      PDF and the metadata of a book) and the image that a screenshot
      request makes the browser save.  A write that fails after its file
      was opened leaves the file in the store, incomplete.  The log file
      of the [logging] module is not repeated in the store: its content is
      the log records of the trace.  Directories are not files of the
      store. *)

From Stdlib Require Import ZArith Lia Ascii String List Bool DecimalString.
From Stdlib Require Strings.Byte.
From Stdlib Require Import Floats.PrimFloat Numbers.Cyclic.Int63.Uint63.
From stdpp Require Import gmap strings list fin_maps.
Import ListNotations.

Local Open Scope string_scope.
Local Open Scope list_scope.

(** ** Python strings *)

Module PyStr.

(** [str.isspace] on the code points below 256, which is also the class
    [\s] of a [str] pattern: TAB..CR, FS..US, space, NEL and NBSP. *)
Definition isspace (c : ascii) : bool :=
  let n := nat_of_ascii c in
  (Nat.leb 9 n && Nat.leb n 13) || (Nat.leb 28 n && Nat.leb n 32)
  || Nat.eqb n 133 || Nat.eqb n 160.

Definition chars (s : string) : list ascii := list_ascii_of_string s.
Definition of_chars (l : list ascii) : string := string_of_list_ascii l.

(** [s.lstrip()], [s.rstrip()] and [s.strip()] on character lists. *)
Fixpoint lstrip (l : list ascii) : list ascii :=
  match l with
  | c :: l' => if isspace c then lstrip l' else l
  | [] => []
  end.

Definition rstrip (l : list ascii) : list ascii := rev (lstrip (rev l)).

Definition strip (l : list ascii) : list ascii := rstrip (lstrip l).

(** [needle in hay] for two strings. *)
Fixpoint startswith (p l : list ascii) : bool :=
  match p, l with
  | [], _ => true
  | a :: p', b :: l' => Ascii.eqb a b && startswith p' l'
  | _ :: _, [] => false
  end.

Fixpoint contains_chars (p l : list ascii) : bool :=
  startswith p l ||
  match l with
  | [] => false
  | _ :: l' => contains_chars p l'
  end.

Definition contains (needle hay : string) : bool :=
  contains_chars (chars needle) (chars hay).

End PyStr.

(** ** The fragment of Python's [re] the program uses

    Every pattern of the program is a sequence of single characters,
    character classes and greedy repetitions of a class, with one capture
    group.  [re.DOTALL] only changes the meaning of [.], which no pattern
    contains. *)

Module Re.

Inductive item :=
| Chr (c : ascii)                     (* a literal character *)
| Cls (f : ascii -> bool)             (* one character of a class *)
| Star (f : ascii -> bool)            (* class*, greedy *)
| Plus (f : ascii -> bool).           (* class+, greedy *)

(** A pattern [pre ( grp ) post] with its single capture group. *)
Record pattern := Pattern {
  pre : list item;
  grp : list item;
  post : list item
}.

Definition lit (s : string) : list item := map Chr (PyStr.chars s).

(** Greedy repetition: consume as many characters of the class as possible,
    and give characters back one at a time while the rest fails. *)
Fixpoint greedy {R} (f : ascii -> bool) (k : list ascii -> option R)
    (s : list ascii) : option R :=
  match s with
  | c :: s' =>
      if f c then
        match greedy f k s' with
        | Some r => Some r
        | None => k s
        end
      else k s
  | [] => k []
  end.

(** Backtracking match of a sequence of items at the head of [s]; [k] is
    the rest of the match. *)
Fixpoint run {R} (its : list item) (k : list ascii -> option R)
    (s : list ascii) : option R :=
  match its with
  | [] => k s
  | Chr c :: its' =>
      match s with
      | a :: s' => if Ascii.eqb c a then run its' k s' else None
      | [] => None
      end
  | Cls f :: its' =>
      match s with
      | a :: s' => if f a then run its' k s' else None
      | [] => None
      end
  | Star f :: its' => greedy f (run its' k) s
  | Plus f :: its' =>
      match s with
      | a :: s' => if f a then greedy f (run its' k) s' else None
      | [] => None
      end
  end.

(** [pattern.match(s)]: the text of group 1 when [p] matches at the head. *)
Definition match_at (p : pattern) (s : list ascii) : option (list ascii) :=
  run (pre p)
      (fun s1 =>
         run (grp p)
             (fun s2 =>
                run (post p)
                    (fun _ => Some (take (length s1 - length s2) s1)) s2)
             s1)
      s.

(** [re.search(p, s)]: the match at the leftmost position that has one. *)
Fixpoint search_chars (p : pattern) (s : list ascii) : option (list ascii) :=
  match match_at p s with
  | Some g => Some g
  | None =>
      match s with
      | [] => None
      | _ :: s' => search_chars p s'
      end
  end.

(** [re.search(p, s)] followed by [.group(1)]. *)
Definition search (p : pattern) (s : string) : option string :=
  PyStr.of_chars <$> search_chars p (PyStr.chars s).

(** *** What a match is, independently of the backtracking order *)

Inductive item_word : item -> list ascii -> Prop :=
| iw_chr c : item_word (Chr c) [c]
| iw_cls f c : f c = true -> item_word (Cls f) [c]
| iw_star f w : Forall (fun c => f c = true) w -> item_word (Star f) w
| iw_plus f c w :
    f c = true -> Forall (fun c => f c = true) w -> item_word (Plus f) (c :: w).

Inductive seq_word : list item -> list ascii -> Prop :=
| sw_nil : seq_word [] []
| sw_cons i its w1 w2 :
    item_word i w1 -> seq_word its w2 -> seq_word (i :: its) (w1 ++ w2).

(** [occurs p before g s]: [p] matches in [s] right after the prefix
    [before], with [g] as the text of its group. *)
Definition occurs (p : pattern) (before g s : list ascii) : Prop :=
  exists w1 w2 after,
    s = before ++ w1 ++ g ++ w2 ++ after /\
    seq_word (pre p) w1 /\ seq_word (grp p) g /\ seq_word (post p) w2.

(** [p] matches somewhere in [s]. *)
Definition matches (p : pattern) (s : list ascii) : Prop :=
  exists before g, occurs p before g s.

(** [g] is the group of a match of [p] at the leftmost position of [s]
    where [p] matches at all. *)
Definition leftmost (p : pattern) (g s : list ascii) : Prop :=
  exists before,
    occurs p before g s /\
    forall before' g', occurs p before' g' s -> length before <= length before'.

End Re.

(** ** Exceptions, the file store and the monad of effects *)

(** [Exception] is what [except Exception] catches; [BaseException] stands
    for [asyncio.CancelledError] and [KeyboardInterrupt], which it does not. *)
Inductive exn :=
| Exception (msg : string)
| BaseException (msg : string).

Inductive outcome (A : Type) :=
| Ok (a : A)
| Raise (e : exn).
Arguments Ok {A} a.
Arguments Raise {A} e.

Inductive level := INFO | WARNING | ERROR.

(** Calls into the browser automation library, in the order of the trace. *)
Inductive call :=
| PlaywrightStart
| Launch
| NewPage
| SetViewportSize
| SetExtraHttpHeaders
| Goto (url : string)
| Sleep (seconds : nat)
| QuerySelectorAll
| GetAttribute (i : nat)
| ContentFrame (i : nat)
| TextContent (i : nat)
| Screenshot (path : string)
| Close.

Inductive event :=
| Log (l : level) (msg : string)
| Print (msg : string)
| Browser (c : call).

(** The result dictionaries of [extract_book]; an absent key is [None]. *)
Record IframeData := {
  iframe_index : nat;
  iframe_src : option string;
  content : string;
  content_length : nat
}.

Record ExtractionResult := {
  success : bool;
  error : option string;
  book_id : option string;
  url : string;
  pdf_path : option string;
  pdf_size_bytes : option nat;
  iframe_data : option (nat * option string * nat);
  extraction_duration : option Z;
  metadata_path : option string
}.

(** [d['metadata_path'] = p] *)
Definition set_metadata_path (d : ExtractionResult) (p : string)
    : ExtractionResult :=
  {| success := success d; error := error d; book_id := book_id d;
     url := url d; pdf_path := pdf_path d; pdf_size_bytes := pdf_size_bytes d;
     iframe_data := iframe_data d;
     extraction_duration := extraction_duration d;
     metadata_path := Some p |}.

Record Metadata := {
  md_book_id : string;
  md_original_url : string;
  md_extraction_date : Z;
  md_extractor_version : string;
  md_created_by : string;
  md_extraction_data : ExtractionResult
}.

(** What a file holds: the bytes written in binary mode, the document
    handed to [json.dump], the image saved by [page.screenshot], or what is
    left of a file that was opened for writing (created, or emptied) and
    whose writing did not come to its end. *)
Inductive file :=
| Binary (data : list Byte.byte)
| Json (doc : Metadata)
| Png
| Partial.

Record State := {
  trace : list event;
  files : gmap string file
}.

Definition M (A : Type) : Type := State -> outcome A * State.

Definition ret {A} (a : A) : M A := fun st => (Ok a, st).

Definition bind {A B} (m : M A) (f : A -> M B) : M B :=
  fun st =>
    match m st with
    | (Ok a, st') => f a st'
    | (Raise e, st') => (Raise e, st')
    end.

Definition raise {A} (e : exn) : M A := fun st => (Raise e, st).

(** [try: m  except Exception as e: handler(str(e))]. *)
Definition try_except {A} (m : M A) (handler : string -> M A) : M A :=
  fun st =>
    match m st with
    | (Raise (Exception msg), st') => handler msg st'
    | r => r
    end.

(** [try: m  finally: fin]: [fin] runs on every way out of [m], and an
    exception of [fin] replaces the result of [m]. *)
Definition try_finally {A} (m : M A) (fin : M unit) : M A :=
  fun st =>
    match m st with
    | (r, st') =>
        match fin st' with
        | (Ok _, st'') => (r, st'')
        | (Raise e, st'') => (Raise e, st'')
        end
    end.

Declare Scope py_scope.
Delimit Scope py_scope with py.
Notation "'do' x <- m ; k" := (bind m (fun x => k))
  (at level 10, x name, m at level 100, k at level 200) : py_scope.
Notation "'exec' m ; k" := (bind m (fun _ => k))
  (at level 10, m at level 100, k at level 200) : py_scope.
Local Open Scope py_scope.

Definition emit (e : event) : M unit :=
  fun st => (Ok tt, {| trace := trace st ++ [e]; files := files st |}).

(** [self.logger.<level>(msg)]; the colour prefix of a message is left out. *)
Definition log (l : level) (msg : string) : M unit := emit (Log l msg).

(** A call into the browser: recorded, then answered by the scenario. *)
Definition perform {A} (c : call) (answer : outcome A) : M A :=
  exec emit (Browser c);
  match answer with
  | Ok a => ret a
  | Raise e => raise e
  end.

(** What writing [f] to the file at [path] leaves in the store.  [answer]
    is how the writing ends; when it raises, [opened] tells whether the
    file had been opened before: [open] in a writing mode creates the file
    or empties it, so the file is then there, incomplete. *)
Definition written (path : string) (f : file) (answer : outcome unit)
    (opened : bool) (fs : gmap string file) : gmap string file :=
  match answer with
  | Ok _ => <[path := f]> fs
  | Raise _ => if opened then <[path := Partial]> fs else fs
  end.

(** [with open(path, mode) as f: f.write(...)]: the statement ends as
    [answer] says. *)
Definition write_file (path : string) (f : file) (answer : outcome unit)
    (opened : bool) : M unit :=
  fun st =>
    (answer,
     {| trace := trace st; files := written path f answer opened (files st) |}).

Definition str_nat (n : nat) : string :=
  DecimalString.NilZero.string_of_uint (Nat.to_uint n).

(** ** [urllib.parse.urlparse]

    The program only reads [netloc] and [path] of the parse result.  The
    library function is an interface of the development: what is proved of
    the program holds for every [urlparse]; [urlparse_model] below
    follows the library's splitting rules and serves to run the program. *)

Record ParseResult := {
  scheme : string;
  netloc : string;
  path : string;
  params : string;
  query : string;
  fragment : string
}.

Class Urllib := { urlparse : string -> outcome ParseResult }.

Module UrlModel.

Definition is_alpha (c : ascii) : bool :=
  let n := nat_of_ascii c in
  (Nat.leb 65 n && Nat.leb n 90) || (Nat.leb 97 n && Nat.leb n 122).

Definition is_digit (c : ascii) : bool :=
  let n := nat_of_ascii c in Nat.leb 48 n && Nat.leb n 57.

Definition scheme_char (c : ascii) : bool :=
  is_alpha c || is_digit c
  || Ascii.eqb c "+" || Ascii.eqb c "-" || Ascii.eqb c ".".

Definition lower (c : ascii) : ascii :=
  let n := nat_of_ascii c in
  if Nat.leb 65 n && Nat.leb n 90 then ascii_of_nat (n + 32) else c.

(** The characters up to the first one satisfying [f], and the rest from
    that character on. *)
Fixpoint break (f : ascii -> bool) (l : list ascii)
    : list ascii * list ascii :=
  match l with
  | [] => ([], [])
  | c :: l' =>
      if f c then ([], l)
      else let '(a, b) := break f l' in (c :: a, b)
  end.

Definition c0_or_space (c : ascii) : bool := Nat.leb (nat_of_ascii c) 32.

Fixpoint lstrip_c0 (l : list ascii) : list ascii :=
  match l with
  | c :: l' => if c0_or_space c then lstrip_c0 l' else l
  | [] => []
  end.

Definition unsafe (c : ascii) : bool :=
  let n := nat_of_ascii c in Nat.eqb n 9 || Nat.eqb n 10 || Nat.eqb n 13.

Definition uses_params : list string :=
  [""; "ftp"; "hdl"; "prospero"; "http"; "imap"; "https"; "shttp"; "rtsp";
   "rtspu"; "sip"; "sips"; "mms"; "sftp"; "tel"].

Definition mem_char (c : ascii) (l : list ascii) : bool :=
  existsb (Ascii.eqb c) l.

(** [scheme:] at the head of the text, when there is one. *)
Definition split_scheme (l : list ascii) : list ascii * list ascii :=
  let '(a, b) := break (Ascii.eqb ":") l in
  match a, b with
  | c :: _, _ :: rest =>
      if is_alpha c && forallb scheme_char a then (map lower a, rest)
      else ([], l)
  | _, _ => ([], l)
  end.

(** [_splitparams]: the parameters of the last path segment. *)
Definition splitparams (l : list ascii) : list ascii * list ascii :=
  let '(last_rev, dirs_rev) := break (Ascii.eqb "/") (rev l) in
  let '(seg, rest) := break (Ascii.eqb ";") (rev last_rev) in
  match rest with
  | [] => (l, [])
  | _ :: ps => (rev dirs_rev ++ seg, ps)
  end.

Definition urlparse_chars (l0 : list ascii) : outcome ParseResult :=
  let l := List.filter (fun c => negb (unsafe c)) (lstrip_c0 l0) in
  let '(sch, l1) := split_scheme l in
  let '(loc, l2) :=
    match l1 with
    | "/"%char :: "/"%char :: r =>
        break (fun c => mem_char c ["/"; "?"; "#"]%char) r
    | _ => ([], l1)
    end in
  if xorb (mem_char "[" loc) (mem_char "]" loc)
  then Raise (Exception "Invalid IPv6 URL")
  else
    let '(l3, frag) := break (Ascii.eqb "#") l2 in
    let '(l4, qry) := break (Ascii.eqb "?") l3 in
    let '(pth, prm) :=
      if existsb (String.eqb (PyStr.of_chars sch)) uses_params
         && mem_char ";" l4
      then splitparams l4 else (l4, []) in
    Ok {| scheme := PyStr.of_chars sch;
          netloc := PyStr.of_chars loc;
          path := PyStr.of_chars pth;
          params := PyStr.of_chars prm;
          query := PyStr.of_chars (tl qry);
          fragment := PyStr.of_chars (tl frag) |}.

Definition urlparse_model (s : string) : outcome ParseResult :=
  urlparse_chars (PyStr.chars s).

End UrlModel.

Definition urllib_model : Urllib := {| urlparse := UrlModel.urlparse_model |}.


(** ** [base64.b64encode] and [base64.b64decode]

    The decoder is the library's default one ([validate=False]): a text is
    first encoded to ASCII, then read by [binascii.a2b_base64] without
    strict mode, which skips every character outside the alphabet. *)

Module Base64.

Definition alphabet : string :=
  "ABCDEFGHIJKLMNOPQRSTUVWXYZabcdefghijklmnopqrstuvwxyz0123456789+/".

Definition pad : ascii := "="%char.

(** [table_b2a_base64[v]] *)
Definition b2a (v : Z) : ascii :=
  nth (Z.to_nat v) (PyStr.chars alphabet) pad.

(** [table_a2b_base64[c]], [None] standing for the entries above 63. *)
Definition a2b (c : ascii) : option Z :=
  let n := Z.of_nat (nat_of_ascii c) in
  if ((65 <=? n) && (n <=? 90))%Z then Some (n - 65)%Z
  else if ((97 <=? n) && (n <=? 122))%Z then Some (n - 71)%Z
  else if ((48 <=? n) && (n <=? 57))%Z then Some (n + 4)%Z
  else if (n =? 43)%Z then Some 62%Z
  else if (n =? 47)%Z then Some 63%Z
  else None.

Definition Z_of_byte (b : Byte.byte) : Z := Z.of_N (Byte.to_N b).

(** The store of an [int] into an [unsigned char]. *)
Definition byte_of_Z (z : Z) : Byte.byte :=
  match Byte.of_N (Z.to_N (z mod 256)) with
  | Some b => b
  | None => Byte.x00
  end.

(** The four 6-bit values of three bytes [x], [y], [z]. *)
Definition sextet1 (x : Z) : Z := Z.shiftr x 2.
Definition sextet2 (x y : Z) : Z :=
  Z.lor (Z.shiftl (Z.land x 3) 4) (Z.shiftr y 4).
Definition sextet3 (y z : Z) : Z :=
  Z.lor (Z.shiftl (Z.land y 15) 2) (Z.shiftr z 6).
Definition sextet4 (z : Z) : Z := Z.land z 63.

(** Three bytes give four characters; one or two bytes left over give two
    or three characters and the padding. *)
Fixpoint encode_chars (b : list Byte.byte) : list ascii :=
  match b with
  | [] => []
  | [x] =>
      let x := Z_of_byte x in
      [b2a (sextet1 x); b2a (Z.shiftl (Z.land x 3) 4); pad; pad]
  | [x; y] =>
      let x := Z_of_byte x in
      let y := Z_of_byte y in
      [b2a (sextet1 x); b2a (sextet2 x y);
       b2a (Z.shiftl (Z.land y 15) 2); pad]
  | x :: y :: z :: rest =>
      let x := Z_of_byte x in
      let y := Z_of_byte y in
      let z := Z_of_byte z in
      b2a (sextet1 x) :: b2a (sextet2 x y) :: b2a (sextet3 y z)
      :: b2a (sextet4 z) :: encode_chars rest
  end.

Definition b64encode (b : list Byte.byte) : string :=
  PyStr.of_chars (encode_chars b).

(** The loop of [binascii.a2b_base64] with [strict_mode] off. *)
Fixpoint a2b_loop (s : list ascii) (quad_pos : nat) (leftchar : Z)
    (pads : nat) (bin : list Byte.byte) : outcome (list Byte.byte) :=
  match s with
  | [] =>
      match quad_pos with
      | 0 => Ok bin
      | 1 =>
          Raise (Exception
            "Invalid base64-encoded string: number of data characters cannot be 1 more than a multiple of 4")
      | _ => Raise (Exception "Incorrect padding")
      end
  | c :: s' =>
      if Ascii.eqb c pad then
        if Nat.leb 2 quad_pos then
          if Nat.leb 4 (quad_pos + S pads) then Ok bin
          else a2b_loop s' quad_pos leftchar (S pads) bin
        else a2b_loop s' quad_pos leftchar pads bin
      else
        match a2b c with
        | None => a2b_loop s' quad_pos leftchar pads bin
        | Some this_ch =>
            match quad_pos with
            | 0 => a2b_loop s' 1 this_ch 0 bin
            | 1 =>
                a2b_loop s' 2 (Z.land this_ch 15) 0
                  (bin ++ [byte_of_Z (Z.lor (Z.shiftl leftchar 2)
                                            (Z.shiftr this_ch 4))])
            | 2 =>
                a2b_loop s' 3 (Z.land this_ch 3) 0
                  (bin ++ [byte_of_Z (Z.lor (Z.shiftl leftchar 4)
                                            (Z.shiftr this_ch 2))])
            | _ =>
                a2b_loop s' 0 0 0
                  (bin ++ [byte_of_Z (Z.lor (Z.shiftl leftchar 6) this_ch)])
            end
        end
  end.

Definition is_ascii (c : ascii) : bool := Nat.ltb (nat_of_ascii c) 128.

Definition b64decode (s : string) : outcome (list Byte.byte) :=
  if forallb is_ascii (PyStr.chars s)
  then a2b_loop (PyStr.chars s) 0 0 0 []
  else Raise (Exception "string argument should contain only ASCII characters").

(** The numbers below [n], and the test of a 6-bit value, for the checks
    by enumeration. *)
Definition range (n : nat) : list Z := map Z.of_nat (seq 0 n).

Definition in64 (v : Z) : bool := ((0 <=? v) && (v <? 64))%Z.

(** The alphabet of standard base64 with its padding character. *)
Definition in_alphabet (c : ascii) : bool :=
  match a2b c with Some _ => true | None => Ascii.eqb c pad end.

End Base64.

(** ** [pathlib.Path], POSIX flavour *)

Module Pathlib.

(** A path is its root (empty, one slash or two slashes) and its components;
    empty components and single dots are dropped when a text is parsed. *)
Record Path := {
  root : string;
  parts : list string
}.

Fixpoint split_slash (l cur : list ascii) : list (list ascii) :=
  match l with
  | [] => [cur]
  | c :: l' =>
      if Ascii.eqb c "/" then cur :: split_slash l' []
      else split_slash l' (cur ++ [c])
  end.

Definition keep (part : list ascii) : bool :=
  match part with
  | [] => false
  | [c] => negb (Ascii.eqb c ".")
  | _ => true
  end.

(** One leading slash or three and more make the root a single slash, exactly two leading
    slashes are kept. *)
Definition parse_root (l : list ascii) : string :=
  match l with
  | c1 :: l1 =>
      if Ascii.eqb c1 "/" then
        match l1 with
        | c2 :: l2 =>
            if Ascii.eqb c2 "/" then
              match l2 with
              | c3 :: _ => if Ascii.eqb c3 "/" then "/" else "//"
              | [] => "//"
              end
            else "/"
        | [] => "/"
        end
      else ""
  | [] => ""
  end.

(** [Path(s)] *)
Definition parse (s : string) : Path :=
  let l := PyStr.chars s in
  {| root := parse_root l;
     parts := map PyStr.of_chars (List.filter keep (split_slash l [])) |}.

(** [p / s]: an absolute right operand replaces the left one. *)
Definition joinpath (p : Path) (s : string) : Path :=
  let q := parse s in
  if String.eqb (root q) "" 
  then {| root := root p; parts := parts p ++ parts q |}
  else q.

(** [str(p)] *)
Definition str (p : Path) : string :=
  match root p, parts p with
  | EmptyString, [] => "."
  | r, ps => r +:+ String.concat "/" ps
  end.

(** [p.absolute()] in the working directory [cwd]: a path with a root is
    absolute already, another one is joined to the working directory. *)
Definition absolute (cwd : string) (p : Path) : Path :=
  if String.eqb (root p) ""
  then {| root := root (parse cwd); parts := parts (parse cwd) ++ parts p |}
  else p.

End Pathlib.

Notation "p // s" := (Pathlib.joinpath p s) (at level 40, left associativity).

(** ** The environment of one extraction *)

(** The document inside a frame: what [text_content('body')] answers. *)
Record ContentDoc := {
  text_content : outcome (option string)
}.

(** An [iframe] element handle: what each of its calls answers. *)
Record Iframe := {
  get_attribute_src : outcome (option string);
  content_frame : outcome (option ContentDoc);
  frame_sleep : outcome unit
}.

(** Everything the environment answers during one run of [extract_book]:
    the browser, the file system and the clock.  The answer to a request
    that writes a file is how the whole request ends; [opened_before] adds,
    for a request that raises, whether the failure came after the file was
    opened. *)
Record Scenario := {
  playwright_start : outcome unit;
  launch : outcome unit;
  new_page : outcome unit;
  set_viewport_size : outcome unit;
  set_extra_http_headers : outcome unit;
  goto : outcome unit;
  goto_sleep : outcome unit;
  query_selector_all : outcome (list Iframe);
  screenshot : string -> outcome unit;     (* [page.screenshot(path=p)] *)
  close : outcome unit;
  write_pdf : string -> outcome unit;      (* [with open(p, 'wb') as f:
                                              f.write(...)], lines 353-354 *)
  write_metadata : string -> outcome unit; (* [with open(p, 'w', ...) as f:
                                              json.dump(...)], lines 388-389 *)
  opened_before : string -> bool;          (* a write to [p] that raises had
                                              opened [p] before *)
  t_start : Z;                  (* [datetime.now()] on entry *)
  t_end : Z;                    (* [datetime.now()] on the way out *)
  t_metadata : Z;               (* [datetime.now()] in [save_metadata] *)
  stamp : string                (* [datetime.now().strftime(...)] *)
}.

(** [self]: the extractor object, of which the pipeline reads the output
    directory only. *)
Record AlkafeelExtractor := {
  output_dir : Pathlib.Path
}.

(** What the environment answers while an extractor is created: the file
    system for each directory to make and for the log file to open, the
    clock and the working directory. *)
Record Setup := {
  mkdir : string -> outcome unit;        (* [Path.mkdir(exist_ok=True)] *)
  file_handler : string -> outcome unit; (* [logging.FileHandler(log_file)] *)
  log_stamp : string;                    (* [datetime.now().strftime(...)] *)
  getcwd : outcome string                (* [os.getcwd()] *)
}.

Definition lift {A} (o : outcome A) : M A :=
  match o with
  | Ok a => ret a
  | Raise e => raise e
  end.

(** [not x] for an [Optional[str]]: [None] and the empty text are false. *)
Definition falsy (o : option string) : bool :=
  match o with
  | None => true
  | Some s => String.eqb s ""
  end.

(** An [Optional[str]] inside a formatted text. *)
Definition show_opt (o : option string) : string :=
  match o with
  | None => "None"
  | Some s => s
  end.

Definition dquote : ascii := ascii_of_nat 34.
Definition squote : ascii := ascii_of_nat 39.

Definition quote (c : ascii) : bool := Ascii.eqb c dquote || Ascii.eqb c squote.
Definition not_quote (c : ascii) : bool := negb (quote c).

(** ** The extractor *)

Section Extractor.

Context {U : Urllib}.
Variable self : AlkafeelExtractor.

(** [validate_url], lines 100-127. *)
Definition validate_url (url : string) : M bool :=
  try_except
    (do parsed <- lift (urlparse url);
     let is_alkafeel := PyStr.contains "library.alkafeel.net" (netloc parsed) in
     let has_book_path := PyStr.contains "/dic/book/" (path parsed) in
     if negb is_alkafeel then
       exec log ERROR "URL must be from library.alkafeel.net domain";
       ret false
     else if negb has_book_path then
       exec log ERROR "URL must contain '/dic/book/' path";
       ret false
     else ret true)
    (fun e =>
       exec log ERROR ("Invalid URL format: " +:+ e);
       ret false).

(** The pattern [[?&]e=([^&]+)]. *)
Definition book_id_pattern : Re.pattern :=
  {| Re.pre := [Re.Cls (fun c => Ascii.eqb c "?" || Ascii.eqb c "&");
                Re.Chr "e"; Re.Chr "="];
     Re.grp := [Re.Plus (fun c => negb (Ascii.eqb c "&"))];
     Re.post := [] |}.

(** [extract_book_id], lines 129-150. *)
Definition extract_book_id (sc : Scenario) (url : string) : M string :=
  try_except
    (match Re.search book_id_pattern url with
     | Some id => ret id
     | None => ret ("book_" +:+ stamp sc)
     end)
    (fun e =>
       exec log WARNING ("Could not extract book ID: " +:+ e);
       ret ("book_" +:+ stamp sc)).

(** [setup_browser], lines 152-167. *)
Definition setup_browser (sc : Scenario) : M unit :=
  exec perform PlaywrightStart (playwright_start sc);
  exec perform Launch (launch sc);
  exec log INFO "Browser launched successfully";
  ret tt.

(** [setup_page], lines 169-187. *)
Definition setup_page (sc : Scenario) : M unit :=
  exec perform NewPage (new_page sc);
  exec perform SetViewportSize (set_viewport_size sc);
  exec perform SetExtraHttpHeaders (set_extra_http_headers sc);
  ret tt.

(** [navigate_to_book], lines 189-211. *)
Definition navigate_to_book (sc : Scenario) (url : string) : M bool :=
  try_except
    (exec log INFO ("Navigating to: " +:+ url);
     exec perform (Goto url) (goto sc);
     exec perform (Sleep 3) (goto_sleep sc);
     exec log INFO "Successfully navigated to book page";
     ret true)
    (fun e =>
       exec log ERROR ("Navigation failed: " +:+ e);
       ret false).

(** [not iframe_text or len(iframe_text.strip()) < 100], line 255. *)
Definition insufficient (iframe_text : option string) : bool :=
  falsy iframe_text ||
  match iframe_text with
  | Some t => Nat.ltb (length (PyStr.strip (PyStr.chars t))) 100
  | None => true
  end.

Definition screenshot_path (book_id : string) (i : nat) : string :=
  Pathlib.str (output_dir self // "screenshots"
               // (book_id +:+ "_iframe_" +:+ str_nat (i + 1) +:+ ".png")).

(** [await page.screenshot(path=p)], line 264: the request is recorded, and
    the browser saves the image in the file [p]. *)
Definition save_screenshot (sc : Scenario) (p : string) : M unit :=
  exec emit (Browser (Screenshot p));
  write_file p Png (screenshot sc p) (opened_before sc p).

(** The body of the loop over the frames, lines 237-275: [Some] is the
    [return] of the loop, [None] its [continue]. *)
Definition process_iframe (sc : Scenario) (book_id : string) (i : nat)
    (iframe : Iframe) : M (option IframeData) :=
  exec log INFO ("Processing iframe " +:+ str_nat (i + 1) +:+ "...");
  do iframe_src <- perform (GetAttribute i) (get_attribute_src iframe);
  exec log INFO ("Iframe src: " +:+ show_opt iframe_src);
  do iframe_content <- perform (ContentFrame i) (content_frame iframe);
  match iframe_content with
  | None =>
      exec log WARNING
        ("Could not access iframe " +:+ str_nat (i + 1) +:+ " content");
      ret None
  | Some doc =>
      exec perform (Sleep 3) (frame_sleep iframe);
      do iframe_text <- perform (TextContent i) (text_content doc);
      if insufficient iframe_text then
        exec log WARNING
          ("Iframe " +:+ str_nat (i + 1) +:+ " has insufficient content");
        ret None
      else
        let text := default "" iframe_text in
        exec log INFO
          ("Extracted " +:+ str_nat (String.length text)
           +:+ " characters from iframe " +:+ str_nat (i + 1));
        let p := screenshot_path book_id i in
        exec try_except
          (exec save_screenshot sc p;
           log INFO ("Screenshot saved: " +:+ p))
          (fun e => log WARNING ("Screenshot failed: " +:+ e));
        ret (Some {| iframe_index := i + 1;
                     iframe_src := iframe_src;
                     content := text;
                     content_length := String.length text |})
  end.

(** The loop [for i, iframe in enumerate(iframe_elements)], lines 236-282. *)
Fixpoint scan_iframes (sc : Scenario) (book_id : string) (i : nat)
    (iframes : list Iframe) : M (option IframeData) :=
  match iframes with
  | [] =>
      exec log ERROR "No valid iframe content found";
      ret None
  | iframe :: rest =>
      do r <- try_except
                (process_iframe sc book_id i iframe)
                (fun e =>
                   exec log ERROR
                     ("Error processing iframe " +:+ str_nat (i + 1) +:+ ": " +:+ e);
                   ret None);
      match r with
      | Some data => ret (Some data)
      | None => scan_iframes sc book_id (S i) rest
      end
  end.

(** [extract_iframe_content], lines 213-286. *)
Definition extract_iframe_content (sc : Scenario) (book_id : string)
    : M (option IframeData) :=
  try_except
    (exec log INFO "Searching for iframe content...";
     do iframe_elements <- perform QuerySelectorAll (query_selector_all sc);
     match iframe_elements with
     | [] =>
         exec log ERROR "No iframe found on the page";
         ret None
     | _ =>
         exec log INFO
           ("Found " +:+ str_nat (length iframe_elements) +:+ " iframe(s)");
         scan_iframes sc book_id 0 iframe_elements
     end)
    (fun e =>
       exec log ERROR ("Failed to extract iframe content: " +:+ e);
       ret None).

(** The pattern of line 302: the text [var pdfData = ], a quote character
    (double or single), one or more characters that are not quotes, as the
    group, and a quote character. *)
Definition pdf_pattern : Re.pattern :=
  {| Re.pre := Re.lit "var pdfData = " ++ [Re.Cls quote];
     Re.grp := [Re.Plus not_quote];
     Re.post := [Re.Cls quote] |}.

(** The patterns of lines 311-315, with [Q] for the class of the two quote
    characters and [N] for its complement: [pdfData\s*=\s*Q(N+)Q],
    [Qdata:application/pdf;base64,(N+)Q] and [Q(JVBERiN+)Q]. *)
Definition alternative_patterns : list Re.pattern :=
  [ {| Re.pre := Re.lit "pdfData"
                 ++ [Re.Star PyStr.isspace; Re.Chr "="; Re.Star PyStr.isspace;
                     Re.Cls quote];
       Re.grp := [Re.Plus not_quote];
       Re.post := [Re.Cls quote] |};
    {| Re.pre := Re.Cls quote :: Re.lit "data:application/pdf;base64,";
       Re.grp := [Re.Plus not_quote];
       Re.post := [Re.Cls quote] |};
    {| Re.pre := [Re.Cls quote];
       Re.grp := Re.lit "JVBERi" ++ [Re.Plus not_quote];
       Re.post := [Re.Cls quote] |} ].

(** The loop [for pattern in alternative_patterns], lines 317-325. *)
Fixpoint try_patterns (patterns : list Re.pattern) (content : string)
    : M (option string) :=
  match patterns with
  | [] =>
      exec log ERROR "No PDF data found in content";
      ret None
  | pattern :: rest =>
      match Re.search pattern content with
      | Some pdf_data_b64 =>
          exec log INFO
            ("Found PDF data with alternative pattern ("
             +:+ str_nat (String.length pdf_data_b64) +:+ " characters)");
          ret (Some pdf_data_b64)
      | None => try_patterns rest content
      end
  end.

(** [extract_pdf_data], lines 288-329. *)
Definition extract_pdf_data (content : string) : M (option string) :=
  try_except
    (exec log INFO "Searching for PDF data in content...";
     match Re.search pdf_pattern content with
     | Some pdf_data_b64 =>
         exec log INFO
           ("Found PDF data (" +:+ str_nat (String.length pdf_data_b64)
            +:+ " characters)");
         ret (Some pdf_data_b64)
     | None => try_patterns alternative_patterns content
     end)
    (fun e =>
       exec log ERROR ("Error extracting PDF data: " +:+ e);
       ret None).

(** The path [self.output_dir / pdfs / {book_id}.pdf], lines 349-350. *)
Definition pdf_file (book_id : string) : Pathlib.Path :=
  output_dir self // "pdfs" // (book_id +:+ ".pdf").

(** [decode_and_save_pdf], lines 331-363. *)
Definition decode_and_save_pdf (sc : Scenario) (pdf_data_b64 book_id : string)
    : M (option string) :=
  try_except
    (exec log INFO "Decoding PDF data...";
     do pdf_data <- lift (Base64.b64decode pdf_data_b64);
     let pdf_path := Pathlib.str (pdf_file book_id) in
     exec write_file pdf_path (Binary pdf_data) (write_pdf sc pdf_path)
                     (opened_before sc pdf_path);
     exec log INFO ("PDF saved successfully: " +:+ pdf_path);
     exec log INFO ("File size: " +:+ str_nat (length pdf_data) +:+ " bytes");
     ret (Some pdf_path))
    (fun e =>
       exec log ERROR ("Failed to decode/save PDF: " +:+ e);
       ret None).

(** [save_metadata], lines 365-392. *)
Definition save_metadata (sc : Scenario) (book_id url : string)
    (extraction_data : ExtractionResult) : M string :=
  let metadata :=
    {| md_book_id := book_id;
       md_original_url := url;
       md_extraction_date := t_metadata sc;
       md_extractor_version := "1.0.0";
       md_created_by := "Eylias Sharar";
       md_extraction_data := extraction_data |} in
  let metadata_file :=
    Pathlib.str (output_dir self // "metadata" // (book_id +:+ "_metadata.json")) in
  exec write_file metadata_file (Json metadata)
                  (write_metadata sc metadata_file)
                  (opened_before sc metadata_file);
  exec log INFO ("Metadata saved: " +:+ metadata_file);
  ret metadata_file.

(** [try: r = acquire; rest(r)  except Exception as e: handler(str(e))
    finally: release(r)], where the variable [r] is still [None] in the
    [finally] clause when [acquire] did not return. *)
Definition try_acquire {R A} (acquire : M R) (rest : R -> M A)
    (handler : string -> M A) (release : option R -> M unit) : M A :=
  fun st =>
    match acquire st with
    | (Ok r, st') =>
        try_finally (try_except (rest r) handler) (release (Some r)) st'
    | (Raise e, st') =>
        try_finally (try_except (raise e) handler) (release None) st'
    end.

Definition banner : string :=
  "============================================================".

(** [extract_book], lines 394-492. *)
Definition extract_book (sc : Scenario) (url : string) : M ExtractionResult :=
  let extraction_start := t_start sc in
  do valid <- validate_url url;
  if negb valid then
    ret {| success := false; error := Some "Invalid URL"; book_id := None;
           url := url; pdf_path := None; pdf_size_bytes := None;
           iframe_data := None; extraction_duration := None;
           metadata_path := None |}
  else
    do book_id <- extract_book_id sc url;
    exec log INFO banner;
    exec log INFO ("Starting extraction for book ID: " +:+ book_id);
    exec log INFO banner;
    try_acquire
      (setup_browser sc)
      (fun browser =>
         exec setup_page sc;
         do navigated <- navigate_to_book sc url;
         if negb navigated
         then raise (Exception "Failed to navigate to book page") else
         do iframe_data <- extract_iframe_content sc book_id;
         match iframe_data with
         | None => raise (Exception "Failed to extract iframe content")
         | Some iframe_data =>
         do pdf_data_b64 <- extract_pdf_data (content iframe_data);
         if falsy pdf_data_b64
         then raise (Exception "Failed to extract PDF data") else
         let pdf_data_b64 := default "" pdf_data_b64 in
         do pdf_path <- decode_and_save_pdf sc pdf_data_b64 book_id;
         if falsy pdf_path
         then raise (Exception "Failed to decode/save PDF") else
         do decoded <- lift (Base64.b64decode pdf_data_b64);
         let extraction_data :=
           {| success := true; error := None; book_id := Some book_id;
              url := url; pdf_path := pdf_path;
              pdf_size_bytes := Some (length decoded);
              iframe_data := Some (iframe_index iframe_data,
                                   iframe_src iframe_data,
                                   content_length iframe_data);
              extraction_duration := Some (t_end sc - extraction_start)%Z;
              metadata_path := None |} in
         do metadata_path <- save_metadata sc book_id url extraction_data;
         let extraction_data := set_metadata_path extraction_data metadata_path in
         exec log INFO banner;
         exec log INFO "EXTRACTION SUCCESSFUL!";
         exec log INFO ("Book ID: " +:+ book_id);
         exec log INFO ("PDF Path: " +:+ show_opt pdf_path);
         exec log INFO "Duration";
         exec log INFO banner;
         ret extraction_data
         end)
      (fun error_msg =>
         exec log ERROR banner;
         exec log ERROR "EXTRACTION FAILED!";
         exec log ERROR ("Error: " +:+ error_msg);
         exec log ERROR banner;
         ret {| success := false; error := Some error_msg;
                book_id := Some book_id; url := url; pdf_path := None;
                pdf_size_bytes := None; iframe_data := None;
                extraction_duration := Some (t_end sc - extraction_start)%Z;
                metadata_path := None |})
      (fun browser =>
         match browser with
         | Some _ =>
             exec perform Close (close sc);
             log INFO "Browser closed"
         | None => ret tt
         end).

End Extractor.

(** ** The batch runner *)

(** The summary dictionary of [extract_multiple_books]; the last two keys
    are set after the loop. *)
Record BatchSummary := {
  total_books : nat;
  successful_extractions : list ExtractionResult;
  failed_extractions : list ExtractionResult;
  start_time : Z;
  end_time : option Z;
  success_rate : option float
}.

(** The environment of a batch: what the creation of the extractor meets,
    the scenario of the [i]-th extraction and the clock before and after
    the loop. *)
Record BatchScenario := {
  setup : Setup;
  item : nat -> Scenario;
  t_batch_start : Z;
  t_batch_end : Z
}.

Definition print (msg : string) : M unit := emit (Print msg).

Definition float_of_nat (n : nat) : float :=
  PrimFloat.of_uint63 (Uint63.of_Z (Z.of_nat n)).

(** [a / b] on two [int]: a [float], or [ZeroDivisionError]. *)
Definition truediv (a b : nat) : outcome float :=
  if Nat.eqb b 0 then Raise (Exception "division by zero")
  else Ok (PrimFloat.div (float_of_nat a) (float_of_nat b)).

(** [setup_logging], lines 84-98: the file handler opens the log file in
    the directory [logs]. *)
Definition setup_logging (env : Setup) (dir : Pathlib.Path) : M unit :=
  let log_file :=
    Pathlib.str (dir // "logs" // ("extraction_" +:+ log_stamp env +:+ ".log")) in
  lift (file_handler env log_file).

(** [AlkafeelExtractor(output_dir=output_dir, verbose=verbose)], the
    constructor of lines 53-82: it makes the output directory and its four
    subdirectories, none of them with its parents, sets the logger up and
    logs the absolute path of the output directory. *)
Definition new_extractor (env : Setup) (output_dir : string)
    : M AlkafeelExtractor :=
  let dir := Pathlib.parse output_dir in
  exec lift (mkdir env (Pathlib.str dir));
  exec lift (mkdir env (Pathlib.str (dir // "pdfs")));
  exec lift (mkdir env (Pathlib.str (dir // "metadata")));
  exec lift (mkdir env (Pathlib.str (dir // "screenshots")));
  exec lift (mkdir env (Pathlib.str (dir // "logs")));
  exec setup_logging env dir;
  exec log INFO "Al-Kafeel Extractor initialized";
  do absolute <-
    (if String.eqb (Pathlib.root dir) "" then
       do cwd <- lift (getcwd env);
       ret (Pathlib.absolute cwd dir)
     else ret dir);
  exec log INFO ("Output directory: " +:+ Pathlib.str absolute);
  ret {| output_dir := dir |}.

Definition append_successful (results : BatchSummary) (r : ExtractionResult)
    : BatchSummary :=
  {| total_books := total_books results;
     successful_extractions := successful_extractions results ++ [r];
     failed_extractions := failed_extractions results;
     start_time := start_time results;
     end_time := end_time results;
     success_rate := success_rate results |}.

Definition append_failed (results : BatchSummary) (r : ExtractionResult)
    : BatchSummary :=
  {| total_books := total_books results;
     successful_extractions := successful_extractions results;
     failed_extractions := failed_extractions results ++ [r];
     start_time := start_time results;
     end_time := end_time results;
     success_rate := success_rate results |}.

Definition set_end_time (results : BatchSummary) (t : Z) : BatchSummary :=
  {| total_books := total_books results;
     successful_extractions := successful_extractions results;
     failed_extractions := failed_extractions results;
     start_time := start_time results;
     end_time := Some t;
     success_rate := success_rate results |}.

Definition set_success_rate (results : BatchSummary) (rate : float)
    : BatchSummary :=
  {| total_books := total_books results;
     successful_extractions := successful_extractions results;
     failed_extractions := failed_extractions results;
     start_time := start_time results;
     end_time := end_time results;
     success_rate := Some rate |}.

Section Batch.

Context {U : Urllib}.

(** The loop [for i, url in enumerate(urls)], lines 534-544; [n] is
    [len(urls)] of the whole list. *)
Fixpoint batch_loop (extractor : AlkafeelExtractor) (w : BatchScenario)
    (n i : nat) (urls : list string) (results : BatchSummary)
    : M BatchSummary :=
  match urls with
  | [] => ret results
  | url :: rest =>
      exec print ("Processing book " +:+ str_nat (i + 1) +:+ "/"
                  +:+ str_nat n +:+ ": " +:+ url);
      do result <- extract_book extractor (item w i) url;
      do results <-
        (if success result then
           exec print ("Book " +:+ str_nat (i + 1) +:+ " extracted successfully");
           ret (append_successful results result)
         else
           exec print ("Book " +:+ str_nat (i + 1) +:+ " extraction failed: "
                       +:+ default "Unknown error" (error result));
           ret (append_failed results result));
      batch_loop extractor w n (S i) rest results
  end.

(** [extract_multiple_books], lines 511-556. *)
Definition extract_multiple_books (w : BatchScenario) (urls : list string)
    (output_dir : string) : M BatchSummary :=
  do extractor <- new_extractor (setup w) output_dir;
  let results :=
    {| total_books := length urls;
       successful_extractions := [];
       failed_extractions := [];
       start_time := t_batch_start w;
       end_time := None;
       success_rate := None |} in
  exec print ("Starting batch extraction of " +:+ str_nat (length urls)
              +:+ " books...");
  do results <- batch_loop extractor w (length urls) 0 urls results;
  let results := set_end_time results (t_batch_end w) in
  do ratio <- lift (truediv (length (successful_extractions results))
                            (length urls));
  let results := set_success_rate results (PrimFloat.mul ratio 100%float) in
  exec print banner;
  exec print "BATCH EXTRACTION COMPLETE";
  exec print ("Successful: "
              +:+ str_nat (length (successful_extractions results)) +:+ "/"
              +:+ str_nat (length urls));
  exec print ("Failed: " +:+ str_nat (length (failed_extractions results))
              +:+ "/" +:+ str_nat (length urls));
  exec print "Success Rate";
  exec print banner;
  ret results.

End Batch.

(** ** Predicates of the specification *)

(** A file name proper: a text without a slash. *)
Definition plain_name (s : string) : bool :=
  forallb (fun c => negb (Ascii.eqb c "/")) (PyStr.chars s).

(** The path whose components are those of the output directory followed
    by [pdfs] and [{book_id}.pdf]. *)
Definition artifact_path (self : AlkafeelExtractor) (book_id : string)
    : string :=
  Pathlib.str
    {| Pathlib.root := Pathlib.root (output_dir self);
       Pathlib.parts :=
         Pathlib.parts (output_dir self) ++ ["pdfs"; book_id +:+ ".pdf"] |}.

(** The text of a frame qualifies when it is not empty and at least 100
    characters of it remain once the white space around it is stripped. *)
Definition qualifying (text : string) : bool :=
  negb (String.eqb text "")
  && Nat.leb 100 (length (PyStr.strip (PyStr.chars text))).

(** What the scan makes of one frame: it accepts it with its source and
    text, skips it, or is interrupted while reading it. *)
Inductive verdict :=
| Accepted (src : option string) (text : string)
| Skipped
| Interrupted (msg : string).

(** A call of the frame: its value goes on, an [Exception] skips the frame,
    a [BaseException] interrupts the scan. *)
Definition after {A} (o : outcome A) (k : A -> verdict) : verdict :=
  match o with
  | Ok a => k a
  | Raise (Exception _) => Skipped
  | Raise (BaseException msg) => Interrupted msg
  end.

Definition verdict_of (f : Iframe) : verdict :=
  after (get_attribute_src f) (fun src =>
  after (content_frame f) (fun doc =>
  match doc with
  | None => Skipped
  | Some doc =>
      after (frame_sleep f) (fun _ =>
      after (text_content doc) (fun text =>
      match text with
      | Some text => if qualifying text then Accepted src text else Skipped
      | None => Skipped
      end))
  end)).

(** The result of the scan of the frames of a page, in document order: the
    first frame that is not skipped decides.  An accepted frame is returned
    with its 1-based index, whether its screenshot succeeds or fails. *)
Definition scan_outcome (self : AlkafeelExtractor) (sc : Scenario)
    (book_id : string) (frames : list Iframe)
    (r : outcome (option IframeData)) : Prop :=
  (exists before f rest src text,
      frames = before ++ f :: rest /\
      Forall (fun g => verdict_of g = Skipped) before /\
      verdict_of f = Accepted src text /\
      match screenshot sc (screenshot_path self book_id (length before)) with
      | Raise (BaseException msg) => r = Raise (BaseException msg)
      | _ =>
          r = Ok (Some {| iframe_index := length before + 1;
                          iframe_src := src;
                          content := text;
                          content_length := String.length text |})
      end)
  \/
  (exists before f rest msg,
      frames = before ++ f :: rest /\
      Forall (fun g => verdict_of g = Skipped) before /\
      verdict_of f = Interrupted msg /\
      r = Raise (BaseException msg))
  \/
  (Forall (fun g => verdict_of g = Skipped) frames /\ r = Ok None).

(** The screenshots requested in a trace, and the frames it attempted. *)
Definition screenshots (tr : list event) : list string :=
  flat_map (fun e => match e with
                     | Browser (Screenshot p) => [p]
                     | _ => []
                     end) tr.

Definition attempted (tr : list event) : list nat :=
  flat_map (fun e => match e with
                     | Browser (GetAttribute i) => [i]
                     | _ => []
                     end) tr.

Definition warnings (tr : list event) : list string :=
  flat_map (fun e => match e with
                     | Log WARNING msg => [msg]
                     | _ => []
                     end) tr.

(** The same with what the scan leaves in the trace, for a scan that starts
    at the frame of index [i] in the state [st] and ends as [r]: the frames
    attempted, the screenshots requested and the warning of a failed
    screenshot. *)
Definition scan_report (self : AlkafeelExtractor) (sc : Scenario)
    (book_id : string) (i : nat) (frames : list Iframe) (st : State)
    (r : outcome (option IframeData) * State) : Prop :=
  (exists before f rest src text,
      frames = before ++ f :: rest /\
      Forall (fun g => verdict_of g = Skipped) before /\
      verdict_of f = Accepted src text /\
      attempted (trace (snd r))
      = attempted (trace st) ++ seq i (S (length before)) /\
      screenshots (trace (snd r))
      = screenshots (trace st)
        ++ [screenshot_path self book_id (i + length before)] /\
      fst r = match screenshot sc
                      (screenshot_path self book_id (i + length before)) with
              | Raise (BaseException msg) => Raise (BaseException msg)
              | _ => Ok (Some {| iframe_index := i + length before + 1;
                                 iframe_src := src;
                                 content := text;
                                 content_length := String.length text |})
              end /\
      forall msg,
        screenshot sc (screenshot_path self book_id (i + length before))
        = Raise (Exception msg) ->
        In ("Screenshot failed: " +:+ msg) (warnings (trace (snd r))))
  \/
  (exists before f rest msg,
      frames = before ++ f :: rest /\
      Forall (fun g => verdict_of g = Skipped) before /\
      verdict_of f = Interrupted msg /\
      screenshots (trace (snd r)) = screenshots (trace st) /\
      fst r = Raise (BaseException msg))
  \/
  (Forall (fun g => verdict_of g = Skipped) frames /\
   attempted (trace (snd r)) = attempted (trace st) ++ seq i (length frames) /\
   screenshots (trace (snd r)) = screenshots (trace st) /\
   fst r = Ok None).

(** The file store after the scan of the frames from the index [i] on: the
    one file the scan writes is the screenshot of the first frame that is
    not skipped, when that frame is accepted. *)
Fixpoint scan_store (self : AlkafeelExtractor) (sc : Scenario)
    (book_id : string) (i : nat) (frames : list Iframe)
    (fs : gmap string file) : gmap string file :=
  match frames with
  | [] => fs
  | f :: rest =>
      match verdict_of f with
      | Accepted _ _ =>
          let p := screenshot_path self book_id i in
          written p Png (screenshot sc p) (opened_before sc p) fs
      | Skipped => scan_store self sc book_id (S i) rest fs
      | Interrupted _ => fs
      end
  end.

(** The calls into the browser of a trace, and the number of those that
    close the session. *)
Definition browser_calls (tr : list event) : list call :=
  flat_map (fun e => match e with
                     | Browser c => [c]
                     | _ => []
                     end) tr.

Definition closes (tr : list event) : nat :=
  length (List.filter (fun c => match c with Close => true | _ => false end)
                      (browser_calls tr)).

(** A computation keeps a relation between the state it starts in and the
    state it ends in, however it ends. *)
Definition preserves {A} (I : State -> State -> Prop) (m : M A) : Prop :=
  forall st, I st (snd (m st)).

(** Nothing reaches the browser and no file changes. *)
Definition offline (st st' : State) : Prop :=
  browser_calls (trace st') = browser_calls (trace st) /\
  files st' = files st.

(** The session is not closed. *)
Definition unclosed (st st' : State) : Prop :=
  closes (trace st') = closes (trace st).

(** Every value a computation returns satisfies [P]. *)
Definition returns_only {A} (P : A -> Prop) (m : M A) : Prop :=
  forall st a st', m st = (Ok a, st') -> P a.

(** The shape of a result dictionary: a success carries the artifact path
    and no error, a failure an error and no artifact path. *)
Definition well_shaped (r : ExtractionResult) : Prop :=
  if success r
  then is_Some (pdf_path r) /\ error r = None
  else pdf_path r = None /\ is_Some (error r).

(** The result of a failed URL validation, lines 408-412. *)
Definition invalid_url (url : string) : ExtractionResult :=
  {| success := false; error := Some "Invalid URL"; book_id := None;
     url := url; pdf_path := None; pdf_size_bytes := None;
     iframe_data := None; extraction_duration := None;
     metadata_path := None |}.

(** An answer of the environment that is not an interruption. *)
Definition quiet {A} (o : outcome A) : Prop :=
  forall msg, o <> Raise (BaseException msg).

Definition calm_frame (f : Iframe) : Prop :=
  quiet (get_attribute_src f) /\
  quiet (content_frame f) /\
  quiet (frame_sleep f) /\
  forall doc, content_frame f = Ok (Some doc) -> quiet (text_content doc).

(** A run that nothing interrupts and whose session closes without an
    error: every other call may still raise an [Exception]. *)
Record calm (sc : Scenario) : Prop := {
  calm_start : quiet (playwright_start sc);
  calm_launch : quiet (launch sc);
  calm_new_page : quiet (new_page sc);
  calm_viewport : quiet (set_viewport_size sc);
  calm_headers : quiet (set_extra_http_headers sc);
  calm_goto : quiet (goto sc);
  calm_goto_sleep : quiet (goto_sleep sc);
  calm_frames : quiet (query_selector_all sc);
  calm_each_frame :
    forall frames, query_selector_all sc = Ok frames ->
                   Forall calm_frame frames;
  calm_screenshot : forall p, quiet (screenshot sc p);
  calm_write_pdf : forall p, quiet (write_pdf sc p);
  calm_write_metadata : forall p, quiet (write_metadata sc p);
  calm_close : close sc = Ok tt
}.

(** A computation that no interruption leaves, and one that always
    returns a value. *)
Definition uninterrupted {A} (m : M A) : Prop :=
  forall st, quiet (fst (m st)).

Definition returning {A} (m : M A) : Prop :=
  forall st, exists a, fst (m st) = Ok a.

(** The extractor that the batch runner creates. *)
Definition extractor_of (output_dir : string) : AlkafeelExtractor :=
  {| output_dir := Pathlib.parse output_dir |}.

(** The extractor can be created: the five directories can be made, the
    log file can be opened and, for a relative output directory, the
    working directory is known. *)
Definition ready (env : Setup) (output_dir : string) : Prop :=
  let dir := Pathlib.parse output_dir in
  Forall (fun p => mkdir env p = Ok tt)
         [Pathlib.str dir; Pathlib.str (dir // "pdfs");
          Pathlib.str (dir // "metadata"); Pathlib.str (dir // "screenshots");
          Pathlib.str (dir // "logs")] /\
  file_handler env
    (Pathlib.str (dir // "logs" // ("extraction_" +:+ log_stamp env +:+ ".log")))
  = Ok tt /\
  (Pathlib.root dir = "" -> exists cwd, getcwd env = Ok cwd).

(** [successful / total * 100] in binary64 arithmetic. *)
Definition percentage (successful total : nat) : float :=
  PrimFloat.mul (PrimFloat.div (float_of_nat successful) (float_of_nat total))
                100%float.

(** A rate that [{:.1f}] renders as 66.7: it lies between 66.65625 and
    66.75, two numbers that binary64 represents exactly. *)
Definition renders_66_7 (rate : float) : bool :=
  PrimFloat.ltb 66.65625%float rate && PrimFloat.ltb rate 66.75%float.

(** The scenario [sc] with another answer to the screenshot request. *)
Definition with_screenshot (sc : Scenario) (answer : string -> outcome unit)
    : Scenario :=
  {| playwright_start := playwright_start sc; launch := launch sc;
     new_page := new_page sc; set_viewport_size := set_viewport_size sc;
     set_extra_http_headers := set_extra_http_headers sc;
     goto := goto sc; goto_sleep := goto_sleep sc;
     query_selector_all := query_selector_all sc;
     screenshot := answer;
     close := close sc;
     write_pdf := write_pdf sc; write_metadata := write_metadata sc;
     opened_before := opened_before sc;
     t_start := t_start sc; t_end := t_end sc; t_metadata := t_metadata sc;
     stamp := stamp sc |}.

(** The outcome of trying a list of patterns in order, as a property of
    the list: the first pattern that matches anywhere gives the group of
    its leftmost match, and nothing is found when none matches. *)
Definition first_match (ps : list Re.pattern) (content : string)
    (r : outcome (option string)) : Prop :=
  (exists k p g,
      ps !! k = Some p /\
      r = Ok (Some (PyStr.of_chars g)) /\
      Re.leftmost p g (PyStr.chars content) /\
      forall j q, j < k -> ps !! j = Some q ->
                  ~ Re.matches q (PyStr.chars content))
  \/
  (r = Ok None /\
   forall q, In q ps -> ~ Re.matches q (PyStr.chars content)).

(** Running a monadic definition: unfold the monad and reduce its steps. *)
Ltac step_m :=
  cbv [try_except try_finally bind ret raise lift log print emit perform
       write_file save_screenshot] in *;
  cbn [fst snd trace files] in *.

(** Case analysis on the answers of the environment, one call after the
    other. *)
Ltac answers :=
  repeat (step_m;
          try match goal with
              | |- context [match ?o with Ok _ => _ | Raise _ => _ end] =>
                  destruct o as [?|[?|?]]
              end).

(** ** Scenarios to run the program on *)

Module Demo.

Definition st0 : State := {| trace := []; files := ∅ |}.

Definition extractor : AlkafeelExtractor :=
  {| output_dir := Pathlib.parse "output" |}.

Definition filler : string :=
  "xxxxxxxxxxxxxxxxxxxxxxxxxxxxxxxxxxxxxxxxxxxxxxxxxxxxxxxxxxxxxxxxxxxxxxxxxxxxxxxxxxxxxxxxxxxxxxxxxxxxxxxxx".

(** The body text of a frame that carries the payload [QUJD]. *)
Definition book_text : string := filler +:+ " var pdfData = 'QUJD'; ".

Definition frame_of (text : string) : Iframe :=
  {| get_attribute_src := Ok (Some "viewer.html");
     content_frame := Ok (Some {| text_content := Ok (Some text) |});
     frame_sleep := Ok tt |}.

(** A run in which every call into the environment returns. *)
Definition page_with (frames : list Iframe) : Scenario :=
  {| playwright_start := Ok tt; launch := Ok tt; new_page := Ok tt;
     set_viewport_size := Ok tt; set_extra_http_headers := Ok tt;
     goto := Ok tt; goto_sleep := Ok tt;
     query_selector_all := Ok frames;
     screenshot := fun _ => Ok tt;
     close := Ok tt;
     write_pdf := fun _ => Ok tt;
     write_metadata := fun _ => Ok tt;
     opened_before := fun _ => false;
     t_start := 0; t_end := 7; t_metadata := 6;
     stamp := "20251002_120000" |}.

Definition good : Scenario := page_with [frame_of book_text].

(** A text between double quotes. *)
Definition quoted (s : string) : string :=
  String dquote (s +:+ String dquote "").

Definition newline : string := String (ascii_of_nat 10) "".

(** The page text of the test suite, with its payload. *)
Definition test_payload : string :=
  "JVBERi0xLjUNJeLjz9MNCjE1OTg4IDAgb2JqDTw8L0ZpbHRlci9GbGF0ZURlY29kZS9GaXJzdCA4L0xlbmd0aCAyMDkvTiAxL1R5cGUvT2JqU3RtPj5zdHJlYW0=".

Definition test_content : string :=
  newline +:+ "        <html>" +:+ newline +:+ "        <script>" +:+ newline
  +:+ "        var pdfData = " +:+ quoted test_payload +:+ ";" +:+ newline
  +:+ "        </script>" +:+ newline +:+ "        </html>" +:+ newline.

Definition test_content_without : string :=
  newline +:+ "        <script>" +:+ newline
  +:+ "        var otherData = " +:+ quoted "some other data" +:+ ";"
  +:+ newline +:+ "        </script>" +:+ newline.

Definition blanks : string :=
  "                                                                                                    ".

(** A body text of 110 characters of which 10 remain once stripped. *)
Definition padded : string := blanks +:+ "short text".

(** A page whose first frame is too short and whose second frame carries
    the payload. *)
Definition two_frames : Scenario :=
  page_with [frame_of "short"; frame_of book_text].

(** The run [good] with a screenshot that fails. *)
Definition no_screenshot : Scenario :=
  with_screenshot good (fun _ => Raise (Exception "disk full")).

(** A file system in which the extractor can be created. *)
Definition writable : Setup :=
  {| mkdir := fun _ => Ok tt; file_handler := fun _ => Ok tt;
     log_stamp := "20251002_115959"; getcwd := Ok "/home/user" |}.

(** A batch in which every extraction meets the run [good]. *)
Definition all_good : BatchScenario :=
  {| setup := writable; item := fun _ => good;
     t_batch_start := 0; t_batch_end := 30 |}.

Definition good_url : string :=
  "https://library.alkafeel.net/dic/book/?e=test-id&other=param".

(** The run [good] with a navigation that times out. *)
Definition nav_timeout : Scenario :=
  {| playwright_start := Ok tt; launch := Ok tt; new_page := Ok tt;
     set_viewport_size := Ok tt; set_extra_http_headers := Ok tt;
     goto := Raise (Exception "Timeout 60000ms exceeded");
     goto_sleep := Ok tt;
     query_selector_all := Ok [frame_of book_text];
     screenshot := fun _ => Ok tt;
     close := Ok tt;
     write_pdf := fun _ => Ok tt;
     write_metadata := fun _ => Ok tt;
     opened_before := fun _ => false;
     t_start := 0; t_end := 61; t_metadata := 61;
     stamp := "20251002_120000" |}.

(** Three URLs of which the second fails the validation. *)
Definition three_urls : list string :=
  [good_url; "https://google.com"; good_url].

(** A URL of another host whose name starts with the library's. *)
Definition lookalike_url : string :=
  "https://library.alkafeel.net.evil.example/dic/book/?e=test-id".

End Demo.

(** ** Further predicates and functions of the specification *)

(** A computation whose result and effect on the files are the same in
    every state: it ends as [o] and leaves the files [F] of those it
    found. *)
Definition yields {A} (m : M A) (o : outcome A)
    (F : gmap string file -> gmap string file) : Prop :=
  forall st, fst (m st) = o /\ files (snd (m st)) = F (files st).

(** The payload that the four patterns find in a text: that of the first
    pattern, in their order, that matches. *)
Definition find_payload (content : string) : option string :=
  head (omap (fun p => Re.search p content)
             (pdf_pattern :: alternative_patterns)).

(** The identifier of the book of a URL: the value of its parameter [e], or
    the time stamp of the run. *)
Definition book_id_of (sc : Scenario) (url : string) : string :=
  match Re.search book_id_pattern url with
  | Some id => id
  | None => "book_" +:+ stamp sc
  end.

(** [self.output_dir / metadata / {book_id}_metadata.json], line 386. *)
Definition metadata_file (self : AlkafeelExtractor) (book_id : string)
    : string :=
  Pathlib.str (output_dir self // "metadata" // (book_id +:+ "_metadata.json")).

(** The parameter [e] of a URL at one place: after the text [before] come a
    question mark or an ampersand, the text [e=] and the value [id], which
    is not empty, holds no ampersand and runs up to the next ampersand or
    the end of the URL. *)
Definition e_parameter_at (url : string) (before : list ascii) (id : string)
    : Prop :=
  exists c rest,
    PyStr.chars url
    = before ++ c :: PyStr.chars "e=" ++ PyStr.chars id ++ rest /\
    (c = "?"%char \/ c = "&"%char) /\
    id <> "" /\
    Forall (fun a => a <> "&"%char) (PyStr.chars id) /\
    (rest = [] \/ exists rest', rest = "&"%char :: rest').

(** The scenario [sc] with other answers of the environment. *)
Definition with_launch (sc : Scenario) (answer : outcome unit) : Scenario :=
  {| playwright_start := playwright_start sc; launch := answer;
     new_page := new_page sc; set_viewport_size := set_viewport_size sc;
     set_extra_http_headers := set_extra_http_headers sc;
     goto := goto sc; goto_sleep := goto_sleep sc;
     query_selector_all := query_selector_all sc;
     screenshot := screenshot sc;
     close := close sc;
     write_pdf := write_pdf sc; write_metadata := write_metadata sc;
     opened_before := opened_before sc;
     t_start := t_start sc; t_end := t_end sc; t_metadata := t_metadata sc;
     stamp := stamp sc |}.

Definition with_close (sc : Scenario) (answer : outcome unit) : Scenario :=
  {| playwright_start := playwright_start sc; launch := launch sc;
     new_page := new_page sc; set_viewport_size := set_viewport_size sc;
     set_extra_http_headers := set_extra_http_headers sc;
     goto := goto sc; goto_sleep := goto_sleep sc;
     query_selector_all := query_selector_all sc;
     screenshot := screenshot sc;
     close := answer;
     write_pdf := write_pdf sc; write_metadata := write_metadata sc;
     opened_before := opened_before sc;
     t_start := t_start sc; t_end := t_end sc; t_metadata := t_metadata sc;
     stamp := stamp sc |}.

Definition with_write_metadata (sc : Scenario)
    (answer : string -> outcome unit) : Scenario :=
  {| playwright_start := playwright_start sc; launch := launch sc;
     new_page := new_page sc; set_viewport_size := set_viewport_size sc;
     set_extra_http_headers := set_extra_http_headers sc;
     goto := goto sc; goto_sleep := goto_sleep sc;
     query_selector_all := query_selector_all sc;
     screenshot := screenshot sc;
     close := close sc;
     write_pdf := write_pdf sc; write_metadata := answer;
     opened_before := opened_before sc;
     t_start := t_start sc; t_end := t_end sc; t_metadata := t_metadata sc;
     stamp := stamp sc |}.

(** No file is created or changed. *)
Definition untouched (st st' : State) : Prop := files st' = files st.

(** The store once the screenshot of the frame of index [k] was requested. *)
Definition shot_store (self : AlkafeelExtractor) (sc : Scenario)
    (book_id : string) (k : nat) (fs : gmap string file) : gmap string file :=
  written (screenshot_path self book_id k) Png
    (screenshot sc (screenshot_path self book_id k))
    (opened_before sc (screenshot_path self book_id k)) fs.

(** The result of a successful extraction as the metadata document holds
    it, before [metadata_path] is set, and that document. *)
Definition success_result (self : AlkafeelExtractor) (sc : Scenario)
    (url : string) (data : list Byte.byte) (frame : nat * option string * nat)
    : ExtractionResult :=
  {| success := true; error := None; book_id := Some (book_id_of sc url);
     url := url;
     pdf_path := Some (Pathlib.str (pdf_file self (book_id_of sc url)));
     pdf_size_bytes := Some (length data);
     iframe_data := Some frame;
     extraction_duration := Some (t_end sc - t_start sc)%Z;
     metadata_path := None |}.

Definition metadata_doc (sc : Scenario) (url : string)
    (d : ExtractionResult) : Metadata :=
  {| md_book_id := book_id_of sc url;
     md_original_url := url;
     md_extraction_date := t_metadata sc;
     md_extractor_version := "1.0.0";
     md_created_by := "Eylias Sharar";
     md_extraction_data := d |}.

(** The result of an extraction that failed with the error [msg] once the
    URL was validated, lines 481-487. *)
Definition failed_result (sc : Scenario) (url msg : string)
    : ExtractionResult :=
  {| success := false; error := Some msg; book_id := Some (book_id_of sc url);
     url := url; pdf_path := None; pdf_size_bytes := None;
     iframe_data := None;
     extraction_duration := Some (t_end sc - t_start sc)%Z;
     metadata_path := None |}.

(** What the steps of [extract_book] between the opening and the closing
    of the session leave behind, when they are not interrupted: nothing; or
    the screenshot of the accepted frame, with the PDF file left incomplete
    when its writing failed once it was opened; or the screenshot and the
    PDF file, when the metadata file could not be written; or all three
    files and the successful result. *)
Inductive left_behind (self : AlkafeelExtractor) (sc : Scenario)
    (url : string) (fs : gmap string file)
    : outcome ExtractionResult -> gmap string file -> Prop :=
| left_nothing o :
    (forall x, o <> Ok x) ->
    left_behind self sc url fs o fs
| left_screenshot o k :
    (forall x, o <> Ok x) ->
    left_behind self sc url fs o (shot_store self sc (book_id_of sc url) k fs)
| left_partial_pdf k e :
    write_pdf sc (Pathlib.str (pdf_file self (book_id_of sc url))) = Raise e ->
    opened_before sc (Pathlib.str (pdf_file self (book_id_of sc url))) = true ->
    left_behind self sc url fs (Raise (Exception "Failed to decode/save PDF"))
      (<[Pathlib.str (pdf_file self (book_id_of sc url)) := Partial]>
         (shot_store self sc (book_id_of sc url) k fs))
| left_pdf k data msg :
    write_metadata sc (metadata_file self (book_id_of sc url))
    = Raise (Exception msg) ->
    left_behind self sc url fs (Raise (Exception msg))
      (let saved :=
         <[Pathlib.str (pdf_file self (book_id_of sc url)) := Binary data]>
           (shot_store self sc (book_id_of sc url) k fs) in
       if opened_before sc (metadata_file self (book_id_of sc url))
       then <[metadata_file self (book_id_of sc url) := Partial]> saved
       else saved)
| left_all k data src len :
    left_behind self sc url fs
      (Ok (set_metadata_path
             (success_result self sc url data (k + 1, src, len))
             (metadata_file self (book_id_of sc url))))
      (<[metadata_file self (book_id_of sc url)
         := Json (metadata_doc sc url
                    (success_result self sc url data (k + 1, src, len)))]>
         (<[Pathlib.str (pdf_file self (book_id_of sc url)) := Binary data]>
            (shot_store self sc (book_id_of sc url) k fs))).

(** The lines printed in a trace. *)
Definition printed (tr : list event) : list string :=
  flat_map (fun e => match e with
                     | Print msg => [msg]
                     | _ => []
                     end) tr.

(** The value of a run that returns. *)
Definition returned {A} (r : outcome A * State) : option A :=
  match fst r with
  | Ok a => Some a
  | Raise _ => None
  end.

(** The run [good] on a full disk: the PDF file is opened, and the writing
    fails. *)
Definition disk_full : Scenario :=
  {| playwright_start := Ok tt; launch := Ok tt; new_page := Ok tt;
     set_viewport_size := Ok tt; set_extra_http_headers := Ok tt;
     goto := Ok tt; goto_sleep := Ok tt;
     query_selector_all := query_selector_all Demo.good;
     screenshot := fun _ => Ok tt;
     close := Ok tt;
     write_pdf := fun _ => Raise (Exception "No space left on device");
     write_metadata := fun _ => Ok tt;
     opened_before := fun _ => true;
     t_start := 0; t_end := 7; t_metadata := 6;
     stamp := "20251002_120000" |}.

(** A file system in which the output directory [a/b] has no parent. *)
Definition no_parent : Setup :=
  {| mkdir := fun p =>
       if String.eqb p "a/b"
       then Raise (Exception "No such file or directory: 'a/b'")
       else Ok tt;
     file_handler := fun _ => Ok tt;
     log_stamp := "20251002_115959"; getcwd := Ok "/home/user" |}.

(** A URL of the library whose parameter [e] is an absolute file name. *)
Definition absolute_id_url : string :=
  "https://library.alkafeel.net/dic/book/?e=/tmp/x".

(** Three books, and a batch in which the session of the second book
    cannot be closed: every other call returns. *)
Definition three_books : list string :=
  ["https://library.alkafeel.net/dic/book/?e=book-1";
   "https://library.alkafeel.net/dic/book/?e=book-2";
   "https://library.alkafeel.net/dic/book/?e=book-3"].

Definition close_fails : BatchScenario :=
  {| setup := Demo.writable;
     item := fun i =>
       match i with
       | 1 => with_close Demo.good (Raise (Exception "Connection closed"))
       | _ => Demo.good
       end;
     t_batch_start := 0; t_batch_end := 90 |}.

(** ** The command line: the file of URLs of [batch-extract]

    [[line.strip() for line in f if line.strip() and not
    line.startswith('#')]], line 144 of [main.py]; [lines] are the lines
    the file yields, each with its line break. *)
Definition read_urls (lines : list string) : list string :=
  map (fun line => PyStr.of_chars (PyStr.strip (PyStr.chars line)))
      (List.filter
         (fun line =>
            negb (String.eqb (PyStr.of_chars (PyStr.strip (PyStr.chars line)))
                             "")
            && negb (PyStr.startswith (PyStr.chars "#") (PyStr.chars line)))
         lines).

(** * Properties *)

(** ** The models of the libraries on the program's own inputs *)

Example urlparse_book :
  UrlModel.urlparse_model
    "https://library.alkafeel.net/dic/book/?e=test-id&other=param"
  = Ok {| scheme := "https"; netloc := "library.alkafeel.net";
          path := "/dic/book/"; params := ""; query := "e=test-id&other=param";
          fragment := "" |}.
Proof. reflexivity. Qed.

Example urlparse_plain :
  UrlModel.urlparse_model "not-a-url"
  = Ok {| scheme := ""; netloc := ""; path := "not-a-url"; params := "";
          query := ""; fragment := "" |}.
Proof. reflexivity. Qed.

Example b64encode_ABC :
  Base64.b64encode [Byte.x41; Byte.x42; Byte.x43] = "QUJD".
Proof. reflexivity. Qed.

Example b64decode_skips : Base64.b64decode "QU!JD" = Ok [Byte.x41; Byte.x42; Byte.x43].
Proof. reflexivity. Qed.

Example path_join_relative :
  Pathlib.str (Pathlib.parse "output" // "pdfs" // "a.pdf") = "output/pdfs/a.pdf".
Proof. reflexivity. Qed.

Example path_join_absolute :
  Pathlib.str (Pathlib.parse "output" // "pdfs" // "/tmp/a.pdf") = "/tmp/a.pdf".
Proof. reflexivity. Qed.

(** ** The pattern matcher against the definition of a match *)

Module ReFacts.
Import Re.

Lemma greedy_sound {R} f (k : list ascii -> option R) s r :
  greedy f k s = Some r ->
  exists w s', s = w ++ s' /\ Forall (fun c => f c = true) w /\ k s' = Some r.
Proof.
  induction s as [|c s IH]; simpl; intros H.
  - exists [], []. auto.
  - destruct (f c) eqn:Hc.
    + destruct (greedy f k s) as [r'|] eqn:Hg.
      * injection H as ->.
        destruct (IH eq_refl) as (w & s' & -> & Hw & Hk).
        exists (c :: w), s'. auto.
      * exists [], (c :: s). auto.
    + exists [], (c :: s). auto.
Qed.

Lemma greedy_complete {R} f (k : list ascii -> option R) w s' :
  Forall (fun c => f c = true) w ->
  is_Some (k s') -> is_Some (greedy f k (w ++ s')).
Proof.
  intros Hw Hk. induction Hw as [|c w Hc Hw IH]; simpl.
  - destruct s' as [|c s'']; simpl; [exact Hk|].
    destruct (f c); [|exact Hk].
    destruct (greedy f k s''); [eauto | exact Hk].
  - rewrite Hc. destruct IH as [r ->]. eauto.
Qed.

Lemma run_sound {R} its : forall (k : list ascii -> option R) s r,
  run its k s = Some r ->
  exists w s', s = w ++ s' /\ seq_word its w /\ k s' = Some r.
Proof.
  induction its as [|i its IH]; intros k s r H.
  - exists [], s. repeat split; [constructor | exact H].
  - destruct i as [c|f|f|f]; simpl in H.
    + destruct s as [|a s]; [discriminate|].
      destruct (Ascii.eqb c a) eqn:E; [|discriminate].
      apply Ascii.eqb_eq in E as <-.
      destruct (IH _ _ _ H) as (w & s' & -> & Hw & Hk).
      exists ([c] ++ w), s'. repeat split; [constructor; [constructor|] |]; auto.
    + destruct s as [|a s]; [discriminate|].
      destruct (f a) eqn:E; [|discriminate].
      destruct (IH _ _ _ H) as (w & s' & -> & Hw & Hk).
      exists ([a] ++ w), s'.
      repeat split; [constructor; [constructor|] |]; auto.
    + destruct (greedy_sound _ _ _ _ H) as (w1 & s1 & -> & Hw1 & H1).
      destruct (IH _ _ _ H1) as (w & s' & -> & Hw & Hk).
      exists (w1 ++ w), s'. rewrite <- app_assoc.
      repeat split; [constructor; [constructor|] |]; auto.
    + destruct s as [|a s]; [discriminate|].
      destruct (f a) eqn:E; [|discriminate].
      destruct (greedy_sound _ _ _ _ H) as (w1 & s1 & -> & Hw1 & H1).
      destruct (IH _ _ _ H1) as (w & s' & -> & Hw & Hk).
      exists ((a :: w1) ++ w), s'. rewrite <- app_assoc.
      repeat split; [constructor; [constructor|] |]; auto.
Qed.

Lemma run_complete {R} its w : forall (k : list ascii -> option R) s',
  seq_word its w -> is_Some (k s') -> is_Some (run its k (w ++ s')).
Proof.
  intros k s' Hw. revert k s'.
  induction Hw as [|i its w1 w2 Hi Hw IH]; intros k s' Hk; [exact Hk|].
  rewrite <- app_assoc.
  destruct Hi as [c|f c Hc|f w1 Hw1|f c w1 Hc Hw1]; simpl.
  - rewrite Ascii.eqb_refl. auto.
  - rewrite Hc. auto.
  - apply greedy_complete; auto.
  - rewrite Hc. apply greedy_complete; auto.
Qed.

Lemma match_at_sound p s g : match_at p s = Some g -> occurs p [] g s.
Proof.
  unfold match_at. intros H.
  destruct (run_sound _ _ _ _ H) as (w1 & s1 & -> & Hw1 & H1).
  destruct (run_sound _ _ _ _ H1) as (wg & s2 & -> & Hwg & H2).
  destruct (run_sound _ _ _ _ H2) as (w2 & s3 & -> & Hw2 & H3).
  injection H3 as <-.
  exists w1, w2, s3.
  replace (length (wg ++ w2 ++ s3) - length (w2 ++ s3)) with (length wg)
    by (rewrite (length_app wg); lia).
  rewrite take_app_length. auto.
Qed.

Lemma match_at_complete p s g : occurs p [] g s -> is_Some (match_at p s).
Proof.
  intros (w1 & w2 & after & -> & H1 & Hg & H2). unfold match_at. simpl.
  apply run_complete; [exact H1|].
  apply run_complete; [exact Hg|].
  apply run_complete; [exact H2|]. eauto.
Qed.

Lemma occurs_cons p c before g s :
  occurs p (c :: before) g (c :: s) <-> occurs p before g s.
Proof.
  unfold occurs. split.
  - intros (w1 & w2 & a & E & H). injection E as ->. eauto 10.
  - intros (w1 & w2 & a & -> & H). exists w1, w2, a. auto.
Qed.

Lemma occurs_head p before g s :
  occurs p before g s -> before = [] \/
  exists c b s', before = c :: b /\ s = c :: s'.
Proof.
  intros (w1 & w2 & a & -> & _). destruct before as [|c b]; [auto|].
  right. eauto.
Qed.

Lemma search_chars_sound p s g : search_chars p s = Some g -> leftmost p g s.
Proof.
  induction s as [|c s IH]; simpl.
  - destruct (match_at p []) as [g'|] eqn:Hm; [|discriminate].
    intros [= ->]. exists []. split; [apply match_at_sound, Hm|].
    intros; simpl; lia.
  - destruct (match_at p (c :: s)) as [g'|] eqn:Hm.
    + intros [= ->]. exists []. split; [apply match_at_sound, Hm|].
      intros; simpl; lia.
    + intros H. destruct (IH H) as (before & Ho & Hmin).
      exists (c :: before). split; [apply occurs_cons, Ho|].
      intros b' g' Ho'.
      destruct (occurs_head _ _ _ _ Ho') as [->|(c' & b & s' & -> & E)].
      * apply match_at_complete in Ho'. rewrite Hm in Ho'.
        destruct Ho' as [? [=]].
      * injection E as <- <-. apply occurs_cons in Ho'.
        simpl. apply Hmin in Ho'. lia.
Qed.

Lemma search_chars_complete p s : matches p s -> is_Some (search_chars p s).
Proof.
  intros (before & g & Ho). revert s Ho.
  induction before as [|c b IH]; intros s Ho.
  - apply match_at_complete in Ho as [g' Hg].
    destruct s; simpl; rewrite Hg; eauto.
  - destruct (occurs_head _ _ _ _ Ho) as [[=]|(c' & b' & s' & [= <- <-] & ->)].
    apply occurs_cons in Ho. simpl.
    destruct (match_at p (c :: s')); [eauto|]. apply IH, Ho.
Qed.

Lemma search_chars_none p s : search_chars p s = None <-> ~ matches p s.
Proof.
  split.
  - intros H Hm. apply search_chars_complete in Hm. rewrite H in Hm.
    destruct Hm as [? [=]].
  - intros Hn. destruct (search_chars p s) as [g|] eqn:H; [|reflexivity].
    destruct Hn. apply search_chars_sound in H as (before & Ho & _).
    exists before, g. exact Ho.
Qed.

Lemma search_some p s g :
  search p s = Some g ->
  exists w, g = PyStr.of_chars w /\ leftmost p w (PyStr.chars s).
Proof.
  unfold search. destruct (search_chars p (PyStr.chars s)) as [w|] eqn:H;
    simpl; [|discriminate].
  intros [= <-]. exists w. split; [reflexivity|].
  apply search_chars_sound, H.
Qed.

Lemma search_none p s : search p s = None <-> ~ matches p (PyStr.chars s).
Proof.
  unfold search. rewrite <- search_chars_none.
  destruct (search_chars p (PyStr.chars s)); simpl; split; congruence.
Qed.

End ReFacts.

(** ** The payload matcher *)

Section Matcher.

Lemma first_match_cons_some p ps content g :
  Re.search p content = Some g ->
  first_match (p :: ps) content (Ok (Some g)).
Proof.
  intros H. left. apply ReFacts.search_some in H as (w & -> & Hw).
  exists 0, p, w. repeat split; auto. intros j q Hj. lia.
Qed.

Lemma first_match_cons_none p ps content r :
  Re.search p content = None ->
  first_match ps content r -> first_match (p :: ps) content r.
Proof.
  intros H%ReFacts.search_none [(k & q & g & Hk & Hr & Hl & Hmin)|[Hr Hn]].
  - left. exists (S k), q, g. repeat split; auto.
    intros [|j] q' Hj Hq; simpl in Hq.
    + injection Hq as <-. exact H.
    + apply (Hmin j); [lia | exact Hq].
  - right. split; [exact Hr|]. intros q [<-|Hq]; auto.
Qed.

Lemma try_patterns_first_match ps content st :
  first_match ps content (fst (try_patterns ps content st)).
Proof.
  revert st. induction ps as [|p ps IH]; intros st; simpl.
  - step_m. right. split; [reflexivity|]. intros q [].
  - destruct (Re.search p content) as [g|] eqn:H.
    + step_m. apply first_match_cons_some, H.
    + apply first_match_cons_none; auto.
Qed.

End Matcher.

(** C3: on every text, [extract_pdf_data] returns without raising, and its
    result is that of trying the four patterns in the order named
    assignment, loose assignment, data URI, raw signature: the group of the
    leftmost match of the first pattern that matches anywhere in the text,
    and [None] exactly when none of the four matches. *)
Theorem extract_pdf_data_first_match (content : string) (st : State) :
  first_match (pdf_pattern :: alternative_patterns) content
              (fst (extract_pdf_data content st)).
Proof.
  unfold extract_pdf_data.
  destruct (Re.search pdf_pattern content) as [g|] eqn:H.
  - step_m. apply first_match_cons_some, H.
  - apply first_match_cons_none; [exact H|].
    pose proof (try_patterns_first_match alternative_patterns content
                  {| trace := trace st ++ [Log INFO "Searching for PDF data in content..."];
                     files := files st |}) as Hp.
    step_m.
    destruct (try_patterns alternative_patterns content _) as [[r|[e|e]] st'];
      exact Hp || (destruct Hp as [(? & ? & ? & _ & [=] & _)|[[=] _]]).
Qed.

(** The two cases of the test suite. *)
Example extract_pdf_data_test :
  fst (extract_pdf_data Demo.test_content Demo.st0)
  = Ok (Some Demo.test_payload).
Proof. vm_compute. reflexivity. Qed.

Example extract_pdf_data_test_not_found :
  fst (extract_pdf_data Demo.test_content_without Demo.st0) = Ok None.
Proof. vm_compute. reflexivity. Qed.

(** Each of the four forms on its own, a payload that runs over two
    lines, and the empty text. *)
Example extract_pdf_data_forms :
  map (fun content => fst (extract_pdf_data content Demo.st0))
      ["var pdfData = 'AAAA';";
       "window.pdfData   ='BBBB'";
       "src='data:application/pdf;base64,CCCC'";
       "x('JVBERi0xDDDD')";
       "var pdfData = 'AA" +:+ Demo.newline +:+ "AA';";
       "pdfData = 'BBBB'; src='data:application/pdf;base64,CCCC'";
       "JVBERi0xDDDD";
       ""]
  = [Ok (Some "AAAA"); Ok (Some "BBBB"); Ok (Some "CCCC");
     Ok (Some "JVBERi0xDDDD");
     Ok (Some ("AA" +:+ Demo.newline +:+ "AA"));
     Ok (Some "BBBB"); Ok None; Ok None].
Proof. vm_compute. reflexivity. Qed.

(** ** Base64: decoding an encoding *)

Module Base64Facts.
Import Base64.

Lemma list_ind3 {A} (P : list A -> Prop) :
  P [] -> (forall x, P [x]) -> (forall x y, P [x; y]) ->
  (forall x y z l, P l -> P (x :: y :: z :: l)) ->
  forall l, P l.
Proof.
  intros H0 H1 H2 H3.
  assert (forall l, P l /\ (forall x, P (x :: l)) /\ (forall x y, P (x :: y :: l)))
    as H; [|intros l; apply H].
  induction l as [|a l (IH0 & IH1 & IH2)]; auto.
Qed.

Lemma byte_of_Z_of_byte x : byte_of_Z (Z_of_byte x) = x.
Proof.
  unfold byte_of_Z, Z_of_byte.
  pose proof (Byte.to_N_bounded x).
  rewrite Z.mod_small by lia. rewrite N2Z.id, Byte.of_to_N. reflexivity.
Qed.

Lemma Z_of_byte_range x : (0 <= Z_of_byte x < 256)%Z.
Proof. unfold Z_of_byte. pose proof (Byte.to_N_bounded x). lia. Qed.

Lemma in_range n z : (0 <= z < Z.of_nat n)%Z -> In z (range n).
Proof.
  intros H. unfold range. apply in_map_iff. exists (Z.to_nat z).
  split; [lia|]. apply in_seq. lia.
Qed.

Lemma check1 (f : Z -> bool) n :
  forallb f (range n) = true -> forall z, (0 <= z < Z.of_nat n)%Z -> f z = true.
Proof. intros H z Hz. eapply forallb_forall in H; [exact H|]. apply in_range, Hz. Qed.

Lemma check2 (f : Z -> Z -> bool) n m :
  forallb (fun x => forallb (f x) (range m)) (range n) = true ->
  forall x y, (0 <= x < Z.of_nat n)%Z -> (0 <= y < Z.of_nat m)%Z -> f x y = true.
Proof.
  intros H x y Hx Hy. eapply check1 in H; [|exact Hx].
  eapply check1 in H; [exact H | exact Hy].
Qed.

(** The two tables are inverse on the 64 values, and no value is written
    as the padding character. *)
Lemma a2b_b2a v :
  (0 <= v < 64)%Z -> a2b (b2a v) = Some v /\ Ascii.eqb (b2a v) pad = false.
Proof.
  intros H.
  pose proof (check1
    (fun v => match a2b (b2a v) with Some u => Z.eqb u v | None => false end
              && negb (Ascii.eqb (b2a v) pad)) 64 eq_refl v H) as C.
  apply andb_prop in C as [C1 C2].
  destruct (a2b (b2a v)) as [u|]; [|discriminate].
  apply Z.eqb_eq in C1 as ->. split; [reflexivity|].
  destruct (Ascii.eqb (b2a v) pad); [discriminate | reflexivity].
Qed.

Lemma sextets_range x y :
  (0 <= x < 256)%Z -> (0 <= y < 256)%Z ->
  (0 <= sextet1 x < 64)%Z /\ (0 <= sextet2 x y < 64)%Z /\
  (0 <= sextet3 x y < 64)%Z /\ (0 <= sextet4 x < 64)%Z.
Proof.
  intros Hx Hy.
  pose proof (check2
    (fun x y => in64 (sextet1 x) && in64 (sextet2 x y)
                && in64 (sextet3 x y) && in64 (sextet4 x))
    256 256 ltac:(vm_compute; reflexivity) x y Hx Hy) as C.
  unfold in64 in C. lia.
Qed.

Lemma octet1 x y :
  (0 <= x < 256)%Z -> (0 <= y < 256)%Z ->
  (Z.lor (Z.shiftl (sextet1 x) 2) (Z.shiftr (sextet2 x y) 4) mod 256 = x)%Z.
Proof.
  intros Hx Hy. apply Z.eqb_eq.
  exact (check2
    (fun x y => (Z.lor (Z.shiftl (sextet1 x) 2) (Z.shiftr (sextet2 x y) 4)
                 mod 256 =? x)%Z)
    256 256 ltac:(vm_compute; reflexivity) x y Hx Hy).
Qed.

Lemma octet2 x y z :
  (0 <= x < 256)%Z -> (0 <= y < 256)%Z -> (0 <= z < 256)%Z ->
  (Z.lor (Z.shiftl (Z.land (sextet2 x y) 15) 4) (Z.shiftr (sextet3 y z) 2)
   mod 256 = y)%Z.
Proof.
  intros Hx Hy Hz.
  assert (Z.land (sextet2 x y) 15 = Z.shiftr y 4) as ->.
  { apply Z.eqb_eq.
    exact (check2 (fun x y => (Z.land (sextet2 x y) 15 =? Z.shiftr y 4)%Z)
             256 256 ltac:(vm_compute; reflexivity) x y Hx Hy). }
  apply Z.eqb_eq.
  exact (check2
    (fun y z => (Z.lor (Z.shiftl (Z.shiftr y 4) 4) (Z.shiftr (sextet3 y z) 2)
                 mod 256 =? y)%Z)
    256 256 ltac:(vm_compute; reflexivity) y z Hy Hz).
Qed.

Lemma octet3 y z :
  (0 <= y < 256)%Z -> (0 <= z < 256)%Z ->
  (Z.lor (Z.shiftl (Z.land (sextet3 y z) 3) 6) (sextet4 z) mod 256 = z)%Z.
Proof.
  intros Hy Hz. apply Z.eqb_eq.
  exact (check2
    (fun y z => (Z.lor (Z.shiftl (Z.land (sextet3 y z) 3) 6) (sextet4 z)
                 mod 256 =? z)%Z)
    256 256 ltac:(vm_compute; reflexivity) y z Hy Hz).
Qed.

Lemma loop_data c v s q lc p bin :
  a2b c = Some v -> Ascii.eqb c pad = false ->
  a2b_loop (c :: s) q lc p bin =
  match q with
  | 0 => a2b_loop s 1 v 0 bin
  | 1 =>
      a2b_loop s 2 (Z.land v 15) 0
        (bin ++ [byte_of_Z (Z.lor (Z.shiftl lc 2) (Z.shiftr v 4))])
  | 2 =>
      a2b_loop s 3 (Z.land v 3) 0
        (bin ++ [byte_of_Z (Z.lor (Z.shiftl lc 4) (Z.shiftr v 2))])
  | _ => a2b_loop s 0 0 0 (bin ++ [byte_of_Z (Z.lor (Z.shiftl lc 6) v)])
  end.
Proof. intros Hv Hp. cbn [a2b_loop]. rewrite Hp, Hv. reflexivity. Qed.

Lemma loop_sextet v s q lc p bin :
  (0 <= v < 64)%Z ->
  a2b_loop (b2a v :: s) q lc p bin =
  match q with
  | 0 => a2b_loop s 1 v 0 bin
  | 1 =>
      a2b_loop s 2 (Z.land v 15) 0
        (bin ++ [byte_of_Z (Z.lor (Z.shiftl lc 2) (Z.shiftr v 4))])
  | 2 =>
      a2b_loop s 3 (Z.land v 3) 0
        (bin ++ [byte_of_Z (Z.lor (Z.shiftl lc 4) (Z.shiftr v 2))])
  | _ => a2b_loop s 0 0 0 (bin ++ [byte_of_Z (Z.lor (Z.shiftl lc 6) v)])
  end.
Proof. intros H. destruct (a2b_b2a v H). apply loop_data; assumption. Qed.

Lemma byte_of_Z_mod z x : (z mod 256 = Z_of_byte x)%Z -> byte_of_Z z = x.
Proof.
  intros H. rewrite <- (byte_of_Z_of_byte x). unfold byte_of_Z.
  rewrite H. rewrite (Z.mod_small (Z_of_byte x)) by apply Z_of_byte_range.
  reflexivity.
Qed.

Lemma tail1 x : Z.shiftl (Z.land x 3) 4 = sextet2 x 0.
Proof. unfold sextet2. rewrite Z.shiftr_0_l, Z.lor_0_r. reflexivity. Qed.

Lemma tail2 y : Z.shiftl (Z.land y 15) 2 = sextet3 y 0.
Proof. unfold sextet3. rewrite Z.shiftr_0_l, Z.lor_0_r. reflexivity. Qed.

(** The decoder's loop undoes the encoder. *)
Lemma a2b_loop_encode b : forall bin,
  a2b_loop (encode_chars b) 0 0 0 bin = Ok (bin ++ b).
Proof.
  induction b as [|x|x y|x y z b IH] using list_ind3; intros bin.
  - simpl. rewrite app_nil_r. reflexivity.
  - pose proof (Z_of_byte_range x) as Hx.
    assert (0 <= 0 < 256)%Z as H0 by lia.
    destruct (sextets_range _ _ Hx H0) as (R1 & R2 & _).
    cbn [encode_chars]. rewrite tail1.
    rewrite !loop_sextet by assumption.
    rewrite (byte_of_Z_mod _ x) by (apply octet1; assumption).
    reflexivity.
  - pose proof (Z_of_byte_range x) as Hx.
    pose proof (Z_of_byte_range y) as Hy.
    assert (0 <= 0 < 256)%Z as H0 by lia.
    destruct (sextets_range _ _ Hx Hy) as (R1 & R2 & _).
    destruct (sextets_range _ _ Hy H0) as (_ & _ & R3 & _).
    cbn [encode_chars]. rewrite tail2.
    rewrite !loop_sextet by assumption.
    rewrite (byte_of_Z_mod _ x) by (apply octet1; assumption).
    rewrite (byte_of_Z_mod _ y) by (apply octet2; assumption).
    rewrite <- app_assoc. reflexivity.
  - pose proof (Z_of_byte_range x) as Hx.
    pose proof (Z_of_byte_range y) as Hy.
    pose proof (Z_of_byte_range z) as Hz.
    destruct (sextets_range _ _ Hx Hy) as (R1 & R2 & _).
    destruct (sextets_range _ _ Hy Hz) as (_ & _ & R3 & _).
    destruct (sextets_range _ _ Hz Hz) as (_ & _ & _ & R4).
    cbn [encode_chars].
    rewrite !loop_sextet by assumption.
    rewrite (byte_of_Z_mod _ x) by (apply octet1; assumption).
    rewrite (byte_of_Z_mod _ y) by (apply octet2; assumption).
    rewrite (byte_of_Z_mod _ z) by (apply octet3; assumption).
    rewrite IH. rewrite <- !app_assoc. reflexivity.
Qed.

Lemma b2a_ascii v : is_ascii (b2a v) = true.
Proof.
  unfold b2a.
  assert (forallb is_ascii (PyStr.chars alphabet) = true) as H by reflexivity.
  destruct (nth_in_or_default (Z.to_nat v) (PyStr.chars alphabet) pad) as [Hi | ->];
    [|reflexivity].
  rewrite forallb_forall in H. apply H, Hi.
Qed.

Lemma encode_chars_ascii b : forallb is_ascii (encode_chars b) = true.
Proof.
  induction b as [|x|x y|x y z b IH] using list_ind3; cbn [encode_chars forallb];
    rewrite ?b2a_ascii, ?IH; reflexivity.
Qed.

(** Decoding the encoding of [b] gives back [b]. *)
Lemma b64decode_b64encode b : b64decode (b64encode b) = Ok b.
Proof.
  unfold b64decode, b64encode, PyStr.chars, PyStr.of_chars.
  rewrite list_ascii_of_string_of_list_ascii, encode_chars_ascii.
  apply (a2b_loop_encode b []).
Qed.

(** The decoder raises nothing but an [Exception]. *)
Lemma a2b_loop_raises s : forall q lc p bin e,
  a2b_loop s q lc p bin = Raise e -> exists msg, e = Exception msg.
Proof.
  induction s as [|c s IH]; intros q lc p bin e; cbn [a2b_loop].
  - destruct q as [|[|q]]; intros [=]; eauto.
  - destruct (Ascii.eqb c pad).
    + destruct (Nat.leb 2 q); [destruct (Nat.leb 4 (q + S p)); [discriminate|]|];
        apply IH.
    + destruct (a2b c); [destruct q as [|[|[|q]]]|]; apply IH.
Qed.

Lemma b64decode_raises s e :
  b64decode s = Raise e -> exists msg, e = Exception msg.
Proof.
  unfold b64decode. destruct (forallb is_ascii (PyStr.chars s)).
  - apply a2b_loop_raises.
  - intros [= <-]. eauto.
Qed.

End Base64Facts.

(** ** Paths of artifacts *)

Module PathFacts.
Import Pathlib.

Lemma chars_app s t : PyStr.chars (s +:+ t) = PyStr.chars s ++ PyStr.chars t.
Proof. induction s as [|c s IH]; simpl; [reflexivity|]. f_equal. exact IH. Qed.

Lemma append_assoc s t u : (s +:+ t) +:+ u = s +:+ (t +:+ u).
Proof.
  induction s as [|c s IH]; [reflexivity|].
  change (String c ((s +:+ t) +:+ u) = String c (s +:+ t +:+ u)).
  rewrite IH. reflexivity.
Qed.

Lemma split_slash_plain l : forall cur,
  forallb (fun c => negb (Ascii.eqb c "/")) l = true ->
  split_slash l cur = [cur ++ l].
Proof.
  induction l as [|c l IH]; intros cur H; simpl in *.
  - rewrite app_nil_r. reflexivity.
  - apply andb_prop in H as [Hc Hl]. apply negb_true_iff in Hc. rewrite Hc.
    rewrite IH by exact Hl. rewrite <- app_assoc. reflexivity.
Qed.

(** A text without a slash and with a four-character suffix parses to a
    single component. *)
Lemma parse_file_name s :
  plain_name s = true ->
  parse (s +:+ ".pdf") = {| root := ""; parts := [s +:+ ".pdf"] |}.
Proof.
  unfold plain_name, parse. intros H.
  assert (forallb (fun c => negb (Ascii.eqb c "/")) (PyStr.chars (s +:+ ".pdf"))
          = true) as H'.
  { rewrite chars_app, forallb_app, H. reflexivity. }
  rewrite split_slash_plain by exact H'. simpl app. cbn [List.filter].
  assert (keep (PyStr.chars (s +:+ ".pdf")) = true) as ->.
  { rewrite chars_app. destruct (PyStr.chars s) as [|c [|c' l]]; reflexivity. }
  assert (parse_root (PyStr.chars (s +:+ ".pdf")) = "") as ->.
  { rewrite chars_app in *. destruct (PyStr.chars s) as [|c l]; [reflexivity|].
    simpl in H'. apply andb_prop in H' as [Hc _]. apply negb_true_iff in Hc.
    simpl. rewrite Hc. reflexivity. }
  cbn [map]. unfold PyStr.of_chars, PyStr.chars.
  rewrite string_of_list_ascii_of_string. reflexivity.
Qed.

Lemma concat_snoc2 ps a b :
  ps <> [] ->
  String.concat "/" (ps ++ [a; b]) = String.concat "/" ps +:+ "/" +:+ a +:+ "/" +:+ b.
Proof.
  induction ps as [|p ps IH]; [congruence|]. intros _.
  destruct ps as [|q ps].
  - reflexivity.
  - change (String.concat "/" ((p :: q :: ps) ++ [a; b]))
      with (p +:+ "/" +:+ String.concat "/" ((q :: ps) ++ [a; b])).
    rewrite IH by discriminate.
    change (String.concat "/" (p :: q :: ps))
      with (p +:+ "/" +:+ String.concat "/" (q :: ps)).
    rewrite !append_assoc. reflexivity.
Qed.

End PathFacts.

(** The file of a book whose identifier is a file name proper is
    [pdfs/{book_id}.pdf] below the output directory. *)
Lemma pdf_file_plain self book_id :
  plain_name book_id = true ->
  Pathlib.str (pdf_file self book_id) = artifact_path self book_id.
Proof.
  intros H. unfold pdf_file, artifact_path, Pathlib.joinpath at 1.
  rewrite (PathFacts.parse_file_name _ H). cbn [Pathlib.root String.eqb].
  unfold Pathlib.joinpath. 
  change (Pathlib.parse "pdfs") with {| Pathlib.root := ""; Pathlib.parts := ["pdfs"] |}.
  cbn [Pathlib.root Pathlib.parts String.eqb]. rewrite <- app_assoc. reflexivity.
Qed.

(** With an output directory of at least one component, that path reads
    [{output_dir}/pdfs/{book_id}.pdf]. *)
Lemma artifact_path_text self book_id :
  Pathlib.parts (output_dir self) <> [] ->
  artifact_path self book_id
  = Pathlib.str (output_dir self) +:+ "/pdfs/" +:+ book_id +:+ ".pdf".
Proof.
  intros H. unfold artifact_path, Pathlib.str. cbn [Pathlib.root Pathlib.parts].
  destruct (Pathlib.parts (output_dir self)) as [|p ps] eqn:E; [congruence|].
  pose proof (PathFacts.concat_snoc2 (p :: ps) "pdfs" (book_id +:+ ".pdf") H) as C.
  cbn [app] in *.
  destruct (Pathlib.root (output_dir self)) as [|c r];
    rewrite C, ?PathFacts.append_assoc; reflexivity.
Qed.

(** ** The PDF codec *)

(** A text without padding whose data characters do not come in fours is
    rejected by the decoder: the padding is incorrect. *)
Lemma a2b_loop_unpadded s : forall q lc p bin,
  forallb (fun c => negb (Ascii.eqb c Base64.pad)) s = true ->
  q < 4 ->
  (q + length (List.filter (fun c => bool_decide (is_Some (Base64.a2b c))) s))
    mod 4 <> 0 ->
  exists msg, Base64.a2b_loop s q lc p bin = Raise (Exception msg).
Proof.
  induction s as [|c s IH]; intros q lc p bin Hp Hq Hn; cbn [Base64.a2b_loop].
  - cbn [List.filter length] in Hn.
    destruct q as [|[|q]]; [|eauto | eauto].
    exfalso. apply Hn. reflexivity.
  - cbn [forallb] in Hp. apply andb_prop in Hp as [Hc Hs].
    apply negb_true_iff in Hc. rewrite Hc.
    cbn [List.filter] in Hn.
    destruct (Base64.a2b c) as [v|] eqn:Hv.
    + rewrite bool_decide_eq_true_2 in Hn by eauto. cbn [length] in Hn.
      set (n := length (List.filter
                  (fun c => bool_decide (is_Some (Base64.a2b c))) s)) in *.
      clearbody n.
      destruct q as [|[|[|[|q]]]]; try lia; apply IH; auto; try lia.
      intros E. apply Hn. replace (3 + S n) with (n + 1 * 4) by lia.
      rewrite Nat.Div0.mod_add. exact E.
    + rewrite bool_decide_eq_false_2 in Hn by (intros [? [=]]).
      apply IH; auto.
Qed.

(** C4, as amended: whenever the decoder rejects the payload, the error is
    caught inside [decode_and_save_pdf]: the call returns [None], logs the
    error and leaves every file as it was. *)
Theorem decode_and_save_pdf_rejected self sc payload book_id st e :
  Base64.b64decode payload = Raise e ->
  exists msg,
    e = Exception msg /\
    decode_and_save_pdf self sc payload book_id st
    = (Ok None,
       {| trace := trace st ++ [Log INFO "Decoding PDF data..."]
                   ++ [Log ERROR ("Failed to decode/save PDF: " +:+ msg)];
          files := files st |}).
Proof.
  intros H. destruct (Base64Facts.b64decode_raises _ _ H) as [msg ->].
  exists msg. split; [reflexivity|].
  unfold decode_and_save_pdf. step_m. rewrite H. cbn.
  rewrite <- app_assoc. reflexivity.
Qed.

Lemma decode_and_save_pdf_rejected_witness :
  exists msg,
    Exception "Incorrect padding" = Exception msg /\
    decode_and_save_pdf Demo.extractor Demo.good "QUJ" "book" Demo.st0
    = (Ok None,
       {| trace := trace Demo.st0 ++ [Log INFO "Decoding PDF data..."]
                   ++ [Log ERROR ("Failed to decode/save PDF: " +:+ msg)];
          files := files Demo.st0 |}).
Proof.
  apply (decode_and_save_pdf_rejected Demo.extractor Demo.good "QUJ" "book"
           Demo.st0 (Exception "Incorrect padding")).
  reflexivity.
Defined.

(** C4 as stated fails: a payload with a character outside the alphabet is
    not rejected; the character is skipped and the file is written. *)
Lemma decode_and_save_pdf_skips_non_alphabet :
  forallb Base64.in_alphabet (PyStr.chars "QU!JD") = false /\
  fst (decode_and_save_pdf Demo.extractor Demo.good "QU!JD" "book" Demo.st0)
  = Ok (Some "output/pdfs/book.pdf") /\
  files (snd (decode_and_save_pdf Demo.extractor Demo.good "QU!JD" "book"
                Demo.st0)) !! "output/pdfs/book.pdf"
  = Some (Binary [Byte.x41; Byte.x42; Byte.x43]).
Proof. repeat split; vm_compute; reflexivity. Qed.

Lemma b64decode_incorrect_padding payload :
  forallb Base64.is_ascii (PyStr.chars payload) = true ->
  forallb (fun c => negb (Ascii.eqb c Base64.pad)) (PyStr.chars payload) = true ->
  length (List.filter (fun c => bool_decide (is_Some (Base64.a2b c)))
            (PyStr.chars payload)) mod 4 <> 0 ->
  exists msg, Base64.b64decode payload = Raise (Exception msg).
Proof.
  intros Ha Hp Hn. unfold Base64.b64decode. rewrite Ha.
  apply a2b_loop_unpadded; [exact Hp | lia | exact Hn].
Qed.

(** One call on the encoding of [b]: the file of the book then holds [b]. *)
Lemma decode_and_save_pdf_encoded self sc b book_id st :
  plain_name book_id = true ->
  write_pdf sc (artifact_path self book_id) = Ok tt ->
  exists tr,
    decode_and_save_pdf self sc (Base64.b64encode b) book_id st
    = (Ok (Some (artifact_path self book_id)),
       {| trace := tr;
          files := <[artifact_path self book_id := Binary b]> (files st) |}).
Proof.
  intros Hn Ho. unfold decode_and_save_pdf.
  rewrite (pdf_file_plain self book_id Hn).
  step_m. rewrite Base64Facts.b64decode_b64encode, Ho. cbn.
  eexists. reflexivity.
Qed.

(** The round trip where the file name is a name: for a book identifier
    without a slash and writes that succeed, [decode_and_save_pdf] on the
    base64 encoding of [b] stores exactly [b] at [pdfs/{book_id}.pdf] below
    the output directory and returns that path; a second call with the same
    identifier returns the same path and replaces the content, creating no
    other file and touching none. *)
Lemma decode_and_save_pdf_roundtrip self sc sc' (b b' : list Byte.byte)
    book_id st :
  plain_name book_id = true ->
  write_pdf sc (artifact_path self book_id) = Ok tt ->
  write_pdf sc' (artifact_path self book_id) = Ok tt ->
  exists st1 st2,
    decode_and_save_pdf self sc (Base64.b64encode b) book_id st
    = (Ok (Some (artifact_path self book_id)), st1) /\
    files st1 !! artifact_path self book_id = Some (Binary b) /\
    decode_and_save_pdf self sc' (Base64.b64encode b') book_id st1
    = (Ok (Some (artifact_path self book_id)), st2) /\
    files st2 !! artifact_path self book_id = Some (Binary b') /\
    dom (files st2) = dom (files st1) /\
    (forall p, p <> artifact_path self book_id ->
               files st2 !! p = files st !! p) /\
    (Pathlib.parts (output_dir self) <> [] ->
     artifact_path self book_id
     = Pathlib.str (output_dir self) +:+ "/pdfs/" +:+ book_id +:+ ".pdf").
Proof.
  intros Hn Ho Ho'.
  destruct (decode_and_save_pdf_encoded self sc b book_id st Hn Ho) as [tr1 E1].
  eexists. 
  destruct (decode_and_save_pdf_encoded self sc' b' book_id
              {| trace := tr1;
                 files := <[artifact_path self book_id := Binary b]> (files st) |}
              Hn Ho') as [tr2 E2].
  eexists. split; [exact E1|]. cbn [files].
  split; [apply lookup_insert_eq|].
  split; [exact E2|]. cbn [files].
  split; [apply lookup_insert_eq|].
  split; [rewrite insert_insert_eq, !dom_insert_L; reflexivity|].
  split; [|apply artifact_path_text].
  intros p Hp. rewrite !lookup_insert_ne by congruence. reflexivity.
Qed.

Lemma decode_and_save_pdf_roundtrip_witness :
  exists st1 st2,
    decode_and_save_pdf Demo.extractor Demo.good
      (Base64.b64encode [Byte.x41; Byte.x42; Byte.x43]) "test-id" Demo.st0
    = (Ok (Some (artifact_path Demo.extractor "test-id")), st1) /\
    files st1 !! artifact_path Demo.extractor "test-id"
    = Some (Binary [Byte.x41; Byte.x42; Byte.x43]) /\
    decode_and_save_pdf Demo.extractor Demo.good
      (Base64.b64encode [Byte.x25; Byte.x50]) "test-id" st1
    = (Ok (Some (artifact_path Demo.extractor "test-id")), st2) /\
    files st2 !! artifact_path Demo.extractor "test-id"
    = Some (Binary [Byte.x25; Byte.x50]) /\
    dom (files st2) = dom (files st1) /\
    (forall p, p <> artifact_path Demo.extractor "test-id" ->
               files st2 !! p = files Demo.st0 !! p) /\
    (Pathlib.parts (output_dir Demo.extractor) <> [] ->
     artifact_path Demo.extractor "test-id"
     = Pathlib.str (output_dir Demo.extractor) +:+ "/pdfs/" +:+ "test-id"
       +:+ ".pdf").
Proof.
  apply (decode_and_save_pdf_roundtrip Demo.extractor Demo.good Demo.good
           [Byte.x41; Byte.x42; Byte.x43] [Byte.x25; Byte.x50] "test-id"
           Demo.st0); reflexivity.
Defined.

(** C5 is violated by the code: [decode_and_save_pdf] builds the file name
    [{book_id}.pdf] and joins it to the directory [pdfs] of the output
    directory, the directory to save the extracted files in; but the join
    of [pathlib] lets an absolute right operand replace the left one.  The
    identifier [/tmp/x], which the valid URL [.../dic/book/?e=/tmp/x]
    gives, makes the file name absolute: the bytes are stored in
    [/tmp/x.pdf], outside the output directory, that path is returned, and
    nothing is stored below [output/pdfs].  [extract_book] on that URL
    reports the two paths outside the output directory as a success. *)
Theorem decode_and_save_pdf_absolute_id :
  fst (@validate_url urllib_model absolute_id_url Demo.st0) = Ok true /\
  fst (extract_book_id Demo.good absolute_id_url Demo.st0) = Ok "/tmp/x" /\
  fst (decode_and_save_pdf Demo.extractor Demo.good
         (Base64.b64encode [Byte.x41; Byte.x42; Byte.x43]) "/tmp/x" Demo.st0)
  = Ok (Some "/tmp/x.pdf") /\
  files (snd (decode_and_save_pdf Demo.extractor Demo.good
                (Base64.b64encode [Byte.x41; Byte.x42; Byte.x43]) "/tmp/x"
                Demo.st0))
    !! "/tmp/x.pdf"
  = Some (Binary [Byte.x41; Byte.x42; Byte.x43]) /\
  files (snd (decode_and_save_pdf Demo.extractor Demo.good
                (Base64.b64encode [Byte.x41; Byte.x42; Byte.x43]) "/tmp/x"
                Demo.st0))
    !! (Pathlib.str (output_dir Demo.extractor) +:+ "/pdfs/" +:+ "/tmp/x"
        +:+ ".pdf")
  = None /\
  files (snd (decode_and_save_pdf Demo.extractor Demo.good
                (Base64.b64encode [Byte.x41; Byte.x42; Byte.x43]) "/tmp/x"
                Demo.st0))
    !! "output/pdfs/tmp/x.pdf"
  = None /\
  (success <$> returned (@extract_book urllib_model Demo.extractor Demo.good
                         absolute_id_url Demo.st0)) = Some true /\
  (pdf_path <$> returned (@extract_book urllib_model Demo.extractor Demo.good
                          absolute_id_url Demo.st0))
  = Some (Some "/tmp/x.pdf") /\
  (metadata_path <$> returned (@extract_book urllib_model Demo.extractor
                               Demo.good absolute_id_url Demo.st0))
  = Some (Some "/tmp/x_metadata.json").
Proof. repeat split; vm_compute; reflexivity. Qed.

(** ** The frame scan *)

Lemma insufficient_qualifying text :
  insufficient (Some text) = negb (qualifying text).
Proof.
  unfold insufficient, qualifying, falsy.
  destruct (String.eqb text ""); [reflexivity|]. cbn [orb negb andb].
  destruct (Nat.ltb_spec (length (PyStr.strip (PyStr.chars text))) 100),
           (Nat.leb_spec 100 (length (PyStr.strip (PyStr.chars text))));
    try reflexivity; lia.
Qed.

(** Reading the requests of a trace that grew at its end. *)
Ltac read_trace :=
  unfold screenshots, attempted, warnings;
  repeat rewrite flat_map_app; cbn [flat_map app];
  repeat rewrite app_nil_r.

Section FrameScan.

Context (self : AlkafeelExtractor) (sc : Scenario) (book_id : string).

(** One turn of the loop, as the verdict on its frame says. *)
Lemma process_iframe_verdict i f st :
  let r := try_except
             (process_iframe self sc book_id i f)
             (fun e =>
                exec log ERROR
                  ("Error processing iframe " +:+ str_nat (i + 1) +:+ ": " +:+ e);
                ret None) st in
  attempted (trace (snd r)) = attempted (trace st) ++ [i] /\
  match verdict_of f with
  | Skipped =>
      fst r = Ok None /\
      screenshots (trace (snd r)) = screenshots (trace st) /\
      files (snd r) = files st
  | Interrupted msg =>
      fst r = Raise (BaseException msg) /\
      screenshots (trace (snd r)) = screenshots (trace st) /\
      files (snd r) = files st
  | Accepted src text =>
      screenshots (trace (snd r))
      = screenshots (trace st) ++ [screenshot_path self book_id i] /\
      fst r = match screenshot sc (screenshot_path self book_id i) with
              | Raise (BaseException msg) => Raise (BaseException msg)
              | _ => Ok (Some {| iframe_index := i + 1;
                                 iframe_src := src;
                                 content := text;
                                 content_length := String.length text |})
              end /\
      (forall msg,
          screenshot sc (screenshot_path self book_id i) = Raise (Exception msg) ->
          In ("Screenshot failed: " +:+ msg) (warnings (trace (snd r)))) /\
      files (snd r)
      = written (screenshot_path self book_id i) Png
          (screenshot sc (screenshot_path self book_id i))
          (opened_before sc (screenshot_path self book_id i)) (files st)
  end.
Proof.
  unfold process_iframe, verdict_of, after. cbv zeta.
  destruct (get_attribute_src f) as [src|[m|m]]; step_m;
    [|read_trace; auto..].
  destruct (content_frame f) as [[doc|]|[m|m]]; step_m;
    [|read_trace; auto..].
  destruct (frame_sleep f) as [[]|[m|m]]; step_m;
    [|read_trace; auto..].
  destruct (text_content doc) as [[text|]|[m|m]]; step_m;
    [|change (insufficient None) with true; step_m; read_trace; auto
     |read_trace; auto..].
  rewrite insufficient_qualifying.
  destruct (qualifying text); cbn [negb]; step_m; [|read_trace; auto].
  destruct (screenshot sc (screenshot_path self book_id i)) as [[]|[m|m]];
    step_m; read_trace; repeat split; auto; try discriminate.
  intros msg [= ->]. apply in_or_app. right. left. reflexivity.
Qed.

Lemma scan_iframes_cons i f rest st :
  scan_iframes self sc book_id i (f :: rest) st
  = match try_except
            (process_iframe self sc book_id i f)
            (fun e =>
               exec log ERROR
                 ("Error processing iframe " +:+ str_nat (i + 1) +:+ ": " +:+ e);
               ret None) st with
    | (Ok (Some data), st1) => (Ok (Some data), st1)
    | (Ok None, st1) => scan_iframes self sc book_id (S i) rest st1
    | (Raise e, st1) => (Raise e, st1)
    end.
Proof.
  cbn [scan_iframes]. unfold bind at 1.
  destruct (try_except _ _ st) as [[[d|]|e] st1]; reflexivity.
Qed.

(** The loop from the frame of index [i] on. *)
Lemma scan_iframes_run frames : forall i st,
  files (snd (scan_iframes self sc book_id i frames st))
  = scan_store self sc book_id i frames (files st) /\
  scan_report self sc book_id i frames st
    (scan_iframes self sc book_id i frames st).
Proof.
  unfold scan_report.
  induction frames as [|f rest IH]; intros i st.
  - cbn [scan_iframes scan_store]. step_m. split; [reflexivity|].
    right. right. read_trace. auto.
  - pose proof (process_iframe_verdict i f st) as H. cbv zeta in H.
    rewrite scan_iframes_cons. revert H. cbn [scan_store].
    destruct (try_except _ _ st) as [o st1]. cbn [fst snd].
    intros (Ha & Hv).
    destruct (verdict_of f) as [src text| |msg] eqn:V.
    + destruct Hv as (Hs & -> & Hw & Hf).
      destruct (screenshot sc (screenshot_path self book_id i))
        as [[]|[m|m]] eqn:E;
        (split; [exact Hf|]); left; exists [], f, rest, src, text;
        cbn [length app]; rewrite Nat.add_0_r, E; repeat split; auto.
    + destruct Hv as (-> & Hs & Hf).
      destruct (IH (S i) st1) as (Hf' & Hc).
      split; [congruence|].
      destruct Hc as [(before & g & rest' & src & text & -> & Hb & Hg & A & S' & R & W)
                     |[(before & g & rest' & msg & -> & Hb & Hg & S' & R)
                      |(Hb & A & S' & R)]].
      * left. exists (f :: before), g, rest', src, text. cbn [length app].
        rewrite Nat.add_succ_r. rewrite Nat.add_succ_l in S', R, W.
        repeat split; auto.
        -- rewrite A, Ha, <- app_assoc. reflexivity.
        -- rewrite S', Hs. reflexivity.
      * right. left. exists (f :: before), g, rest', msg.
        repeat split; auto. congruence.
      * right. right. repeat split; auto.
        -- rewrite A, Ha, <- app_assoc. reflexivity.
        -- congruence.
    + destruct Hv as (-> & Hs & Hf). split; [exact Hf|].
      right. left. exists [], f, rest, msg. repeat split; auto.
Qed.

(** The files after the scan of a page. *)
Lemma extract_iframe_content_files st :
  files (snd (extract_iframe_content self sc book_id st))
  = match query_selector_all sc with
    | Ok frames => scan_store self sc book_id 0 frames (files st)
    | Raise _ => files st
    end.
Proof.
  unfold extract_iframe_content.
  destruct (query_selector_all sc) as [[|f fr]|[m|m]]; step_m;
    try reflexivity.
  match goal with
  | |- context [scan_iframes _ _ _ 0 _ ?s] =>
      destruct (scan_iframes_run (f :: fr) 0 s) as [Hf _];
      destruct (scan_iframes self sc book_id 0 (f :: fr) s) as [[o|[m|m]] st3]
  end; exact Hf.
Qed.

Lemma extract_iframe_content_run st :
  match query_selector_all sc with
  | Ok frames =>
      scan_report self sc book_id 0 frames st
        (extract_iframe_content self sc book_id st)
  | Raise (Exception _) =>
      fst (extract_iframe_content self sc book_id st) = Ok None /\
      screenshots (trace (snd (extract_iframe_content self sc book_id st)))
      = screenshots (trace st)
  | Raise (BaseException msg) =>
      fst (extract_iframe_content self sc book_id st)
      = Raise (BaseException msg) /\
      screenshots (trace (snd (extract_iframe_content self sc book_id st)))
      = screenshots (trace st)
  end.
Proof.
  unfold extract_iframe_content, scan_report.
  destruct (query_selector_all sc) as [[|f fr]|[m|m]]; step_m;
    [| |read_trace; auto..].
  - right. right. read_trace.
    repeat split; auto.
  - match goal with
    | |- context [scan_iframes _ _ _ 0 _ ?s] =>
        destruct (scan_iframes_run (f :: fr) 0 s) as [_ H];
        destruct (scan_iframes self sc book_id 0 (f :: fr) s) as [o st3]
    end.
    unfold scan_report in *. cbn [fst snd trace files] in *.
    revert H. read_trace. intros H.
    destruct H as [(before & g & rest & src & text & E & Hb & Hg & A & S' & R & W)
                  |[(before & g & rest & msg & E & Hb & Hg & S' & R)
                   |(Hb & A & S' & R)]]; subst o.
    + destruct (screenshot sc _) as [[]|[m|m]] eqn:Q; cbn [fst snd];
        left; exists before, g, rest, src, text;
        rewrite Q; repeat split; auto.
    + cbn [fst snd]. right. left.
      exists before, g, rest, msg. auto.
    + cbn [fst snd]. right. right. auto.
Qed.

End FrameScan.

Lemma first_decided_unique (before before' : list Iframe) f f' rest rest' :
  before ++ f :: rest = before' ++ f' :: rest' ->
  Forall (fun g => verdict_of g = Skipped) before ->
  Forall (fun g => verdict_of g = Skipped) before' ->
  verdict_of f <> Skipped -> verdict_of f' <> Skipped ->
  before = before' /\ f = f' /\ rest = rest'.
Proof.
  revert before'. induction before as [|a b IH]; intros [|a' b'] E Hb Hb' Hf Hf';
    cbn [app] in E; injection E as E1 E2.
  - auto.
  - subst. inversion Hb'. contradiction.
  - subst. inversion Hb. contradiction.
  - subst a'. inversion Hb. inversion Hb'. subst.
    destruct (IH b' E2) as (-> & -> & ->); auto.
Qed.

Lemma scan_report_outcome self sc book_id frames st r :
  scan_report self sc book_id 0 frames st r ->
  scan_outcome self sc book_id frames (fst r).
Proof.
  intros [(before & g & rest & src & text & E & Hb & Hg & A & S' & R & W)
         |[(before & g & rest & msg & E & Hb & Hg & S' & R)
          |(Hb & A & S' & R)]].
  - left. exists before, g, rest, src, text. cbn [Nat.add] in R.
    repeat split; auto.
    destruct (screenshot sc _) as [[]|[m|m]]; exact R.
  - right. left. exists before, g, rest, msg. auto.
  - right. right. auto.
Qed.

(** C6, as amended: the scan goes through the frames of the page in
    document order and returns the first frame whose calls all answer and
    whose body text is not empty and keeps at least 100 characters once
    stripped of surrounding white space, with its 1-based index, its source,
    its text and the length of the text; frames that fail to answer or fall
    below the threshold are skipped; the result is [None] when no frame
    qualifies or when the frames cannot be listed. *)
Theorem extract_iframe_content_first_qualifying self sc book_id st :
  match query_selector_all sc with
  | Ok frames =>
      scan_outcome self sc book_id frames
        (fst (extract_iframe_content self sc book_id st))
  | Raise (Exception _) =>
      fst (extract_iframe_content self sc book_id st) = Ok None
  | Raise (BaseException msg) =>
      fst (extract_iframe_content self sc book_id st)
      = Raise (BaseException msg)
  end.
Proof.
  pose proof (extract_iframe_content_run self sc book_id st) as H.
  destruct (query_selector_all sc) as [frames|[m|m]].
  - eapply scan_report_outcome, H.
  - apply H.
  - apply H.
Qed.

(** C6 as stated fails: a frame whose body text has 110 characters, 100 of
    them leading blanks, is not accepted; the threshold applies to the
    stripped text. *)
Lemma extract_iframe_content_padded_text :
  Nat.leb 100 (String.length Demo.padded) = true /\
  fst (extract_iframe_content Demo.extractor
         (Demo.page_with [Demo.frame_of Demo.padded]) "test-id" Demo.st0)
  = Ok None.
Proof. split; vm_compute; reflexivity. Qed.

(** C7, as amended: a screenshot is requested for the accepted frame only,
    once, under the name of the book and the 1-based index of the frame; a
    scan that returns no frame requests none; and when the screenshot of
    the accepted frame fails, the failure is logged as a warning and the
    frame is returned all the same. *)
Theorem screenshot_for_accepted_frame_only self sc book_id st :
  (forall d,
      fst (extract_iframe_content self sc book_id st) = Ok (Some d) ->
      screenshots (trace (snd (extract_iframe_content self sc book_id st)))
      = screenshots (trace st)
        ++ [screenshot_path self book_id (iframe_index d - 1)]) /\
  (fst (extract_iframe_content self sc book_id st) = Ok None ->
   screenshots (trace (snd (extract_iframe_content self sc book_id st)))
   = screenshots (trace st)) /\
  (forall frames before f rest src text msg,
      query_selector_all sc = Ok frames ->
      frames = before ++ f :: rest ->
      Forall (fun g => verdict_of g = Skipped) before ->
      verdict_of f = Accepted src text ->
      screenshot sc (screenshot_path self book_id (length before))
      = Raise (Exception msg) ->
      fst (extract_iframe_content self sc book_id st)
      = Ok (Some {| iframe_index := length before + 1;
                    iframe_src := src;
                    content := text;
                    content_length := String.length text |}) /\
      In ("Screenshot failed: " +:+ msg)
         (warnings (trace (snd (extract_iframe_content self sc book_id st))))).
Proof.
  pose proof (extract_iframe_content_run self sc book_id st) as H.
  destruct (extract_iframe_content self sc book_id st) as [o st'].
  cbn [fst snd] in *. unfold scan_report in H. cbn [fst snd Nat.add] in H.
  split; [|split].
  - intros d ->.
    destruct (query_selector_all sc) as [frames|[m|m]];
      [|destruct H; discriminate..].
    destruct H as [(before & g & rest & src & text & E & Hb & Hg & A & S' & R & W)
                  |[(before & g & rest & msg & E & Hb & Hg & S' & R)
                   |(Hb & A & S' & R)]]; try discriminate.
    rewrite S'.
    destruct (screenshot sc _) as [[]|[m|m]]; try discriminate;
      injection R as ->; cbn [iframe_index];
      rewrite Nat.add_sub; reflexivity.
  - intros ->.
    destruct (query_selector_all sc) as [frames|[m|m]];
      [|destruct H as [_ H]; exact H..].
    destruct H as [(before & g & rest & src & text & E & Hb & Hg & A & S' & R & W)
                  |[(before & g & rest & msg & E & Hb & Hg & S' & R)
                   |(Hb & A & S' & R)]]; try discriminate; [|exact S'].
    destruct (screenshot sc _) as [[]|[m|m]]; discriminate.
  - intros frames before f rest src text msg Q -> Hb0 Hf0 Hs0.
    rewrite Q in H.
    destruct H as [(before' & g & rest' & src' & text' & E & Hb & Hg & A & S' & R & W)
                  |[(before' & g & rest' & msg' & E & Hb & Hg & S' & R)
                   |(Hb & A & S' & R)]].
    + destruct (first_decided_unique _ _ _ _ _ _ E Hb0 Hb) as (<- & <- & <-);
        [congruence..|].
      split; [|apply W, Hs0].
      rewrite Hs0 in R. rewrite R. congruence.
    + destruct (first_decided_unique _ _ _ _ _ _ E Hb0 Hb) as (<- & <- & <-);
        congruence.
    + apply Forall_app in Hb as [_ Hb]. inversion Hb. congruence.
Qed.

Lemma screenshot_for_accepted_frame_only_witness :
  fst (extract_iframe_content Demo.extractor Demo.no_screenshot "test-id"
         Demo.st0)
  = Ok (Some {| iframe_index := 1;
                iframe_src := Some "viewer.html";
                content := Demo.book_text;
                content_length := String.length Demo.book_text |}) /\
  In ("Screenshot failed: " +:+ "disk full")
     (warnings (trace (snd (extract_iframe_content Demo.extractor
                              Demo.no_screenshot "test-id" Demo.st0)))).
Proof.
  apply (proj2 (proj2 (screenshot_for_accepted_frame_only Demo.extractor
                         Demo.no_screenshot "test-id" Demo.st0))
           [Demo.frame_of Demo.book_text] [] (Demo.frame_of Demo.book_text) []
           (Some "viewer.html") Demo.book_text "disk full");
    try reflexivity.
  constructor.
Defined.

(** C7 as stated fails: of two frames attempted, the first of which is
    skipped, only the second gets a screenshot. *)
Lemma screenshot_not_for_skipped_frame :
  attempted (trace (snd (extract_iframe_content Demo.extractor Demo.two_frames
                           "test-id" Demo.st0)))
  = [0; 1] /\
  screenshots (trace (snd (extract_iframe_content Demo.extractor
                             Demo.two_frames "test-id" Demo.st0)))
  = ["output/screenshots/test-id_iframe_2.png"].
Proof. split; vm_compute; reflexivity. Qed.

(** ** Relations kept by a run *)

Section Preserves.

Variable I : State -> State -> Prop.
Variable allowed : event -> Prop.
Variable writing : Prop.
Hypothesis I_refl : forall st, I st st.
Hypothesis I_trans : forall a b c, I a b -> I b c -> I a c.
Hypothesis I_emit :
  forall st e, allowed e ->
               I st {| trace := trace st ++ [e]; files := files st |}.
Hypothesis I_write :
  forall st p f, writing ->
                 I st {| trace := trace st; files := <[p := f]> (files st) |}.

Lemma preserves_ret {A} (a : A) : preserves I (ret a).
Proof. intros st. apply I_refl. Qed.

Lemma preserves_raise {A} e : preserves I (@raise A e).
Proof. intros st. apply I_refl. Qed.

Lemma preserves_lift {A} (o : outcome A) : preserves I (lift o).
Proof. destruct o; [apply preserves_ret | apply preserves_raise]. Qed.

Lemma preserves_emit e : allowed e -> preserves I (emit e).
Proof. intros H st. apply I_emit, H. Qed.

Lemma preserves_bind {A B} (m : M A) (f : A -> M B) :
  preserves I m -> (forall a, preserves I (f a)) -> preserves I (bind m f).
Proof.
  intros Hm Hf st. unfold bind. specialize (Hm st).
  destruct (m st) as [[a|e] st1]; cbn [snd] in *; [|exact Hm].
  eapply I_trans; [exact Hm | apply Hf].
Qed.

Lemma preserves_try_except {A} (m : M A) h :
  preserves I m -> (forall e, preserves I (h e)) ->
  preserves I (try_except m h).
Proof.
  intros Hm Hh st. unfold try_except. specialize (Hm st).
  destruct (m st) as [[a|[e|e]] st1]; cbn [snd] in *; try exact Hm.
  eapply I_trans; [exact Hm | apply Hh].
Qed.

Lemma preserves_perform {A} c (o : outcome A) :
  allowed (Browser c) -> preserves I (perform c o).
Proof.
  intros H. unfold perform. apply preserves_bind.
  - apply preserves_emit, H.
  - intros _. apply preserves_lift.
Qed.

Lemma preserves_write_file p f o opened :
  writing -> preserves I (write_file p f o opened).
Proof.
  intros H st. unfold write_file, written. cbn [snd].
  destruct o as [[]|e]; [apply I_write, H|].
  destruct opened; [apply I_write, H|]. destruct st. apply I_refl.
Qed.

End Preserves.

(** Building a proof that a computation keeps a relation, component by
    component, from the four facts on the relation; [side] settles that an
    event is allowed. *)
Ltac preserve refl trans emits writes side :=
  cbv zeta;
  repeat first
    [ assumption
    | solve [auto with runs nocore]
    | apply (preserves_ret _ refl)
    | apply (preserves_raise _ refl)
    | apply (preserves_lift _ refl)
    | apply (preserves_emit _ _ emits); side
    | apply (preserves_perform _ _ refl trans emits); side
    | apply (preserves_write_file _ _ refl writes); side
    | apply (preserves_bind _ trans); [|intros ?]
    | apply (preserves_try_except _ trans); [|intros ?]
    | match goal with
      | |- preserves _ (match ?x with _ => _ end) => destruct x
      end ].

Lemma browser_calls_app a b :
  browser_calls (a ++ b) = browser_calls a ++ browser_calls b.
Proof. apply flat_map_app. Qed.

Lemma closes_app a b : closes (a ++ b) = closes a + closes b.
Proof.
  unfold closes. rewrite browser_calls_app, List.filter_app, length_app.
  reflexivity.
Qed.

Lemma unclosed_refl st : unclosed st st.
Proof. reflexivity. Qed.

Lemma unclosed_trans a b c : unclosed a b -> unclosed b c -> unclosed a c.
Proof. unfold unclosed. congruence. Qed.

Lemma unclosed_emit st e :
  e <> Browser Close ->
  unclosed st {| trace := trace st ++ [e]; files := files st |}.
Proof.
  intros H. unfold unclosed. cbn [trace]. rewrite closes_app.
  destruct e as [l m|m|[]]; try reflexivity; try apply Nat.add_0_r.
  congruence.
Qed.

Lemma unclosed_write st p f :
  True -> unclosed st {| trace := trace st; files := <[p := f]> (files st) |}.
Proof. reflexivity. Qed.

Lemma offline_refl st : offline st st.
Proof. split; reflexivity. Qed.

Lemma offline_trans a b c : offline a b -> offline b c -> offline a c.
Proof. unfold offline. intros [] []. split; congruence. Qed.

Lemma offline_emit st e :
  (forall c, e <> Browser c) ->
  offline st {| trace := trace st ++ [e]; files := files st |}.
Proof.
  intros H. split; [|reflexivity]. cbn [trace]. rewrite browser_calls_app.
  destruct e as [l m|m|c]; try apply app_nil_r. destruct (H c eq_refl).
Qed.

Lemma offline_write st p f :
  False -> offline st {| trace := trace st; files := <[p := f]> (files st) |}.
Proof. intros []. Qed.

(** ** The steps of the orchestrator *)

Create HintDb runs.

Ltac not_close :=
  unfold log, print, save_screenshot;
  preserve unclosed_refl unclosed_trans unclosed_emit unclosed_write
           ltac:(try discriminate; try exact Logic.I).

Ltac no_call :=
  unfold log, print, save_screenshot;
  preserve offline_refl offline_trans offline_emit offline_write
           ltac:(try (intros ?; discriminate)).

Section Steps.

Context {U : Urllib}.
Variables (self : AlkafeelExtractor) (sc : Scenario).


Lemma validate_url_offline url : preserves offline (validate_url url).
Proof.
  unfold validate_url. no_call.
Qed.

Lemma extract_book_id_offline url : preserves offline (extract_book_id sc url).
Proof.
  unfold extract_book_id. no_call.
Qed.

Lemma setup_page_unclosed : preserves unclosed (setup_page sc).
Proof. unfold setup_page. not_close. Qed.

Lemma navigate_to_book_unclosed url :
  preserves unclosed (navigate_to_book sc url).
Proof. unfold navigate_to_book. not_close. Qed.

Lemma process_iframe_unclosed book_id i f :
  preserves unclosed (process_iframe self sc book_id i f).
Proof. unfold process_iframe. not_close. Qed.

Lemma scan_iframes_unclosed book_id frames : forall i,
  preserves unclosed (scan_iframes self sc book_id i frames).
Proof.
  induction frames as [|f rest IH]; intros i; cbn [scan_iframes].
  - not_close.
  - pose proof (process_iframe_unclosed book_id i f).
    pose proof (IH (S i)). not_close.
Qed.

Lemma extract_iframe_content_unclosed book_id :
  preserves unclosed (extract_iframe_content self sc book_id).
Proof.
  unfold extract_iframe_content.
  pose proof (scan_iframes_unclosed book_id) as Hs. not_close; apply Hs.
Qed.

Lemma try_patterns_unclosed ps content :
  preserves unclosed (try_patterns ps content).
Proof.
  induction ps as [|p ps IH]; cbn [try_patterns]; not_close.
Qed.

Lemma extract_pdf_data_unclosed content :
  preserves unclosed (extract_pdf_data content).
Proof.
  unfold extract_pdf_data.
  pose proof (try_patterns_unclosed alternative_patterns content).
  not_close.
Qed.

Lemma decode_and_save_pdf_unclosed payload book_id :
  preserves unclosed (decode_and_save_pdf self sc payload book_id).
Proof. unfold decode_and_save_pdf. not_close. Qed.

Lemma save_metadata_unclosed book_id url data :
  preserves unclosed (save_metadata self sc book_id url data).
Proof. unfold save_metadata. not_close. Qed.

End Steps.

#[local] Hint Resolve setup_page_unclosed navigate_to_book_unclosed
  extract_iframe_content_unclosed extract_pdf_data_unclosed
  decode_and_save_pdf_unclosed save_metadata_unclosed : runs.

(** ** Values returned by a run *)

Section ReturnsOnly.

Context {A : Type} (P : A -> Prop).

Lemma returns_only_ret a : P a -> returns_only P (ret a).
Proof. intros H st b st' [= <- _]. exact H. Qed.

Lemma returns_only_raise e : returns_only P (raise e).
Proof. intros st b st' [=]. Qed.

Lemma returns_only_bind {B} (m : M B) f :
  (forall b, returns_only P (f b)) -> returns_only P (bind m f).
Proof.
  intros Hf st a st'. unfold bind.
  destruct (m st) as [[b|e] st1]; [apply Hf | intros [=]].
Qed.

Lemma returns_only_try_except m h :
  returns_only P m -> (forall e, returns_only P (h e)) ->
  returns_only P (try_except m h).
Proof.
  intros Hm Hh st a st'. unfold try_except.
  destruct (m st) as [[b|[e|e]] st1] eqn:E.
  - intros [= <- _]. eapply Hm, E.
  - apply Hh.
  - intros [=].
Qed.

Lemma returns_only_try_finally m fin :
  returns_only P m -> returns_only P (try_finally m fin).
Proof.
  intros Hm st a st'. unfold try_finally.
  destruct (m st) as [r st1] eqn:E. destruct (fin st1) as [[[]|e] st2].
  - intros [= -> _]. eapply Hm, E.
  - intros [=].
Qed.

Lemma returns_only_try_acquire {R} (acquire : M R) rest h release :
  (forall r, returns_only P (rest r)) -> (forall e, returns_only P (h e)) ->
  returns_only P (try_acquire acquire rest h release).
Proof.
  intros Hr Hh st a st'. unfold try_acquire.
  destruct (acquire st) as [[r|e] st1].
  - apply returns_only_try_finally, returns_only_try_except; auto.
  - apply returns_only_try_finally, returns_only_try_except; auto.
    apply returns_only_raise.
Qed.

End ReturnsOnly.

Lemma falsy_false o : falsy o = false -> is_Some o.
Proof. destruct o; [eauto | discriminate]. Qed.

Section Orchestrator.

Context {U : Urllib}.
Variables (self : AlkafeelExtractor) (sc : Scenario).

(** Every result of [extract_book] carries the URL it was asked for, has
    one of the artifact path and the error, and has a duration unless it is
    the result of a failed validation. *)
Lemma extract_book_shape u :
  returns_only
    (fun r => url r = u /\ well_shaped r /\
              (is_Some (extraction_duration r) \/ r = invalid_url u))
    (extract_book self sc u).
Proof.
  unfold extract_book. cbv zeta.
  apply returns_only_bind. intros [|]; cbn [negb].
  2: { apply returns_only_ret. split; [reflexivity|].
       split; [|right; reflexivity].
       split; [reflexivity | eauto]. }
  apply returns_only_bind. intros book_id.
  do 3 (apply returns_only_bind; intros _).
  apply returns_only_try_acquire.
  - intros _.
    apply returns_only_bind. intros _.
    apply returns_only_bind. intros [|]; cbn [negb];
      [|apply returns_only_raise].
    apply returns_only_bind. intros [data|]; [|apply returns_only_raise].
    apply returns_only_bind. intros payload.
    destruct (falsy payload); [apply returns_only_raise|].
    apply returns_only_bind. intros pdf.
    destruct (falsy pdf) eqn:E; [apply returns_only_raise|].
    apply returns_only_bind. intros decoded.
    apply returns_only_bind. intros metadata.
    do 6 (apply returns_only_bind; intros _).
    apply returns_only_ret. split; [reflexivity|].
    split; [|left; cbn; eauto].
    split; [apply falsy_false, E | reflexivity].
  - intros msg. do 4 (apply returns_only_bind; intros _).
    apply returns_only_ret. split; [reflexivity|].
    split; [|left; cbn; eauto].
    split; [reflexivity | cbn; eauto].
Qed.

Lemma extract_book_id_run url st :
  exists id, extract_book_id sc url st = (Ok id, st).
Proof.
  unfold extract_book_id. destruct (Re.search book_id_pattern url); eauto.
Qed.

(** A URL that fails the validation ends the run there: the result is the
    validation failure and nothing has reached the browser or the files. *)
Lemma extract_book_invalid url st :
  fst (validate_url url st) = Ok false ->
  fst (extract_book self sc url st) = Ok (invalid_url url) /\
  offline st (snd (extract_book self sc url st)).
Proof.
  intros H. pose proof (validate_url_offline url st) as Ho.
  assert (extract_book self sc url st
          = (Ok (invalid_url url), snd (validate_url url st))) as ->.
  { unfold extract_book, bind at 1.
    destruct (validate_url url st) as [r st1]. cbn [fst snd] in *. subst r.
    reflexivity. }
  split; [reflexivity | exact Ho].
Qed.

(** The validation fails when the network location lacks the domain or the
    path lacks the book segment. *)
Lemma validate_url_rejects url st p :
  urlparse url = Ok p ->
  PyStr.contains "library.alkafeel.net" (netloc p) = false \/
  PyStr.contains "/dic/book/" (path p) = false ->
  fst (validate_url url st) = Ok false.
Proof.
  intros E H. unfold validate_url. step_m. rewrite E. cbn.
  destruct (PyStr.contains "library.alkafeel.net" (netloc p)); cbn;
    [|reflexivity].
  destruct H as [H|H]; [discriminate|]. rewrite H. reflexivity.
Qed.

Lemma try_acquire_released {R A} (acquire : M R) (rest : R -> M A) h
    release st r st1 :
  acquire st = (Ok r, st1) ->
  snd (try_acquire acquire rest h release st)
  = snd (release (Some r) (snd (try_except (rest r) h st1))).
Proof.
  intros E. unfold try_acquire. rewrite E. unfold try_finally.
  destruct (try_except (rest r) h st1) as [o st2]. cbn [snd].
  destruct (release (Some r) st2) as [[[]|e] st3]; reflexivity.
Qed.

Lemma setup_browser_opens st :
  playwright_start sc = Ok tt -> launch sc = Ok tt ->
  exists st', setup_browser sc st = (Ok tt, st') /\ unclosed st st'.
Proof.
  intros Hs Hl. unfold setup_browser. step_m. rewrite Hs, Hl. cbn.
  eexists. split; [reflexivity|].
  unfold unclosed. cbn [trace]. rewrite !closes_app. cbn. lia.
Qed.

Lemma offline_unclosed st st' : offline st st' -> unclosed st st'.
Proof. intros [H _]. unfold unclosed, closes. rewrite H. reflexivity. Qed.

End Orchestrator.

(** C9: in every run of [extract_book] that opens a browser session (the
    URL is valid and the browser is launched), the session is closed
    exactly once, and closing is the last thing the run does but for the
    log line that follows it: whether the pipeline succeeds, a step fails
    or raises, or the run is interrupted. *)
Theorem close_exactly_once `{Urllib} self sc url st :
  fst (validate_url url st) = Ok true ->
  playwright_start sc = Ok tt ->
  launch sc = Ok tt ->
  exists tr,
    trace (snd (extract_book self sc url st))
    = tr ++ Browser Close
         :: match close sc with
            | Ok _ => [Log INFO "Browser closed"]
            | Raise _ => []
            end /\
    closes tr = closes (trace st).
Proof.
  intros Hv Hs Hl.
  pose proof (offline_unclosed _ _ (validate_url_offline url st)) as H0.
  unfold extract_book. unfold bind at 1.
  destruct (validate_url url st) as [v st1]. cbn [fst snd] in *. subst v.
  cbn [negb]. unfold bind at 1.
  destruct (extract_book_id_run sc url st1) as [id ->].
  do 3 (unfold bind at 1, log at 1, emit at 1).
  match goal with
  | |- context [try_acquire _ _ _ _ ?s] =>
      destruct (setup_browser_opens sc s Hs Hl) as (st2 & E & H2)
  end.
  rewrite (try_acquire_released _ _ _ _ _ _ _ E).
  match goal with
  | |- context [try_except ?b ?h st2] =>
      assert (preserves unclosed (try_except b h)) as Hb by not_close;
      specialize (Hb st2);
      destruct (try_except b h st2) as [o st3]
  end.
  cbn [snd] in *. exists (trace st3). split.
  - step_m. destruct (close sc) as [[]|e]; cbn [fst snd trace files];
      rewrite <- ?app_assoc; reflexivity.
  - unfold unclosed in *. cbn [trace] in *. rewrite !closes_app in H2.
    cbn in H2. lia.
Qed.

Lemma close_exactly_once_witness :
  exists tr,
    trace (snd (@extract_book urllib_model Demo.extractor Demo.nav_timeout
                  Demo.good_url Demo.st0))
    = tr ++ Browser Close
         :: match close Demo.nav_timeout with
            | Ok _ => [Log INFO "Browser closed"]
            | Raise _ => []
            end /\
    closes tr = closes (trace Demo.st0).
Proof.
  apply (@close_exactly_once urllib_model Demo.extractor Demo.nav_timeout
           Demo.good_url Demo.st0); reflexivity.
Defined.

(** The navigation that times out ends in a failed result, after the
    session was closed. *)
Example nav_timeout_result :
  fst (@extract_book urllib_model Demo.extractor Demo.nav_timeout
         Demo.good_url Demo.st0)
  = Ok {| success := false;
          error := Some "Failed to navigate to book page";
          book_id := Some "test-id"; url := Demo.good_url;
          pdf_path := None; pdf_size_bytes := None; iframe_data := None;
          extraction_duration := Some 61%Z; metadata_path := None |} /\
  browser_calls
    (trace (snd (@extract_book urllib_model Demo.extractor Demo.nav_timeout
                   Demo.good_url Demo.st0)))
  = [PlaywrightStart; Launch; NewPage; SetViewportSize; SetExtraHttpHeaders;
     Goto Demo.good_url; Close].
Proof. split; vm_compute; reflexivity. Qed.

(** ** URL validation *)

Lemma startswith_spec p : forall l,
  PyStr.startswith p l = true <-> exists rest, l = p ++ rest.
Proof.
  induction p as [|a p IH]; intros l; simpl.
  - split; eauto.
  - destruct l as [|b l].
    + split; [discriminate | intros [? [=]]].
    + rewrite andb_true_iff, Ascii.eqb_eq, IH. split.
      * intros [-> [rest ->]]. eauto.
      * intros [rest [= -> ->]]. eauto.
Qed.

(** [needle in hay] holds exactly when [needle] is a piece of [hay]. *)
Lemma contains_chars_spec p l :
  PyStr.contains_chars p l = true <->
  exists before rest, l = before ++ p ++ rest.
Proof.
  induction l as [|c l IH]; simpl; rewrite orb_true_iff, startswith_spec.
  - split.
    + intros [[rest E]|[=]]. exists [], rest. exact E.
    + intros (before & rest & E). left.
      destruct before; [eauto | discriminate].
  - rewrite IH. split.
    + intros [[rest E]|(before & rest & ->)].
      * exists [], rest. exact E.
      * exists (c :: before), rest. reflexivity.
    + intros ([|b before] & rest & E).
      * left. eauto.
      * right. injection E as -> ->. eauto.
Qed.

(** C1 is violated by the code: the test of the domain is a substring test
    on the network location.  For a URL of the host
    [library.alkafeel.net.evil.example], which is not the library's domain,
    the validation succeeds and the run goes on to launch the browser and
    to navigate to that URL. *)
Lemma validate_url_accepts_lookalike_host :
  UrlModel.urlparse_model Demo.lookalike_url
  = Ok {| scheme := "https"; netloc := "library.alkafeel.net.evil.example";
          path := "/dic/book/"; params := ""; query := "e=test-id";
          fragment := "" |} /\
  fst (@validate_url urllib_model Demo.lookalike_url Demo.st0) = Ok true /\
  browser_calls
    (trace (snd (@extract_book urllib_model Demo.extractor Demo.good
                   Demo.lookalike_url Demo.st0)))
  = [PlaywrightStart; Launch; NewPage; SetViewportSize; SetExtraHttpHeaders;
     Goto Demo.lookalike_url; Sleep 3; QuerySelectorAll; GetAttribute 0;
     ContentFrame 0; Sleep 3; TextContent 0;
     Screenshot "output/screenshots/test-id_iframe_1.png"; Close].
Proof. repeat split; vm_compute; reflexivity. Qed.

(** What holds of the validation: a URL whose network location does not
    contain the domain, or whose path does not contain the book segment,
    fails it, with the validation failure as the result and without any
    call to the browser or change of a file. *)
Lemma validation_fails_offline `{Urllib} self sc url st p :
  urlparse url = Ok p ->
  PyStr.contains "library.alkafeel.net" (netloc p) = false \/
  PyStr.contains "/dic/book/" (path p) = false ->
  fst (validate_url url st) = Ok false /\
  fst (extract_book self sc url st) = Ok (invalid_url url) /\
  browser_calls (trace (snd (extract_book self sc url st)))
  = browser_calls (trace st) /\
  files (snd (extract_book self sc url st)) = files st.
Proof.
  intros E Hp. pose proof (validate_url_rejects url st p E Hp) as Hv.
  destruct (extract_book_invalid self sc url st Hv) as (Hr & Hc & Hf).
  auto.
Qed.

(** The URLs of the test suite. *)
Example validate_url_tests :
  map (fun u => fst (@validate_url urllib_model u Demo.st0))
      ["https://library.alkafeel.net/dic/book/?e=38c15-44c77-06464-07b96-de2b7-82795-3b";
       "https://library.alkafeel.net/dic/book/?e=test-id&other=param";
       "https://google.com";
       "https://library.alkafeel.net/other/path";
       "not-a-url";
       "https://other-site.net/dic/book/?e=test"]
  = [Ok true; Ok true; Ok false; Ok false; Ok false; Ok false].
Proof. vm_compute. reflexivity. Qed.

(** The identifiers of the test suite. *)
Example extract_book_id_tests :
  map (fun u => fst (extract_book_id Demo.good u Demo.st0))
      ["https://library.alkafeel.net/dic/book/?e=38c15-44c77-06464-07b96-de2b7-82795-3b";
       "https://library.alkafeel.net/dic/book/?e=test-id&other=param";
       "https://library.alkafeel.net/dic/book/"]
  = [Ok "38c15-44c77-06464-07b96-de2b7-82795-3b"; Ok "test-id";
     Ok "book_20251002_120000"].
Proof. vm_compute. reflexivity. Qed.

(** C2 is violated by the code: the result of a failed validation has no
    duration (and no book identifier), although the clock is read before
    the validation and the other failure path reports it. *)
Lemma extract_book_invalid_url_no_duration :
  exists r,
    fst (@extract_book urllib_model Demo.extractor Demo.good
           "https://google.com" Demo.st0) = Ok r /\
    success r = false /\
    error r = Some "Invalid URL" /\
    pdf_path r = None /\
    extraction_duration r = None.
Proof. eexists. repeat split; vm_compute; reflexivity. Qed.

(** ** The batch runner *)

(** The constructor returns the extractor of the output directory, when
    it returns. *)
Lemma new_extractor_value env output_dir :
  returns_only (fun x => x = extractor_of output_dir)
               (new_extractor env output_dir).
Proof.
  unfold new_extractor. cbv zeta.
  do 8 (apply returns_only_bind; intros ?).
  apply returns_only_bind; intros _.
  apply returns_only_ret. reflexivity.
Qed.

(** It returns where the directories can be made and the log file opened,
    and touches neither the browser nor a file of the store. *)
Lemma new_extractor_ready env output_dir st :
  ready env output_dir ->
  exists st',
    new_extractor env output_dir st = (Ok (extractor_of output_dir), st') /\
    offline st st'.
Proof.
  intros (Hm & Hf & Hc).
  repeat match goal with
         | H : Forall _ (_ :: _) |- _ =>
             apply Forall_cons_iff in H as [? H]
         end.
  assert (preserves offline (new_extractor env output_dir)) as Ho
    by (unfold new_extractor, setup_logging; no_call).
  specialize (Ho st).
  assert (exists x, fst (new_extractor env output_dir st) = Ok x) as [x Hx].
  { unfold new_extractor, setup_logging. step_m.
    repeat match goal with
           | E : mkdir env _ = Ok tt |- _ => rewrite E; clear E
           end.
    rewrite Hf. cbv beta iota.
    destruct (String.eqb_spec (Pathlib.root (Pathlib.parse output_dir)) "")
      as [E|E]; cbv beta iota; [|cbn [fst]; eauto].
    destruct (Hc E) as [cwd ->]. cbn [fst]. eauto. }
  destruct (new_extractor env output_dir st) as [o st'] eqn:E.
  cbn [fst snd] in *. subst o. exists st'.
  rewrite (new_extractor_value env output_dir st x st' E). auto.
Qed.

(** An output directory whose parent is missing: the constructor raises
    at the first directory, and the batch ends before its first line is
    printed. *)
Example batch_without_parent_directory :
  fst (@extract_multiple_books urllib_model
         {| setup := no_parent; item := fun _ => Demo.good;
            t_batch_start := 0; t_batch_end := 30 |}
         Demo.three_urls "a/b" Demo.st0)
  = Raise (Exception "No such file or directory: 'a/b'") /\
  trace (snd (@extract_multiple_books urllib_model
                {| setup := no_parent; item := fun _ => Demo.good;
                   t_batch_start := 0; t_batch_end := 30 |}
                Demo.three_urls "a/b" Demo.st0))
  = [].
Proof. split; vm_compute; reflexivity. Qed.

(** C10: on an empty list of URLs [extract_multiple_books] returns no
    summary, whatever the environment answers: once the extractor is
    created, the loop is empty, the rate divides by zero and the
    [ZeroDivisionError] leaves the function. *)
Theorem extract_multiple_books_empty `{Urllib} w output_dir st :
  (forall summary,
      fst (extract_multiple_books w [] output_dir st) <> Ok summary) /\
  (ready (setup w) output_dir ->
   fst (extract_multiple_books w [] output_dir st)
   = Raise (Exception "division by zero")).
Proof.
  assert (fst (extract_multiple_books w [] output_dir st)
          = match fst (new_extractor (setup w) output_dir st) with
            | Ok _ => Raise (Exception "division by zero")
            | Raise e => Raise e
            end) as ->.
  { unfold extract_multiple_books. unfold bind at 1.
    destruct (new_extractor (setup w) output_dir st) as [[x|e] st1];
      reflexivity. }
  split.
  - intros summary.
    destruct (fst (new_extractor (setup w) output_dir st)); discriminate.
  - intros Hr. destruct (new_extractor_ready _ _ st Hr) as (st' & -> & _).
    reflexivity.
Qed.

Section BatchRun.

Context {U : Urllib}.
Variables (extractor : AlkafeelExtractor) (w : BatchScenario) (n : nat).

(** The loop over the URLs left, from the index [i] on, when no extraction
    lets an exception out: the results [rs] of the extractions, in the
    order of the URLs, are appended to the two lists by their flag. *)
Lemma batch_loop_run urls : forall i results st,
  (forall k u st', urls !! k = Some u ->
     exists r, fst (extract_book extractor (item w (i + k)) u st') = Ok r) ->
  exists rs st',
    batch_loop extractor w n i urls results st
    = (Ok {| total_books := total_books results;
             successful_extractions :=
               successful_extractions results ++ List.filter success rs;
             failed_extractions :=
               failed_extractions results
               ++ List.filter (fun r => negb (success r)) rs;
             start_time := start_time results;
             end_time := end_time results;
             success_rate := success_rate results |}, st') /\
    Forall2 (fun u r => url r = u) urls rs /\
    (forall k u, urls !! k = Some u ->
       exists r st_k,
         rs !! k = Some r /\
         fst (extract_book extractor (item w (i + k)) u st_k) = Ok r).
Proof.
  induction urls as [|u urls IH]; intros i results st H.
  - exists [], st. cbn [batch_loop List.filter]. rewrite !app_nil_r.
    destruct results. repeat split; [constructor|]. intros k u [=].
  - cbn [batch_loop]. unfold bind at 1, print at 1, emit at 1.
    cbv beta iota. unfold bind at 1.
    match goal with
    | |- context [extract_book extractor (item w i) u ?s] =>
        destruct (H 0 u s eq_refl) as [r Hr];
        pose proof (extract_book_shape extractor (item w i) u s r) as Hu;
        revert Hr Hu; rewrite Nat.add_0_r;
        destruct (extract_book extractor (item w i) u s) as [o s1] eqn:E
    end.
    cbn [fst]. intros -> Hu. destruct (Hu s1 eq_refl) as [Hu' _]. clear Hu.
    cbv beta iota. unfold bind at 1.
    destruct (success r) eqn:Sr;
      unfold bind at 1, print at 1, emit at 1, ret at 1; cbv beta iota.
    + match goal with
      | |- context [batch_loop _ _ _ (S i) urls ?acc ?s] =>
          destruct (IH (S i) acc s) as (rs & st' & -> & Hf & Hk)
      end.
      { intros k v st' Hv. rewrite Nat.add_succ_l, <- Nat.add_succ_r.
        apply (H (S k) v st' Hv). }
      exists (r :: rs), st'. cbn [List.filter append_successful
        total_books successful_extractions failed_extractions start_time
        end_time success_rate]. rewrite Sr. cbn [negb].
      rewrite <- app_assoc. repeat split; [constructor; assumption|].
      intros [|k] v Hv.
      * injection Hv as <-. rewrite Nat.add_0_r. eexists r, _.
        split; [reflexivity|]. rewrite E. reflexivity.
      * rewrite Nat.add_succ_r, <- Nat.add_succ_l. apply (Hk k v Hv).
    + match goal with
      | |- context [batch_loop _ _ _ (S i) urls ?acc ?s] =>
          destruct (IH (S i) acc s) as (rs & st' & -> & Hf & Hk)
      end.
      { intros k v st' Hv. rewrite Nat.add_succ_l, <- Nat.add_succ_r.
        apply (H (S k) v st' Hv). }
      exists (r :: rs), st'. cbn [List.filter append_failed
        total_books successful_extractions failed_extractions start_time
        end_time success_rate]. rewrite Sr. cbn [negb].
      rewrite <- app_assoc. repeat split; [constructor; assumption|].
      intros [|k] v Hv.
      * injection Hv as <-. rewrite Nat.add_0_r. eexists r, _.
        split; [reflexivity|]. rewrite E. reflexivity.
      * rewrite Nat.add_succ_r, <- Nat.add_succ_l. apply (Hk k v Hv).
Qed.

End BatchRun.

Lemma filter_by_flags (rs : list ExtractionResult) :
  map success rs = [true; false; true] ->
  length rs = 3 /\
  length (List.filter success rs) = 2 /\
  length (List.filter (fun r => negb (success r)) rs) = 1.
Proof.
  destruct rs as [|r1 [|r2 [|r3 [|r4 rs]]]]; try discriminate.
  cbn [map List.filter]. intros [= -> -> ->]. cbn. auto.
Qed.

(** The summary of a batch in which every extraction returns a result:
    one result per URL, in the order of the URLs, split by the success flag
    into the two lists of the summary. *)
Lemma batch_summary_of_results `{Urllib} w urls output_dir st :
  urls <> [] ->
  ready (setup w) output_dir ->
  (forall i u st',
      urls !! i = Some u ->
      exists r,
        fst (extract_book (extractor_of output_dir) (item w i) u st') = Ok r) ->
  exists rs summary,
    fst (extract_multiple_books w urls output_dir st) = Ok summary /\
    Forall2 (fun u r => url r = u) urls rs /\
    (forall i u,
        urls !! i = Some u ->
        exists r st_i,
          rs !! i = Some r /\
          fst (extract_book (extractor_of output_dir) (item w i) u st_i)
          = Ok r) /\
    total_books summary = length urls /\
    successful_extractions summary = List.filter success rs /\
    failed_extractions summary = List.filter (fun r => negb (success r)) rs /\
    success_rate summary
    = Some (percentage (length (List.filter success rs)) (length urls)) /\
    (map success rs = [true; false; true] ->
     total_books summary = 3 /\
     length (successful_extractions summary) = 2 /\
     length (failed_extractions summary) = 1 /\
     exists rate,
       success_rate summary = Some rate /\ renders_66_7 rate = true).
Proof.
  intros Hne Hr Hret. unfold extract_multiple_books. unfold bind at 1.
  destruct (new_extractor_ready _ _ st Hr) as (st1 & -> & _).
  cbv [bind log emit ret print lift].
  match goal with
  | |- context [batch_loop ?e w ?n 0 urls ?acc ?s] =>
      destruct (batch_loop_run e w n urls 0 acc s Hret)
        as (rs & st' & -> & Hurl & Hrs)
  end.
  cbn [successful_extractions set_end_time app].
  unfold truediv.
  destruct (Nat.eqb (length urls) 0) eqn:E.
  { apply Nat.eqb_eq in E. destruct urls; [congruence | discriminate]. }
  exists rs. eexists. split; [reflexivity|].
  cbn [total_books successful_extractions failed_extractions success_rate
       set_success_rate set_end_time app].
  split; [exact Hurl|]. split; [exact Hrs|].
  do 4 (split; [reflexivity|]).
  intros Hflags. destruct (filter_by_flags rs Hflags) as (H3 & H2 & H1).
  apply Forall2_length in Hurl. rewrite H3 in Hurl.
  split; [exact Hurl|]. split; [exact H2|]. split; [exact H1|].
  eexists. split; [reflexivity|]. rewrite H2, Hurl. vm_compute. reflexivity.
Qed.

(** The batch of three URLs of which the second fails the validation. *)
Example batch_of_three :
  match fst (@extract_multiple_books urllib_model Demo.all_good
               Demo.three_urls "output" Demo.st0) with
  | Ok summary =>
      total_books summary = 3 /\
      map url (successful_extractions summary)
      = [Demo.good_url; Demo.good_url] /\
      map url (failed_extractions summary) = ["https://google.com"] /\
      map error (failed_extractions summary) = [Some "Invalid URL"] /\
      (renders_66_7 <$> success_rate summary) = Some true
  | Raise _ => False
  end.
Proof. vm_compute. repeat split; reflexivity. Qed.

(** ** Runs that nothing interrupts *)

Section Uninterrupted.

Lemma quiet_ok {A} (a : A) : quiet (Ok a).
Proof. intros msg. discriminate. Qed.

Lemma quiet_exception {A} msg : quiet (@Raise A (Exception msg)).
Proof. intros m. discriminate. Qed.

Lemma uninterrupted_ret {A} (a : A) : uninterrupted (ret a).
Proof. intros st. apply quiet_ok. Qed.

Lemma uninterrupted_raise {A} msg : uninterrupted (@raise A (Exception msg)).
Proof. intros st. apply quiet_exception. Qed.

Lemma uninterrupted_lift {A} (o : outcome A) : quiet o -> uninterrupted (lift o).
Proof. intros H st. destruct o as [a|e]; exact H. Qed.

Lemma uninterrupted_emit e : uninterrupted (emit e).
Proof. intros st. apply quiet_ok. Qed.

Lemma uninterrupted_bind {A B} (m : M A) (f : A -> M B) :
  uninterrupted m -> (forall a, uninterrupted (f a)) ->
  uninterrupted (bind m f).
Proof.
  intros Hm Hf st. unfold bind. specialize (Hm st).
  destruct (m st) as [[a|e] st1]; [apply Hf|].
  intros msg [= ->]. exact (Hm msg eq_refl).
Qed.

Lemma uninterrupted_try_except {A} (m : M A) h :
  uninterrupted m -> (forall e, uninterrupted (h e)) ->
  uninterrupted (try_except m h).
Proof.
  intros Hm Hh st. unfold try_except. specialize (Hm st).
  destruct (m st) as [[a|[e|e]] st1]; [exact Hm | apply Hh | exact Hm].
Qed.

Lemma uninterrupted_perform {A} c (o : outcome A) :
  quiet o -> uninterrupted (perform c o).
Proof.
  intros H. unfold perform. apply uninterrupted_bind.
  - apply uninterrupted_emit.
  - intros _. destruct o as [a|e]; [apply uninterrupted_ret|].
    intros st. exact H.
Qed.

Lemma uninterrupted_write_file p f o opened :
  quiet o -> uninterrupted (write_file p f o opened).
Proof. intros H st. exact H. Qed.

Lemma returning_uninterrupted {A} (m : M A) : returning m -> uninterrupted m.
Proof. intros H st. destruct (H st) as [a ->]. apply quiet_ok. Qed.

Lemma returning_ret {A} (a : A) : returning (ret a).
Proof. intros st. eauto. Qed.

Lemma returning_emit e : returning (emit e).
Proof. intros st. eauto. Qed.

Lemma returning_bind {A B} (m : M A) (f : A -> M B) :
  returning m -> (forall a, returning (f a)) -> returning (bind m f).
Proof.
  intros Hm Hf st. unfold bind. destruct (Hm st) as [a Ha].
  destruct (m st) as [o st1]. cbn [fst] in Ha. subst o. apply Hf.
Qed.

(** A handler that returns turns every [Exception] into a value. *)
Lemma returning_try_except {A} (m : M A) h :
  uninterrupted m -> (forall e, returning (h e)) ->
  returning (try_except m h).
Proof.
  intros Hm Hh st. unfold try_except. specialize (Hm st).
  destruct (m st) as [[a|[e|e]] st1]; [eauto | apply Hh|].
  destruct (Hm e eq_refl).
Qed.

Lemma returning_try_finally {A} (m : M A) fin :
  returning m -> returning fin -> returning (try_finally m fin).
Proof.
  intros Hm Hf st. unfold try_finally. destruct (Hm st) as [a Ha].
  destruct (m st) as [o st1]. cbn [fst] in Ha. subst o.
  destruct (Hf st1) as [u Hu]. destruct (fin st1) as [o st2].
  cbn [fst] in Hu. subst o. eauto.
Qed.

Lemma returning_try_acquire {R A} (acquire : M R) (rest : R -> M A) h release :
  uninterrupted acquire ->
  (forall r, uninterrupted (rest r)) ->
  (forall e, returning (h e)) ->
  (forall r, returning (release r)) ->
  returning (try_acquire acquire rest h release).
Proof.
  intros Ha Hr Hh Hl st. unfold try_acquire. specialize (Ha st).
  destruct (acquire st) as [[r|e] st1].
  - apply returning_try_finally; [|apply Hl].
    apply returning_try_except; auto.
  - apply returning_try_finally; [|apply Hl].
    apply returning_try_except; [|exact Hh].
    intros st2 msg [= ->]. exact (Ha msg eq_refl).
Qed.

End Uninterrupted.

Lemma uninterrupted_perform_bind {A B} c (o : outcome A) (f : A -> M B) :
  quiet o -> (forall a, o = Ok a -> uninterrupted (f a)) ->
  uninterrupted (bind (perform c o) f).
Proof.
  intros Ho Hf st. unfold bind, perform, emit, ret, raise. cbv beta iota.
  destruct o as [a|e]; cbv beta iota.
  - apply Hf. reflexivity.
  - intros msg [= ->]. exact (Ho msg eq_refl).
Qed.

Lemma returning_perform {A} c (a : A) : returning (perform c (Ok a)).
Proof. intros st. eauto. Qed.

Lemma quiet_b64decode s : quiet (Base64.b64decode s).
Proof.
  intros msg E. destruct (Base64Facts.b64decode_raises _ _ E) as [m [=]].
Qed.

(** Building the proof that nothing interrupts a computation, and that a
    computation returns. *)
Ltac calmly :=
  unfold log, print, save_screenshot; cbv zeta;
  repeat first
    [ assumption
    | solve [auto with calm nocore]
    | apply quiet_b64decode
    | match goal with
      | H : forall p, quiet _ |- quiet _ => apply H
      end
    | apply uninterrupted_ret
    | apply uninterrupted_raise
    | apply uninterrupted_emit
    | apply uninterrupted_lift
    | apply uninterrupted_perform
    | apply uninterrupted_write_file
    | apply uninterrupted_perform_bind; [|intros ? ?]
    | apply uninterrupted_bind; [|intros ?]
    | apply uninterrupted_try_except; [|intros ?]
    | match goal with
      | |- uninterrupted (match ?x with _ => _ end) => destruct x eqn:?
      end ].

Ltac returns :=
  unfold log, print; cbv zeta;
  repeat first
    [ apply returning_ret
    | apply returning_emit
    | apply returning_perform
    | apply returning_bind; [|intros ?] ].

Create HintDb calm.

Section Calm.

Context {U : Urllib}.
Variables (self : AlkafeelExtractor) (sc : Scenario).
Hypothesis urlparse_quiet : forall url, quiet (urlparse url).
Hypothesis Hcalm : calm sc.

Lemma validate_url_returning url : returning (validate_url url).
Proof.
  unfold validate_url. apply returning_try_except; [|intros e; returns].
  calmly.
Qed.

Lemma extract_book_id_returning url : returning (extract_book_id sc url).
Proof.
  intros st. destruct (extract_book_id_run sc url st) as [id ->]. eauto.
Qed.

Lemma setup_browser_uninterrupted : uninterrupted (setup_browser sc).
Proof. destruct Hcalm. unfold setup_browser. calmly. Qed.

Lemma setup_page_uninterrupted : uninterrupted (setup_page sc).
Proof. destruct Hcalm. unfold setup_page. calmly. Qed.

Lemma navigate_to_book_uninterrupted url :
  uninterrupted (navigate_to_book sc url).
Proof. destruct Hcalm. unfold navigate_to_book. calmly. Qed.

Lemma process_iframe_uninterrupted book_id i f :
  calm_frame f -> uninterrupted (process_iframe self sc book_id i f).
Proof.
  intros (H1 & H2 & H3 & H4). destruct Hcalm.
  unfold process_iframe. calmly.
Qed.

Lemma scan_iframes_uninterrupted book_id frames : forall i,
  Forall calm_frame frames ->
  uninterrupted (scan_iframes self sc book_id i frames).
Proof.
  induction frames as [|f rest IH]; intros i Hf; cbn [scan_iframes].
  - calmly.
  - inversion Hf as [|? ? Hh Ht]; subst.
    pose proof (process_iframe_uninterrupted book_id i f Hh).
    pose proof (IH (S i) Ht). calmly.
Qed.

#[local] Hint Resolve scan_iframes_uninterrupted : calm.

Lemma extract_iframe_content_uninterrupted book_id :
  uninterrupted (extract_iframe_content self sc book_id).
Proof.
  pose proof (calm_each_frame sc Hcalm) as Hf. destruct Hcalm.
  unfold extract_iframe_content. calmly.
Qed.

Lemma try_patterns_uninterrupted ps content :
  uninterrupted (try_patterns ps content).
Proof. induction ps as [|p ps IH]; cbn [try_patterns]; calmly. Qed.

Lemma extract_pdf_data_uninterrupted content :
  uninterrupted (extract_pdf_data content).
Proof.
  unfold extract_pdf_data.
  pose proof (try_patterns_uninterrupted alternative_patterns content).
  calmly.
Qed.

Lemma decode_and_save_pdf_uninterrupted payload book_id :
  uninterrupted (decode_and_save_pdf self sc payload book_id).
Proof. destruct Hcalm. unfold decode_and_save_pdf. calmly. Qed.

Lemma save_metadata_uninterrupted book_id url data :
  uninterrupted (save_metadata self sc book_id url data).
Proof. destruct Hcalm. unfold save_metadata. calmly. Qed.

End Calm.

#[local] Hint Resolve setup_browser_uninterrupted setup_page_uninterrupted
  navigate_to_book_uninterrupted extract_iframe_content_uninterrupted
  extract_pdf_data_uninterrupted decode_and_save_pdf_uninterrupted
  save_metadata_uninterrupted : calm.

(** In a calm run every failure of a step becomes a result: [extract_book]
    returns. *)
Lemma extract_book_returns `{Urllib} self sc url :
  (forall u, quiet (urlparse u)) -> calm sc ->
  returning (extract_book self sc url).
Proof.
  intros Hu Hc. unfold extract_book. cbv zeta.
  apply returning_bind; [apply validate_url_returning, Hu|].
  intros [|]; cbn [negb]; [|apply returning_ret].
  apply returning_bind; [apply extract_book_id_returning|]. intros book_id.
  do 3 (apply returning_bind; [apply returning_emit|]; intros _).
  apply returning_try_acquire.
  - auto with calm.
  - intros _. calmly.
  - intros e. returns.
  - intros [[]|]; [|apply returning_ret].
    rewrite (calm_close sc Hc). returns.
Qed.

(** The model of [urlparse] raises nothing but a [ValueError]. *)
Lemma urlparse_model_quiet u : quiet (UrlModel.urlparse_model u).
Proof.
  intros msg. unfold UrlModel.urlparse_model, UrlModel.urlparse_chars.
  cbv zeta.
  repeat match goal with
         | |- context [let '(_, _) := ?x in _] => destruct x
         end.
  destruct (xorb _ _); discriminate.
Qed.

Lemma calm_page_with text : calm (Demo.page_with [Demo.frame_of text]).
Proof.
  split; try (intros; apply quiet_ok); try reflexivity.
  intros frames [= <-]. repeat constructor; try apply quiet_ok.
  intros doc [= <-]. apply quiet_ok.
Qed.

(** The summary of a batch whose extractor can be created, that nothing
    interrupts and whose sessions all close: the extractions are made in
    the order of the list, one result per URL and each for its own URL; a
    failed result does not stop the loop; the successful and the failed
    list are the results with and without the success flag, in that order;
    the rate is the number of successes divided by the number of URLs,
    times 100.  With three URLs of which the second alone fails, the
    summary has total 3, two successes and one failure, and a rate that is
    rendered as 66.7. *)
Lemma extract_multiple_books_summary `{Urllib} w urls output_dir st :
  urls <> [] ->
  ready (setup w) output_dir ->
  (forall u, quiet (urlparse u)) ->
  (forall i, i < length urls -> calm (item w i)) ->
  exists rs summary,
    fst (extract_multiple_books w urls output_dir st) = Ok summary /\
    Forall2 (fun u r => url r = u) urls rs /\
    (forall i u,
        urls !! i = Some u ->
        exists r st_i,
          rs !! i = Some r /\
          fst (extract_book (extractor_of output_dir) (item w i) u st_i)
          = Ok r) /\
    total_books summary = length urls /\
    successful_extractions summary = List.filter success rs /\
    failed_extractions summary = List.filter (fun r => negb (success r)) rs /\
    success_rate summary
    = Some (percentage (length (List.filter success rs)) (length urls)) /\
    (map success rs = [true; false; true] ->
     total_books summary = 3 /\
     length (successful_extractions summary) = 2 /\
     length (failed_extractions summary) = 1 /\
     exists rate,
       success_rate summary = Some rate /\ renders_66_7 rate = true).
Proof.
  intros Hne Hr Hu Hc. apply batch_summary_of_results; [exact Hne|exact Hr|].
  intros i u st' Hi. apply extract_book_returns; [exact Hu|].
  apply Hc. eapply lookup_lt_Some, Hi.
Qed.

Lemma ready_writable output_dir : ready Demo.writable output_dir.
Proof.
  split; [|split]; [repeat constructor | reflexivity | eauto].
Qed.

Lemma extract_multiple_books_summary_witness :
  exists rs summary,
    fst (@extract_multiple_books urllib_model Demo.all_good Demo.three_urls
           "output" Demo.st0) = Ok summary /\
    Forall2 (fun u r => url r = u) Demo.three_urls rs /\
    (forall i u,
        Demo.three_urls !! i = Some u ->
        exists r st_i,
          rs !! i = Some r /\
          fst (@extract_book urllib_model (extractor_of "output")
                 (item Demo.all_good i) u st_i)
          = Ok r) /\
    total_books summary = length Demo.three_urls /\
    successful_extractions summary = List.filter success rs /\
    failed_extractions summary = List.filter (fun r => negb (success r)) rs /\
    success_rate summary
    = Some (percentage (length (List.filter success rs))
                       (length Demo.three_urls)) /\
    (map success rs = [true; false; true] ->
     total_books summary = 3 /\
     length (successful_extractions summary) = 2 /\
     length (failed_extractions summary) = 1 /\
     exists rate,
       success_rate summary = Some rate /\ renders_66_7 rate = true).
Proof.
  apply (@extract_multiple_books_summary urllib_model Demo.all_good
           Demo.three_urls "output" Demo.st0).
  - discriminate.
  - apply ready_writable.
  - exact urlparse_model_quiet.
  - intros i _. exact (calm_page_with Demo.book_text).
Defined.

(** A batch whose second extraction meets a navigation that times out:
    the loop goes on to the third URL. *)
Example batch_with_timeout :
  match fst (@extract_multiple_books urllib_model
               {| setup := Demo.writable;
                  item := fun i => match i with
                                   | 1 => Demo.nav_timeout
                                   | _ => Demo.good
                                   end;
                  t_batch_start := 0; t_batch_end := 90 |}
               [Demo.good_url; Demo.good_url; Demo.good_url] "output"
               Demo.st0) with
  | Ok summary =>
      map success (successful_extractions summary) = [true; true] /\
      map error (failed_extractions summary)
      = [Some "Failed to navigate to book page"]
  | Raise _ => False
  end.
Proof. vm_compute. split; reflexivity. Qed.

(** C8 is violated by the code: a failure on one URL can halt the batch.
    [extract_book] turns the failure of every step into a failed result,
    which the loop files and goes on from, but the closing of the browser
    session stands in the [finally] clause, outside that handler, and the
    loop calls [extract_book] unguarded.  With three books of which the
    second one meets a session that cannot be closed, the exception of
    [close] leaves [extract_multiple_books]: no summary is returned,
    although the first two books are extracted and saved, and the third URL
    is never processed. *)
Theorem extract_multiple_books_halts_when_close_fails :
  fst (@extract_multiple_books urllib_model close_fails three_books "output"
         Demo.st0)
  = Raise (Exception "Connection closed") /\
  files (snd (@extract_multiple_books urllib_model close_fails three_books
                "output" Demo.st0)) !! "output/pdfs/book-1.pdf"
  = Some (Binary [Byte.x41; Byte.x42; Byte.x43]) /\
  files (snd (@extract_multiple_books urllib_model close_fails three_books
                "output" Demo.st0)) !! "output/pdfs/book-2.pdf"
  = Some (Binary [Byte.x41; Byte.x42; Byte.x43]) /\
  files (snd (@extract_multiple_books urllib_model close_fails three_books
                "output" Demo.st0)) !! "output/pdfs/book-3.pdf"
  = None /\
  printed (trace (snd (@extract_multiple_books urllib_model close_fails
                         three_books "output" Demo.st0)))
  = ["Starting batch extraction of 3 books...";
     "Processing book 1/3: https://library.alkafeel.net/dic/book/?e=book-1";
     "Book 1 extracted successfully";
     "Processing book 2/3: https://library.alkafeel.net/dic/book/?e=book-2"] /\
  browser_calls
    (trace (snd (@extract_multiple_books urllib_model close_fails three_books
                   "output" Demo.st0)))
  = [PlaywrightStart; Launch; NewPage; SetViewportSize; SetExtraHttpHeaders;
     Goto "https://library.alkafeel.net/dic/book/?e=book-1"; Sleep 3;
     QuerySelectorAll; GetAttribute 0; ContentFrame 0; Sleep 3; TextContent 0;
     Screenshot "output/screenshots/book-1_iframe_1.png"; Close;
     PlaywrightStart; Launch; NewPage; SetViewportSize; SetExtraHttpHeaders;
     Goto "https://library.alkafeel.net/dic/book/?e=book-2"; Sleep 3;
     QuerySelectorAll; GetAttribute 0; ContentFrame 0; Sleep 3; TextContent 0;
     Screenshot "output/screenshots/book-2_iframe_1.png"; Close].
Proof. repeat split; vm_compute; reflexivity. Qed.

(** The same batch with a second book whose navigation fails instead: the
    failure is caught, and the loop goes on to the third book. *)
Example batch_goes_on_after_failed_step :
  match fst (@extract_multiple_books urllib_model
               {| setup := Demo.writable;
                  item := fun i => match i with
                                   | 1 => Demo.nav_timeout
                                   | _ => Demo.good
                                   end;
                  t_batch_start := 0; t_batch_end := 90 |}
               three_books "output" Demo.st0) with
  | Ok summary =>
      total_books summary = 3 /\
      map book_id (successful_extractions summary)
      = [Some "book-1"; Some "book-3"] /\
      map book_id (failed_extractions summary) = [Some "book-2"]
  | Raise _ => False
  end.
Proof. vm_compute. repeat split; reflexivity. Qed.

(** * Further properties of the pipeline *)

(** ** URL validation and the book identifier *)

Lemma chars_of_chars w : PyStr.chars (PyStr.of_chars w) = w.
Proof. apply list_ascii_of_string_of_list_ascii. Qed.

Lemma of_chars_chars s : PyStr.of_chars (PyStr.chars s) = s.
Proof. apply string_of_list_ascii_of_string. Qed.

Lemma contains_spec needle hay :
  PyStr.contains needle hay = true <->
  exists before rest,
    PyStr.chars hay = before ++ PyStr.chars needle ++ rest.
Proof. apply contains_chars_spec. Qed.

(** X1: [validate_url] answers [True] exactly when the URL parses and the
    text [library.alkafeel.net] occurs somewhere in its network location
    and the text [/dic/book/] somewhere in its path.  An accepted URL leaves
    no trace; a rejected one is reported by one error record; and no
    [Exception] leaves the function, whatever [urlparse] raises. *)
Theorem validate_url_accepts_iff `{Urllib} url st :
  (fst (validate_url url st) = Ok true <->
   exists p before1 rest1 before2 rest2,
     urlparse url = Ok p /\
     PyStr.chars (netloc p)
     = before1 ++ PyStr.chars "library.alkafeel.net" ++ rest1 /\
     PyStr.chars (path p) = before2 ++ PyStr.chars "/dic/book/" ++ rest2) /\
  (fst (validate_url url st) = Ok true -> snd (validate_url url st) = st) /\
  (fst (validate_url url st) = Ok false ->
   exists msg,
     snd (validate_url url st)
     = {| trace := trace st ++ [Log ERROR msg]; files := files st |}) /\
  (forall msg, fst (validate_url url st) <> Raise (Exception msg)).
Proof.
  unfold validate_url. step_m.
  destruct (urlparse url) as [p|[m|m]] eqn:E; cbn.
  - destruct (PyStr.contains "library.alkafeel.net" (netloc p)) eqn:E1;
      cbn [negb].
    + destruct (PyStr.contains "/dic/book/" (path p)) eqn:E2; cbn [negb fst snd].
      * apply contains_spec in E1 as (b1 & r1 & E1).
        apply contains_spec in E2 as (b2 & r2 & E2).
        split; [split; [|reflexivity]|].
        { intros _. exists p, b1, r1, b2, r2. auto. }
        split; [destruct st; reflexivity|].
        split; [discriminate | intros msg; discriminate].
      * split; [split; [discriminate|]|].
        { intros (q & b1 & r1 & b2 & r2 & [= <-] & _ & H2).
          assert (PyStr.contains "/dic/book/" (path p) = true) as C
            by (apply contains_spec; exists b2, r2; exact H2).
          congruence. }
        split; [discriminate|]. split; [eauto | intros msg; discriminate].
    + cbn [fst snd]. split; [split; [discriminate|]|].
      { intros (q & b1 & r1 & b2 & r2 & [= <-] & H1 & _).
        assert (PyStr.contains "library.alkafeel.net" (netloc p) = true) as C
          by (apply contains_spec; exists b1, r1; exact H1).
        congruence. }
      split; [discriminate|]. split; [eauto | intros msg; discriminate].
  - split; [split; [discriminate|]|].
    { intros (q & b1 & r1 & b2 & r2 & [=] & _). }
    split; [discriminate|]. split; [eauto | intros msg; discriminate].
  - split; [split; [discriminate|]|].
    { intros (q & b1 & r1 & b2 & r2 & [=] & _). }
    split; [discriminate|]. split; [discriminate | intros msg; discriminate].
Qed.

(** The first place of a text at which a pattern matches. *)
Lemma search_chars_first p s g :
  Re.search_chars p s = Some g ->
  exists before rest,
    s = before ++ rest /\ Re.match_at p rest = Some g /\
    forall before' rest',
      s = before' ++ rest' -> length before' < length before ->
      Re.match_at p rest' = None.
Proof.
  induction s as [|c s IH]; cbn [Re.search_chars].
  - destruct (Re.match_at p []) as [g'|] eqn:Hm; [|discriminate].
    intros [= ->]. exists [], []. repeat split; auto.
    intros b r _ Hl. cbn in Hl. lia.
  - destruct (Re.match_at p (c :: s)) as [g'|] eqn:Hm.
    + intros [= ->]. exists [], (c :: s). repeat split; auto.
      intros b r _ Hl. cbn in Hl. lia.
    + intros Hs. destruct (IH Hs) as (before & rest & -> & Hr & Hmin).
      exists (c :: before), rest. repeat split; auto.
      intros [|c' b] r E Hl.
      * cbn in E. subst r. exact Hm.
      * injection E as <- E. apply (Hmin b r E). cbn in Hl. lia.
Qed.

Lemma greedy_total {R} f (k : list ascii -> option R) s :
  (forall s', is_Some (k s')) -> is_Some (Re.greedy f k s).
Proof.
  intros Hk. induction s as [|c s IH]; cbn [Re.greedy]; [apply Hk|].
  destruct (f c); [|apply Hk].
  destruct (Re.greedy f k s); [eauto | apply Hk].
Qed.

(** A greedy repetition before a rest that always matches takes every
    character of the class there is. *)
Lemma greedy_maximal {R} f (k : list ascii -> option R) s r :
  (forall s', is_Some (k s')) ->
  Re.greedy f k s = Some r ->
  exists w s',
    s = w ++ s' /\ Forall (fun c => f c = true) w /\ k s' = Some r /\
    (s' = [] \/ exists c s'', s' = c :: s'' /\ f c = false).
Proof.
  intros Hk. induction s as [|c s IH]; cbn [Re.greedy]; intros H.
  - exists [], []. auto.
  - destruct (f c) eqn:Hc.
    + destruct (greedy_total f k s Hk) as [r' Hg]. rewrite Hg in H.
      injection H as ->.
      destruct (IH Hg) as (w & s' & -> & Hw & Hr & Hs).
      exists (c :: w), s'. auto.
    + exists [], (c :: s). repeat split; auto. right. eauto.
Qed.

(** What a match of the pattern of the identifier at the head of a text
    looks like. *)
Lemma match_at_book_id s g :
  Re.match_at book_id_pattern s = Some g ->
  exists c rest,
    s = c :: PyStr.chars "e=" ++ g ++ rest /\
    (c = "?"%char \/ c = "&"%char) /\
    g <> [] /\
    Forall (fun a => a <> "&"%char) g /\
    (rest = [] \/ exists rest', rest = "&"%char :: rest').
Proof.
  unfold Re.match_at, book_id_pattern.
  cbn [Re.pre Re.grp Re.post Re.run].
  destruct s as [|c s]; [discriminate|].
  destruct (Ascii.eqb c "?" || Ascii.eqb c "&") eqn:Hc; [|discriminate].
  destruct s as [|e s]; [discriminate|].
  destruct (Ascii.eqb_spec "e" e) as [<-|]; [|discriminate].
  destruct s as [|q s]; [discriminate|].
  destruct (Ascii.eqb_spec "=" q) as [<-|]; [|discriminate].
  destruct s as [|a s]; [discriminate|].
  destruct (negb (Ascii.eqb a "&")) eqn:Ha; [|discriminate].
  intros H. apply greedy_maximal in H; [|eauto].
  destruct H as (w & s' & -> & Hw & [= <-] & Hs).
  exists c, s'.
  replace (S (length (w ++ s')) - length s') with (length (a :: w))
    by (cbn [length]; rewrite length_app; lia).
  change (a :: w ++ s') with ((a :: w) ++ s'). rewrite take_app_length.
  assert (forall x, negb (Ascii.eqb x "&") = true -> x <> "&"%char) as Hne.
  { intros x Hx ->. discriminate. }
  repeat split.
  - apply orb_true_iff in Hc as [Hc|Hc]; apply Ascii.eqb_eq in Hc; auto.
  - discriminate.
  - constructor; [auto|]. eapply Forall_impl; [exact Hw|]. exact Hne.
  - destruct Hs as [->|(x & s'' & -> & Hx)]; [auto|]. right.
    apply negb_false_iff, Ascii.eqb_eq in Hx as ->. eauto.
Qed.

Lemma e_parameter_occurs url before id :
  e_parameter_at url before id ->
  exists rest g,
    PyStr.chars url = before ++ rest /\
    Re.occurs book_id_pattern [] g rest.
Proof.
  intros (c & rest & E & Hc & Hid & Hall & _).
  exists (c :: PyStr.chars "e=" ++ PyStr.chars id ++ rest), (PyStr.chars id).
  split; [exact E|].
  exists [c; "e"; "="]%char, [], rest. split; [reflexivity|].
  split; [|split].
  - change [c; "e"; "="]%char with ([c] ++ ["e"]%char ++ ["="]%char ++ []).
    repeat constructor.
    destruct Hc as [->| ->]; reflexivity.
  - destruct (PyStr.chars id) as [|a w] eqn:Ew.
    { destruct Hid. rewrite <- (of_chars_chars id), Ew. reflexivity. }
    rewrite <- (app_nil_r (a :: w)). constructor; [|constructor].
    inversion Hall as [|? ? Ha Hw]; subst.
    constructor.
    + apply negb_true_iff, Ascii.eqb_neq, Ha.
    + eapply Forall_impl; [exact Hw|].
      intros x Hx. apply negb_true_iff, Ascii.eqb_neq, Hx.
  - constructor.
Qed.

(** X2: [extract_book_id] returns in every case, without a log record or
    any other effect.  The identifier is the value of the first parameter
    [e] of the URL: the text after the first [?e=] or [&e=] that a
    character other than an ampersand follows, up to the next ampersand or
    the end of the URL, whatever else it holds (a slash, a fragment).  A URL
    without such a parameter gets the text [book_] followed by the time
    stamp. *)
Theorem extract_book_id_value sc url st :
  extract_book_id sc url st = (Ok (book_id_of sc url), st) /\
  ((exists before,
       e_parameter_at url before (book_id_of sc url) /\
       forall before' id',
         e_parameter_at url before' id' -> length before <= length before')
   \/
   (book_id_of sc url = "book_" +:+ stamp sc /\
    forall before id', ~ e_parameter_at url before id')).
Proof.
  unfold extract_book_id, book_id_of.
  destruct (Re.search book_id_pattern url) as [id|] eqn:E.
  - split; [reflexivity|]. left.
    unfold Re.search in E.
    destruct (Re.search_chars book_id_pattern (PyStr.chars url)) as [g|] eqn:Es;
      [|discriminate].
    injection E as <-.
    destruct (search_chars_first _ _ _ Es) as (before & rest & Eu & Hm & Hmin).
    destruct (match_at_book_id _ _ Hm) as (c & rest' & -> & Hc & Hg & Hall & Hr).
    exists before. split.
    + exists c, rest'. rewrite chars_of_chars.
      repeat split; auto.
      intros Hid. apply Hg. rewrite <- (chars_of_chars g), Hid. reflexivity.
    + intros before' id' Hp.
      destruct (e_parameter_occurs _ _ _ Hp) as (r & g' & Er & Ho).
      destruct (Nat.le_gt_cases (length before) (length before'))
        as [Hle|Hlt]; [exact Hle|].
      apply ReFacts.match_at_complete in Ho as [x Hx].
      rewrite (Hmin before' r) in Hx; [discriminate | congruence | exact Hlt].
  - split; [reflexivity|]. right.
    split; [reflexivity|].
    intros before id' Hp. apply ReFacts.search_none in E. apply E.
    destruct (e_parameter_occurs _ _ _ Hp) as (r & g' & Er & Ho).
    exists before, g'. rewrite Er.
    destruct Ho as (w1 & w2 & a & -> & H). exists w1, w2, a. auto.
Qed.

(** ** The payload *)

Lemma seq_word_plus f w :
  Re.seq_word [Re.Plus f] w -> w <> [] /\ Forall (fun c => f c = true) w.
Proof.
  intros H. inversion H as [|i its w1 w2 Hi Hw]; subst.
  inversion Hw; subst. rewrite app_nil_r.
  inversion Hi; subst. split; [discriminate | constructor; assumption].
Qed.

Lemma seq_word_cls f w :
  Re.seq_word [Re.Cls f] w -> exists c, w = [c] /\ f c = true.
Proof.
  intros H. inversion H as [|i its w1 w2 Hi Hw]; subst.
  inversion Hw; subst. inversion Hi; subst. eauto.
Qed.

Lemma seq_word_chr c its w :
  Re.seq_word (Re.Chr c :: its) w -> exists w', w = c :: w' /\ Re.seq_word its w'.
Proof.
  intros H. inversion H as [|i its' w1 w2 Hi Hw]; subst.
  inversion Hi; subst. eauto.
Qed.

(** The group of each of the four patterns is one or more characters other
    than quotes, and a quote character ends the match. *)
Lemma payload_pattern_shape p g w2 :
  In p (pdf_pattern :: alternative_patterns) ->
  Re.seq_word (Re.grp p) g -> Re.seq_word (Re.post p) w2 ->
  g <> [] /\ Forall (fun c => quote c = false) g /\
  exists q, w2 = [q] /\ quote q = true.
Proof.
  assert (forall w, Forall (fun c => not_quote c = true) w ->
                    Forall (fun c => quote c = false) w) as Hq.
  { intros w Hw. eapply Forall_impl; [exact Hw|].
    intros c. apply negb_true_iff. }
  intros Hp Hg H2.
  assert (Re.post p = [Re.Cls quote] /\
          (Re.grp p = [Re.Plus not_quote] \/
           Re.grp p = Re.lit "JVBERi" ++ [Re.Plus not_quote])) as [E2 Eg].
  { cbn in Hp. destruct Hp as [<-|[<-|[<-|[<-|[]]]]]; cbn; auto. }
  rewrite E2 in H2. split; [|split; [|apply seq_word_cls, H2]].
  - destruct Eg as [Eg|Eg]; rewrite Eg in Hg.
    + apply seq_word_plus in Hg. tauto.
    + cbn in Hg. apply seq_word_chr in Hg as (w & -> & _). discriminate.
  - destruct Eg as [Eg|Eg]; rewrite Eg in Hg.
    + apply seq_word_plus in Hg as [_ Hg]. auto.
    + cbn in Hg.
      repeat (apply seq_word_chr in Hg as (? & -> & Hg);
              constructor; [reflexivity|]).
      apply seq_word_plus in Hg as [_ Hg]. auto.
Qed.

Lemma omap_search_cons (f : Re.pattern -> option string) p ps :
  omap f (p :: ps)
  = match f p with Some g => g :: omap f ps | None => omap f ps end.
Proof. reflexivity. Qed.

Lemma try_patterns_run ps content st :
  fst (try_patterns ps content st)
  = Ok (head (omap (fun p => Re.search p content) ps)).
Proof.
  induction ps as [|p ps IH]; cbn [try_patterns]; [reflexivity|].
  rewrite omap_search_cons.
  destruct (Re.search p content); [reflexivity | exact IH].
Qed.

Lemma extract_pdf_data_run content st :
  fst (extract_pdf_data content st) = Ok (find_payload content) /\
  offline st (snd (extract_pdf_data content st)).
Proof.
  split.
  - unfold extract_pdf_data, find_payload. rewrite omap_search_cons.
    destruct (Re.search pdf_pattern content); [reflexivity|].
    pose proof (try_patterns_run alternative_patterns content
                  {| trace := trace st
                              ++ [Log INFO "Searching for PDF data in content..."];
                     files := files st |}) as H.
    step_m.
    destruct (try_patterns alternative_patterns content _) as [o st'].
    cbn [fst] in H. subst o. reflexivity.
  - revert st. change (preserves offline (extract_pdf_data content)).
    unfold extract_pdf_data, alternative_patterns. cbn [try_patterns]. no_call.
Qed.

Lemma find_payload_pattern content payload :
  find_payload content = Some payload ->
  exists p, In p (pdf_pattern :: alternative_patterns) /\
            Re.search p content = Some payload.
Proof.
  unfold find_payload. generalize (pdf_pattern :: alternative_patterns).
  induction l as [|p ps IH]; [discriminate|]. rewrite omap_search_cons.
  destruct (Re.search p content) as [g|] eqn:E.
  - intros [= ->]. exists p. split; [left; reflexivity | exact E].
  - intros H. destruct (IH H) as (q & Hq & Eq). exists q. split; [right|]; auto.
Qed.

(** X3: [extract_pdf_data] returns on every text, touches neither the
    browser nor a file, and a payload it returns is never empty, holds no
    quote character of either kind, and stands in the text right before a
    quote character (which need not be of the kind that opens it). *)
Theorem extract_pdf_data_payload content st :
  fst (extract_pdf_data content st) = Ok (find_payload content) /\
  offline st (snd (extract_pdf_data content st)) /\
  forall payload,
    find_payload content = Some payload ->
    payload <> "" /\
    Forall (fun c => quote c = false) (PyStr.chars payload) /\
    exists before q rest,
      PyStr.chars content = before ++ PyStr.chars payload ++ q :: rest /\
      quote q = true.
Proof.
  destruct (extract_pdf_data_run content st) as [Hr Ho].
  split; [exact Hr|]. split; [exact Ho|].
  intros payload Hp.
  destruct (find_payload_pattern _ _ Hp) as (p & Hin & Hs).
  apply ReFacts.search_some in Hs as (w & -> & before & Hocc & _).
  destruct Hocc as (w1 & w2 & rest & E & _ & Hg & H2).
  destruct (payload_pattern_shape p w w2 Hin Hg H2)
    as (Hne & Hall & q & -> & Hq).
  rewrite chars_of_chars. split; [|split; [exact Hall|]].
  - intros Hw. apply Hne. rewrite <- (chars_of_chars w), Hw. reflexivity.
  - exists (before ++ w1), q, rest. rewrite E, <- !app_assoc. auto.
Qed.

(** ** Decoding and saving *)

Lemma length_append s t :
  String.length (s +:+ t) = String.length s + String.length t.
Proof. induction s as [|c s IH]; cbn; [reflexivity | rewrite <- IH; reflexivity]. Qed.

Lemma concat_nonempty x ps :
  In x ps -> x <> "" -> String.concat "/" ps <> "".
Proof.
  intros Hin Hx.
  assert (String.length x <= String.length (String.concat "/" ps)) as Hl.
  { induction ps as [|p ps IH]; [destruct Hin|].
    cbn [String.concat]. destruct ps as [|q ps].
    - destruct Hin as [->|[]]. lia.
    - rewrite !length_append. destruct Hin as [->|Hin]; [lia|].
      specialize (IH Hin). lia. }
  intros E. rewrite E in Hl. destruct x; [congruence | cbn in Hl; lia].
Qed.

Lemma parse_pdfs :
  Pathlib.parse "pdfs" = {| Pathlib.root := ""; Pathlib.parts := ["pdfs"] |}.
Proof. reflexivity. Qed.

(** The text of a path that has a component is not empty. *)
Lemma str_nonempty p x :
  In x (Pathlib.parts p) -> x <> "" -> Pathlib.str p <> "".
Proof.
  intros Hin Hx. unfold Pathlib.str.
  pose proof (concat_nonempty x _ Hin Hx) as Hc.
  destruct (Pathlib.root p) as [|c r]; [|discriminate].
  destruct (Pathlib.parts p); [destruct Hin | exact Hc].
Qed.

Lemma parse_root_cases l :
  Pathlib.parse_root l = "" \/ Pathlib.parse_root l = "/"
  \/ Pathlib.parse_root l = "//".
Proof.
  unfold Pathlib.parse_root.
  destruct l as [|c1 [|c2 [|c3 l]]];
    repeat match goal with
           | |- context [Ascii.eqb ?a ?b] => destruct (Ascii.eqb a b)
           end; auto.
Qed.

(** [str(path)] of the file a book is saved to is never the empty text. *)
Lemma pdf_file_nonempty self book_id :
  Pathlib.str (pdf_file self book_id) <> "".
Proof.
  unfold pdf_file, Pathlib.joinpath. rewrite parse_pdfs.
  cbn [Pathlib.root Pathlib.parts String.eqb].
  destruct (String.eqb_spec (Pathlib.root (Pathlib.parse (book_id +:+ ".pdf"))) "")
    as [E|E].
  - apply (str_nonempty _ "pdfs"); [|discriminate].
    cbn [Pathlib.parts]. apply in_or_app. left. apply in_or_app. right.
    left. reflexivity.
  - unfold Pathlib.str. cbn [Pathlib.parse Pathlib.root] in *.
    destruct (parse_root_cases (PyStr.chars (book_id +:+ ".pdf")))
      as [H|[H|H]]; rewrite H in *; [congruence | discriminate..].
Qed.

(** What one call of [decode_and_save_pdf] comes to, by the answers of the
    decoder and of the file system. *)
Lemma decode_and_save_pdf_run self sc payload book_id st :
  let path := Pathlib.str (pdf_file self book_id) in
  let r := decode_and_save_pdf self sc payload book_id st in
  browser_calls (trace (snd r)) = browser_calls (trace st) /\
  files (snd r)
  = match Base64.b64decode payload with
    | Ok data =>
        written path (Binary data) (write_pdf sc path) (opened_before sc path)
                (files st)
    | Raise _ => files st
    end /\
  fst r = match Base64.b64decode payload, write_pdf sc path with
          | Ok data, Ok _ => Ok (Some path)
          | Ok _, Raise (BaseException msg) => Raise (BaseException msg)
          | _, _ => Ok None
          end.
Proof.
  cbv zeta. unfold decode_and_save_pdf.
  pose proof (Base64Facts.b64decode_raises payload) as Hd.
  destruct (Base64.b64decode payload) as [data|e].
  - destruct (write_pdf sc (Pathlib.str (pdf_file self book_id)))
      as [[]|[m|m]]; step_m; unfold browser_calls;
      rewrite ?flat_map_app, ?app_nil_r; cbn [flat_map app];
      rewrite ?app_nil_r; auto.
  - destruct (Hd e eq_refl) as [m ->]. step_m. unfold browser_calls.
    rewrite ?flat_map_app, ?app_nil_r; cbn [flat_map app];
      rewrite ?app_nil_r.
    auto.
Qed.

(** A write touches the file it is for, and no other. *)
Lemma written_other path f answer opened fs q :
  q <> path -> written path f answer opened fs !! q = fs !! q.
Proof.
  intros H. unfold written.
  destruct answer as [[]|e]; [|destruct opened];
    rewrite ?lookup_insert_ne by congruence; reflexivity.
Qed.

(** X4: [decode_and_save_pdf] returns a path exactly when the payload
    decodes and the statement that opens and writes the file ends without
    an exception; the path is then that of the file of the book, is not
    the empty text, and the file holds the decoded bytes.  In every other
    case the files are as they were, with one exception: a write that
    fails after the file was opened leaves that file incomplete.  No other
    file is touched in any case, no [Exception] leaves the function, and
    no call reaches the browser. *)
Theorem decode_and_save_pdf_outcome self sc payload book_id st :
  let path := Pathlib.str (pdf_file self book_id) in
  let r := decode_and_save_pdf self sc payload book_id st in
  (forall p,
      fst r = Ok (Some p) <->
      p = path /\
      (exists data, Base64.b64decode payload = Ok data) /\
      write_pdf sc path = Ok tt) /\
  (forall p,
      fst r = Ok (Some p) ->
      p <> "" /\
      exists data,
        Base64.b64decode payload = Ok data /\
        files (snd r) = <[p := Binary data]> (files st)) /\
  ((forall p, fst r <> Ok (Some p)) ->
   files (snd r) = files st \/
   exists data e,
     Base64.b64decode payload = Ok data /\
     write_pdf sc path = Raise e /\
     opened_before sc path = true /\
     files (snd r) = <[path := Partial]> (files st)) /\
  (forall q, q <> path -> files (snd r) !! q = files st !! q) /\
  (forall msg, fst r <> Raise (Exception msg)) /\
  browser_calls (trace (snd r)) = browser_calls (trace st).
Proof.
  pose proof (decode_and_save_pdf_run self sc payload book_id st) as H.
  pose proof (pdf_file_nonempty self book_id) as Hne.
  cbv zeta in *. destruct H as (Hb & Hf & Hr).
  set (path := Pathlib.str (pdf_file self book_id)) in *.
  destruct (decode_and_save_pdf self sc payload book_id st) as [o st'].
  cbn [fst snd] in *. subst o.
  split; [|split; [|split; [|split; [|split; [|exact Hb]]]]].
  - intros p. destruct (Base64.b64decode payload) as [data|e].
    + destruct (write_pdf sc path) as [[]|[m|m]] eqn:Eo.
      * split; [intros [= <-]; eauto | intros (-> & _); reflexivity].
      * split; [discriminate | intros (_ & _ & [=])].
      * split; [discriminate | intros (_ & _ & [=])].
    + split; [discriminate | intros (_ & [d [=]] & _)].
  - intros p. destruct (Base64.b64decode payload) as [data|e];
      [|discriminate].
    destruct (write_pdf sc path) as [[]|[m|m]]; intros [= <-].
    split; [exact Hne|]. exists data. split; [reflexivity | exact Hf].
  - intros Hn. destruct (Base64.b64decode payload) as [data|e];
      [|left; exact Hf].
    unfold written in Hf.
    destruct (write_pdf sc path) as [[]|e] eqn:Eo;
      [destruct (Hn path eq_refl)|].
    destruct (opened_before sc path) eqn:Ec; [|left; exact Hf].
    right. exists data, e. auto.
  - intros q Hq. rewrite Hf.
    destruct (Base64.b64decode payload) as [data|e]; [|reflexivity].
    apply written_other, Hq.
  - intros msg. destruct (Base64.b64decode payload) as [data|e];
      [destruct (write_pdf sc path) as [[]|[m|m]]|]; discriminate.
Qed.

(** On a full disk the PDF file is left incomplete, and [extract_book]
    reports the failure of that step. *)
Example decode_and_save_pdf_disk_full :
  fst (decode_and_save_pdf Demo.extractor disk_full "QUJD" "book" Demo.st0)
  = Ok None /\
  files (snd (decode_and_save_pdf Demo.extractor disk_full "QUJD" "book"
                Demo.st0)) !! "output/pdfs/book.pdf"
  = Some Partial /\
  (error <$> returned (@extract_book urllib_model Demo.extractor disk_full
                         Demo.good_url Demo.st0))
  = Some (Some "Failed to decode/save PDF") /\
  map_to_list (files (snd (@extract_book urllib_model Demo.extractor disk_full
                             Demo.good_url Demo.st0)))
  = [("output/screenshots/test-id_iframe_1.png", Png);
     ("output/pdfs/test-id.pdf", Partial)].
Proof. repeat split; vm_compute; reflexivity. Qed.

(** The decoder reads a text as it reads the text left when every
    character outside the alphabet and its padding is taken out. *)
Lemma a2b_loop_in_alphabet s : forall q lc p bin,
  Base64.a2b_loop s q lc p bin
  = Base64.a2b_loop (List.filter Base64.in_alphabet s) q lc p bin.
Proof.
  induction s as [|c s IH]; intros q lc p bin; [reflexivity|].
  cbn [List.filter]. unfold Base64.in_alphabet at 1.
  destruct (Base64.a2b c) as [v|] eqn:Ev.
  - cbn [Base64.a2b_loop]. rewrite Ev.
    destruct (Ascii.eqb c Base64.pad).
    + destruct (Nat.leb 2 q); [destruct (Nat.leb 4 (q + S p))|];
        [reflexivity | apply IH..].
    + destruct q as [|[|[|q]]]; apply IH.
  - destruct (Ascii.eqb c Base64.pad) eqn:Ep.
    + cbn [Base64.a2b_loop]. rewrite Ep.
      destruct (Nat.leb 2 q); [destruct (Nat.leb 4 (q + S p))|];
        [reflexivity | apply IH..].
    + cbn [Base64.a2b_loop]. rewrite Ep, Ev. apply IH.
Qed.

Lemma forallb_filter_ascii s :
  forallb Base64.is_ascii s = true ->
  forallb Base64.is_ascii (List.filter Base64.in_alphabet s) = true.
Proof.
  induction s as [|c s IH]; cbn [forallb List.filter]; [reflexivity|].
  intros [Hc Hs]%andb_prop.
  destruct (Base64.in_alphabet c); cbn [forallb]; rewrite ?Hc; auto.
Qed.

(** X5: in a payload of ASCII characters, the characters outside the base64
    alphabet and its padding (blanks, line breaks, punctuation) make no
    difference: [decode_and_save_pdf] does on the payload exactly what it
    does on the payload without them. *)
Theorem decode_and_save_pdf_ignores_other_characters self sc payload book_id st :
  forallb Base64.is_ascii (PyStr.chars payload) = true ->
  decode_and_save_pdf self sc payload book_id st
  = decode_and_save_pdf self sc
      (PyStr.of_chars (List.filter Base64.in_alphabet (PyStr.chars payload)))
      book_id st.
Proof.
  intros Ha.
  assert (Base64.b64decode payload
          = Base64.b64decode
              (PyStr.of_chars
                 (List.filter Base64.in_alphabet (PyStr.chars payload)))) as E.
  { unfold Base64.b64decode. rewrite chars_of_chars, Ha.
    rewrite (forallb_filter_ascii _ Ha). apply a2b_loop_in_alphabet. }
  unfold decode_and_save_pdf. rewrite E. reflexivity.
Qed.

Lemma decode_and_save_pdf_ignores_other_characters_witness :
  decode_and_save_pdf Demo.extractor Demo.good
    ("QU JD" +:+ Demo.newline) "book" Demo.st0
  = decode_and_save_pdf Demo.extractor Demo.good
      (PyStr.of_chars
         (List.filter Base64.in_alphabet
            (PyStr.chars ("QU JD" +:+ Demo.newline))))
      "book" Demo.st0.
Proof.
  apply (decode_and_save_pdf_ignores_other_characters Demo.extractor Demo.good
           ("QU JD" +:+ Demo.newline) "book" Demo.st0).
  reflexivity.
Defined.

(** ** The paths of the artifacts *)

Lemma parse_absolute rest :
  Pathlib.root (Pathlib.parse (String "/" rest)) <> "".
Proof.
  cbn [Pathlib.parse Pathlib.root]. unfold PyStr.chars.
  cbn [list_ascii_of_string Pathlib.parse_root Ascii.eqb Bool.eqb].
  destruct (list_ascii_of_string rest) as [|c2 [|c3 l]];
    repeat match goal with
           | |- context [Ascii.eqb ?a ?b] => destruct (Ascii.eqb a b)
           end; discriminate.
Qed.

(** Joining an absolute path to any path gives the absolute path. *)
Lemma joinpath_absolute p rest :
  p // String "/" rest = Pathlib.parse (String "/" rest).
Proof.
  unfold Pathlib.joinpath. pose proof (parse_absolute rest) as H.
  destruct (String.eqb_spec (Pathlib.root (Pathlib.parse (String "/" rest))) "");
    [contradiction | reflexivity].
Qed.

(** X6: a book identifier that starts with a slash takes every artifact of
    the book out of the output directory: the paths of the PDF file, of the
    metadata file and of the screenshots are those of the absolute file
    names [{book_id}.pdf], [{book_id}_metadata.json] and
    [{book_id}_iframe_{n}.png], whatever the output directory is. *)
Theorem absolute_book_id_leaves_output_dir self rest i :
  let book_id := String "/" rest in
  Pathlib.str (pdf_file self book_id)
  = Pathlib.str (Pathlib.parse (book_id +:+ ".pdf")) /\
  metadata_file self book_id
  = Pathlib.str (Pathlib.parse (book_id +:+ "_metadata.json")) /\
  screenshot_path self book_id i
  = Pathlib.str (Pathlib.parse
                   (book_id +:+ "_iframe_" +:+ str_nat (i + 1) +:+ ".png")) /\
  Pathlib.root (Pathlib.parse (book_id +:+ ".pdf")) <> "".
Proof.
  cbv zeta. unfold pdf_file, metadata_file, screenshot_path.
  change (String "/" rest +:+ ?s) with (String "/" (rest +:+ s)).
  rewrite !joinpath_absolute.
  repeat split. apply parse_absolute.
Qed.

(** The text of a path ends with the last component of the file name it
    was joined with. *)
Lemma split_slash_last l w : forall cur,
  forallb (fun c => negb (Ascii.eqb c "/")) w = true ->
  exists pre c, Pathlib.split_slash (l ++ w) cur = pre ++ [c ++ w].
Proof.
  induction l as [|a l IH]; intros cur Hw; cbn [app Pathlib.split_slash].
  - exists [], cur. apply PathFacts.split_slash_plain, Hw.
  - destruct (Ascii.eqb a "/").
    + destruct (IH [] Hw) as (pre & c & ->). exists (cur :: pre), c.
      reflexivity.
    + apply IH, Hw.
Qed.

Lemma keep_long c w : 2 <= length w -> Pathlib.keep (c ++ w) = true.
Proof.
  intros Hw. destruct (c ++ w) as [|x [|y l]] eqn:E; [| |reflexivity];
    apply (f_equal (@length ascii)) in E; rewrite length_app in E;
    cbn in E; lia.
Qed.

Lemma concat_last ps y :
  exists x, String.concat "/" (ps ++ [y]) = x +:+ y.
Proof.
  induction ps as [|p ps [x IH]]; [exists ""; reflexivity|].
  exists (p +:+ "/" +:+ x). cbn [app String.concat].
  destruct (ps ++ [y]) as [|q qs] eqn:E; [destruct ps; discriminate|].
  rewrite IH, !PathFacts.append_assoc. reflexivity.
Qed.

Lemma str_last r ps y :
  exists x, Pathlib.str {| Pathlib.root := r; Pathlib.parts := ps ++ [y] |}
            = x +:+ y.
Proof.
  destruct (concat_last ps y) as [x E]. exists (r +:+ x).
  unfold Pathlib.str. cbn [Pathlib.root Pathlib.parts].
  destruct (ps ++ [y]) as [|q qs] eqn:E'; [destruct ps; discriminate|].
  rewrite E, PathFacts.append_assoc. destruct r; reflexivity.
Qed.

Lemma joinpath_suffix p name suffix :
  plain_name suffix = true -> 2 <= String.length suffix ->
  exists x, Pathlib.str (p // (name +:+ suffix)) = x +:+ suffix.
Proof.
  intros Hs Hl. unfold Pathlib.joinpath, Pathlib.parse.
  rewrite PathFacts.chars_app.
  destruct (split_slash_last (PyStr.chars name) (PyStr.chars suffix) [] Hs)
    as (pre & c & ->).
  assert (2 <= length (PyStr.chars suffix)) as Hl'.
  { clear -Hl. revert Hl. generalize 2.
    induction suffix as [|a s IH]; intros n; cbn; [auto|].
    destruct n as [|n]; [lia|]. intros Hn. apply le_n_S, IH. lia. }
  rewrite List.filter_app. cbn [List.filter]. rewrite (keep_long c _ Hl').
  rewrite map_app. cbn [map Pathlib.root Pathlib.parts].
  assert (PyStr.of_chars (c ++ PyStr.chars suffix)
          = PyStr.of_chars c +:+ suffix) as ->.
  { rewrite <- (of_chars_chars (PyStr.of_chars c +:+ suffix)).
    rewrite PathFacts.chars_app, chars_of_chars. reflexivity. }
  match goal with
  | |- context [if ?b then _ else _] => destruct b
  end.
  - rewrite app_assoc.
    destruct (str_last (Pathlib.root p)
                (Pathlib.parts p ++ map PyStr.of_chars (List.filter Pathlib.keep pre))
                (PyStr.of_chars c +:+ suffix)) as [x ->].
    exists (x +:+ PyStr.of_chars c). symmetry. apply PathFacts.append_assoc.
  - match goal with
    | |- context [Pathlib.str {| Pathlib.root := ?r; Pathlib.parts := ?ps ++ [?y] |}] =>
        destruct (str_last r ps y) as [x ->]
    end.
    exists (x +:+ PyStr.of_chars c). symmetry. apply PathFacts.append_assoc.
Qed.

Lemma suffixes_differ x y : x +:+ ".pdf" <> y +:+ "_metadata.json".
Proof.
  intros E. apply (f_equal PyStr.chars) in E.
  rewrite !PathFacts.chars_app in E. apply (f_equal (@rev ascii)) in E.
  rewrite !rev_app_distr in E. cbn in E. discriminate.
Qed.

(** The PDF file and the metadata file of a book are two files. *)
Lemma pdf_file_not_metadata_file self book_id :
  Pathlib.str (pdf_file self book_id) <> metadata_file self book_id.
Proof.
  unfold pdf_file, metadata_file.
  destruct (joinpath_suffix (output_dir self // "pdfs") book_id ".pdf")
    as [x ->]; [reflexivity | cbn; lia |].
  destruct (joinpath_suffix (output_dir self // "metadata") book_id
              "_metadata.json") as [y ->]; [reflexivity | cbn; lia |].
  apply suffixes_differ.
Qed.

Lemma last_char_differs x y s t a b :
  rev (PyStr.chars s) = a :: rev (removelast (PyStr.chars s)) ->
  rev (PyStr.chars t) = b :: rev (removelast (PyStr.chars t)) ->
  a <> b -> x +:+ s <> y +:+ t.
Proof.
  intros Hs Ht Hab E. apply (f_equal PyStr.chars) in E.
  rewrite !PathFacts.chars_app in E. apply (f_equal (@rev ascii)) in E.
  rewrite !rev_app_distr, Hs, Ht in E. cbn [app] in E. congruence.
Qed.

Lemma screenshot_path_suffix self book_id i :
  exists x, screenshot_path self book_id i = x +:+ ".png".
Proof.
  unfold screenshot_path.
  replace (book_id +:+ "_iframe_" +:+ str_nat (i + 1) +:+ ".png")
    with ((book_id +:+ "_iframe_" +:+ str_nat (i + 1)) +:+ ".png")
    by (rewrite !PathFacts.append_assoc; reflexivity).
  apply joinpath_suffix; [reflexivity | cbn; lia].
Qed.

(** The screenshot of a frame is neither the PDF file nor the metadata
    file of the book. *)
Lemma screenshot_path_not_pdf_file self book_id i :
  screenshot_path self book_id i <> Pathlib.str (pdf_file self book_id).
Proof.
  destruct (screenshot_path_suffix self book_id i) as [x ->].
  unfold pdf_file.
  destruct (joinpath_suffix (output_dir self // "pdfs") book_id ".pdf")
    as [y ->]; [reflexivity | cbn; lia |].
  eapply last_char_differs; [reflexivity..|discriminate].
Qed.

Lemma screenshot_path_not_metadata_file self book_id i :
  screenshot_path self book_id i <> metadata_file self book_id.
Proof.
  destruct (screenshot_path_suffix self book_id i) as [x ->].
  unfold metadata_file.
  destruct (joinpath_suffix (output_dir self // "metadata") book_id
              "_metadata.json") as [y ->]; [reflexivity | cbn; lia |].
  eapply last_char_differs; [reflexivity..|discriminate].
Qed.

(** ** Runs whose result does not depend on the state *)

Section Yields.

Lemma yields_ext {A} (m : M A) o F G :
  yields m o F -> (forall fs, F fs = G fs) -> yields m o G.
Proof. intros H E st. destruct (H st) as [-> ->]. auto. Qed.

Lemma yields_ret {A} (a : A) : yields (ret a) (Ok a) (fun fs => fs).
Proof. intros st. auto. Qed.

Lemma yields_raise {A} e : yields (@raise A e) (Raise e) (fun fs => fs).
Proof. intros st. auto. Qed.

Lemma yields_emit e : yields (emit e) (Ok tt) (fun fs => fs).
Proof. intros st. auto. Qed.

Lemma yields_lift {A} (o : outcome A) : yields (lift o) o (fun fs => fs).
Proof. intros st. destruct o; auto. Qed.

Lemma yields_perform {A} c (o : outcome A) :
  yields (perform c o) o (fun fs => fs).
Proof. intros st. destruct o; auto. Qed.

Lemma yields_write_file p f o opened :
  yields (write_file p f o opened) o (written p f o opened).
Proof. intros st. auto. Qed.

Lemma yields_save_screenshot sc p :
  yields (save_screenshot sc p) (screenshot sc p)
         (written p Png (screenshot sc p) (opened_before sc p)).
Proof. intros st. auto. Qed.

Lemma yields_bind {A B} (m : M A) (f : A -> M B) a o F G :
  yields m (Ok a) F -> yields (f a) o G ->
  yields (bind m f) o (fun fs => G (F fs)).
Proof.
  intros Hm Hf st. unfold bind. destruct (Hm st) as [E1 E2].
  destruct (m st) as [o1 st1]. cbn [fst snd] in *. subst o1.
  destruct (Hf st1) as [-> ->]. rewrite E2. auto.
Qed.

Lemma yields_bind_raise {A B} (m : M A) (f : A -> M B) e F :
  yields m (Raise e) F -> yields (bind m f) (Raise e) F.
Proof.
  intros Hm st. unfold bind. destruct (Hm st) as [E1 E2].
  destruct (m st) as [o1 st1]. cbn [fst snd] in *. subst o1. auto.
Qed.

Lemma yields_try_except {A} (m : M A) h a F :
  yields m (Ok a) F -> yields (try_except m h) (Ok a) F.
Proof.
  intros Hm st. unfold try_except. destruct (Hm st) as [E1 E2].
  destruct (m st) as [o1 st1]. cbn [fst snd] in *. subst o1. auto.
Qed.

Lemma yields_try_except_caught {A} (m : M A) h msg o F G :
  yields m (Raise (Exception msg)) F -> yields (h msg) o G ->
  yields (try_except m h) o (fun fs => G (F fs)).
Proof.
  intros Hm Hh st. unfold try_except. destruct (Hm st) as [E1 E2].
  destruct (m st) as [o1 st1]. cbn [fst snd] in *. subst o1.
  destruct (Hh st1) as [-> ->]. rewrite E2. auto.
Qed.

Lemma yields_try_except_interrupted {A} (m : M A) h msg F :
  yields m (Raise (BaseException msg)) F ->
  yields (try_except m h) (Raise (BaseException msg)) F.
Proof.
  intros Hm st. unfold try_except. destruct (Hm st) as [E1 E2].
  destruct (m st) as [o1 st1]. cbn [fst snd] in *. subst o1. auto.
Qed.

(** [try ... finally]: a clause that returns leaves the result of the
    body, a clause that raises replaces it. *)
Lemma yields_try_finally {A} (m : M A) fin o F G :
  yields m o F -> yields fin (Ok tt) G ->
  yields (try_finally m fin) o (fun fs => G (F fs)).
Proof.
  intros Hm Hf st. unfold try_finally. destruct (Hm st) as [E1 E2].
  destruct (m st) as [o1 st1]. cbn [fst snd] in *. subst o1.
  destruct (Hf st1) as [E3 E4]. destruct (fin st1) as [o2 st2].
  cbn [fst snd] in *. subst o2. cbn [fst snd]. rewrite E4, E2. auto.
Qed.

Lemma yields_try_finally_raise {A} (m : M A) fin o e F G :
  yields m o F -> yields fin (Raise e) G ->
  yields (try_finally m fin) (Raise e) (fun fs => G (F fs)).
Proof.
  intros Hm Hf st. unfold try_finally. destruct (Hm st) as [E1 E2].
  destruct (m st) as [o1 st1]. cbn [fst snd] in *. subst o1.
  destruct (Hf st1) as [E3 E4]. destruct (fin st1) as [o2 st2].
  cbn [fst snd] in *. subst o2. cbn [fst snd]. rewrite E4, E2. auto.
Qed.

Lemma yields_try_acquire {R A} (acquire : M R) (rest : R -> M A) h release
    r o oc F G K :
  yields acquire (Ok r) F ->
  yields (try_except (rest r) h) o G ->
  yields (release (Some r)) oc K ->
  yields (try_acquire acquire rest h release)
         (match oc with Ok _ => o | Raise e => Raise e end)
         (fun fs => K (G (F fs))).
Proof.
  intros Ha Hb Hr st. unfold try_acquire. destruct (Ha st) as [E1 E2].
  destruct (acquire st) as [o1 st1]. cbn [fst snd] in *. subst o1.
  rewrite <- E2. destruct oc as [[]|e].
  - apply (yields_try_finally _ _ _ _ _ Hb Hr).
  - apply (yields_try_finally_raise _ _ _ _ _ _ Hb Hr).
Qed.

Lemma yields_try_acquire_failed {R A} (acquire : M R) (rest : R -> M A) h
    release e o oc F G K :
  yields acquire (Raise e) F ->
  yields (try_except (raise e) h) o G ->
  yields (release None) oc K ->
  yields (try_acquire acquire rest h release)
         (match oc with Ok _ => o | Raise e' => Raise e' end)
         (fun fs => K (G (F fs))).
Proof.
  intros Ha Hb Hr st. unfold try_acquire. destruct (Ha st) as [E1 E2].
  destruct (acquire st) as [o1 st1]. cbn [fst snd] in *. subst o1.
  rewrite <- E2. destruct oc as [[]|e'].
  - apply (yields_try_finally _ _ _ _ _ Hb Hr).
  - apply (yields_try_finally_raise _ _ _ _ _ _ Hb Hr).
Qed.

Lemma yields_try_acquire_ok {R A} (acquire : M R) (rest : R -> M A) h release
    r o F G K :
  yields acquire (Ok r) F ->
  yields (try_except (rest r) h) o G ->
  yields (release (Some r)) (Ok tt) K ->
  yields (try_acquire acquire rest h release) o (fun fs => K (G (F fs))).
Proof. intros Ha Hb Hr. apply (yields_try_acquire _ _ _ _ _ _ _ _ _ _ Ha Hb Hr). Qed.

End Yields.

(** Running a straight piece of the program to its result: the steps that
    return are followed, and the first one that raises ends the piece. *)
Ltac yield :=
  unfold log, print; cbv zeta;
  repeat first
    [ assumption
    | apply yields_ret
    | apply yields_raise
    | apply yields_emit
    | apply yields_perform
    | apply yields_lift
    | apply yields_write_file
    | apply yields_save_screenshot
    | eapply yields_bind; [solve [yield]|cbv beta iota]
    | eapply yields_bind_raise; solve [yield]
    | eapply yields_try_except; solve [yield]
    | eapply yields_try_except_caught; [solve [yield]|cbv beta]
    | eapply yields_try_except_interrupted; solve [yield] ].

(** The result of the validation does not depend on the state. *)
Lemma validate_url_yields `{Urllib} url st b :
  fst (validate_url url st) = Ok b ->
  yields (validate_url url) (Ok b) (fun fs => fs).
Proof.
  unfold validate_url. intros E st'. revert E. step_m.
  destruct (urlparse url) as [p|[m|m]]; cbn.
  - destruct (PyStr.contains "library.alkafeel.net" (netloc p)); cbn;
      [destruct (PyStr.contains "/dic/book/" (path p)); cbn|]; auto.
  - auto.
  - discriminate.
Qed.

Lemma extract_book_id_yields `{Urllib} sc url :
  yields (extract_book_id sc url) (Ok (book_id_of sc url)) (fun fs => fs).
Proof.
  intros st. unfold extract_book_id, book_id_of.
  destruct (Re.search book_id_pattern url); auto.
Qed.

Lemma extract_pdf_data_yields content :
  yields (extract_pdf_data content) (Ok (find_payload content)) (fun fs => fs).
Proof.
  intros st. destruct (extract_pdf_data_run content st) as [E [_ Hf]]. auto.
Qed.

(** The file of the scan is the screenshot of the first frame that is not
    skipped. *)
Lemma scan_store_decided self sc book_id before f rest : forall i fs,
  Forall (fun g => verdict_of g = Skipped) before ->
  scan_store self sc book_id i (before ++ f :: rest) fs
  = match verdict_of f with
    | Accepted _ _ =>
        written (screenshot_path self book_id (i + length before)) Png
          (screenshot sc (screenshot_path self book_id (i + length before)))
          (opened_before sc (screenshot_path self book_id (i + length before)))
          fs
    | Skipped => scan_store self sc book_id (S (i + length before)) rest fs
    | Interrupted _ => fs
    end.
Proof.
  induction before as [|g before IH]; intros i fs Hb;
    cbn [app scan_store length].
  - rewrite Nat.add_0_r. reflexivity.
  - inversion Hb as [|? ? Hg Hb']; subst. rewrite Hg.
    rewrite (IH (S i) fs Hb'), Nat.add_succ_r. reflexivity.
Qed.

Lemma scan_store_skipped self sc book_id frames : forall i fs,
  Forall (fun g => verdict_of g = Skipped) frames ->
  scan_store self sc book_id i frames fs = fs.
Proof.
  induction frames as [|g frames IH]; intros i fs Hb; cbn [scan_store];
    [reflexivity|].
  inversion Hb as [|? ? Hg Hb']; subst. rewrite Hg. apply IH, Hb'.
Qed.

(** The scan of a page whose first frame that is not skipped is accepted. *)
Lemma extract_iframe_content_yields self sc book_id before f rest src text :
  query_selector_all sc = Ok (before ++ f :: rest) ->
  Forall (fun g => verdict_of g = Skipped) before ->
  verdict_of f = Accepted src text ->
  quiet (screenshot sc (screenshot_path self book_id (length before))) ->
  yields (extract_iframe_content self sc book_id)
         (Ok (Some {| iframe_index := length before + 1;
                      iframe_src := src;
                      content := text;
                      content_length := String.length text |}))
         (written (screenshot_path self book_id (length before)) Png
            (screenshot sc (screenshot_path self book_id (length before)))
            (opened_before sc (screenshot_path self book_id (length before)))).
Proof.
  intros Q Hb Hf Hq st.
  pose proof (extract_iframe_content_files self sc book_id st) as Hfiles.
  pose proof (extract_iframe_content_run self sc book_id st) as H.
  rewrite Q in Hfiles. rewrite (scan_store_decided _ _ _ _ _ _ 0 _ Hb) in Hfiles.
  rewrite Hf in Hfiles. cbn [Nat.add] in Hfiles.
  split; [|exact Hfiles]. rewrite Q in H.
  apply scan_report_outcome in H.
  destruct H as [(before' & g & rest' & src' & text' & E & Hb' & Hg & R)
                |[(before' & g & rest' & msg' & E & Hb' & Hg & R)
                 |(Hb' & R)]].
  - destruct (first_decided_unique _ _ _ _ _ _ E Hb Hb') as (<- & <- & <-);
      [congruence..|].
    assert (src' = src /\ text' = text) as [-> ->] by (split; congruence).
    destruct (screenshot sc _) as [[]|[m|m]]; auto.
    destruct (Hq m eq_refl).
  - destruct (first_decided_unique _ _ _ _ _ _ E Hb Hb') as (<- & <- & <-);
      congruence.
  - apply Forall_app in Hb' as [_ Hb']. inversion Hb'. congruence.
Qed.

Lemma falsy_some s : s <> "" -> falsy (Some s) = false.
Proof. intros H. cbn. destruct (String.eqb_spec s ""); congruence. Qed.

(** The payload found in a text is not empty. *)
Lemma find_payload_nonempty content payload :
  find_payload content = Some payload -> payload <> "".
Proof.
  intros Hp.
  destruct (find_payload_pattern _ _ Hp) as (p & Hin & Hs).
  apply ReFacts.search_some in Hs as (w & -> & before & Hocc & _).
  destruct Hocc as (w1 & w2 & rest & E & _ & Hg & H2).
  destruct (payload_pattern_shape p w w2 Hin Hg H2) as (Hne & _).
  intros Hw. apply Hne. rewrite <- (chars_of_chars w), Hw. reflexivity.
Qed.

(** ** The paths through [extract_book] *)

Section Saved.

Context {U : Urllib}.
Variables (self : AlkafeelExtractor) (sc : Scenario) (u : string)
  (st : State) (before : list Iframe) (f : Iframe) (rest : list Iframe)
  (src : option string) (text payload : string) (data : list Byte.byte).

Local Notation "'id'" := (book_id_of sc u).
Local Notation "'pdf'" := (Pathlib.str (pdf_file self (book_id_of sc u))).
Local Notation "'meta'" := (metadata_file self (book_id_of sc u)).
Local Notation "'shot'" :=
  (screenshot_path self (book_id_of sc u) (length before)).
Local Notation "'result'" :=
  {| success := true; error := None; book_id := Some id; url := u;
     pdf_path := Some pdf; pdf_size_bytes := Some (length data);
     iframe_data := Some (length before + 1, src, String.length text);
     extraction_duration := Some (t_end sc - t_start sc)%Z;
     metadata_path := None |}.
Local Notation "'document'" :=
  {| md_book_id := id;
     md_original_url := u;
     md_extraction_date := t_metadata sc;
     md_extractor_version := "1.0.0";
     md_created_by := "Eylias Sharar";
     md_extraction_data := result |}.

Hypothesis Hv : fst (validate_url u st) = Ok true.
Hypothesis Hs : playwright_start sc = Ok tt.
Hypothesis Hl : launch sc = Ok tt.
Hypothesis Hn : new_page sc = Ok tt.
Hypothesis Hvp : set_viewport_size sc = Ok tt.
Hypothesis Hh : set_extra_http_headers sc = Ok tt.
Hypothesis Hg : goto sc = Ok tt.
Hypothesis Hgs : goto_sleep sc = Ok tt.
Hypothesis Hq : query_selector_all sc = Ok (before ++ f :: rest).
Hypothesis Hb : Forall (fun g => verdict_of g = Skipped) before.
Hypothesis Hf : verdict_of f = Accepted src text.
Hypothesis Hsh :
  quiet (screenshot sc (screenshot_path self id (length before))).
Hypothesis Hp : find_payload text = Some payload.
Hypothesis Hd : Base64.b64decode payload = Ok data.
Hypothesis Hop : write_pdf sc pdf = Ok tt.
Hypothesis Hc : close sc = Ok tt.

(** The run up to the PDF file and on to the metadata file, by the answer
    of the file system for the metadata file. *)
Lemma extract_book_saved :
  yields (extract_book self sc u)
    (match write_metadata sc meta with
     | Ok _ => Ok (set_metadata_path result meta)
     | Raise (Exception msg) =>
         Ok {| success := false; error := Some msg; book_id := Some id;
               url := u; pdf_path := None; pdf_size_bytes := None;
               iframe_data := None;
               extraction_duration := Some (t_end sc - t_start sc)%Z;
               metadata_path := None |}
     | Raise (BaseException msg) => Raise (BaseException msg)
     end)
    (fun fs =>
       written meta (Json document) (write_metadata sc meta)
         (opened_before sc meta)
         (<[pdf := Binary data]>
            (written shot Png (screenshot sc shot) (opened_before sc shot)
                     fs))).
Proof.
  pose proof (validate_url_yields u st true Hv) as Yv.
  pose proof (extract_book_id_yields sc u) as Yid.
  pose proof (extract_iframe_content_yields self sc id before f rest src text
                Hq Hb Hf Hsh) as Yf.
  pose proof (extract_pdf_data_yields text) as Yp. rewrite Hp in Yp.
  pose proof (find_payload_nonempty _ _ Hp) as Hne.
  pose proof (pdf_file_nonempty self id) as Hpne.
  assert (yields (setup_browser sc) (Ok tt) (fun fs => fs)) as Ya
    by (unfold setup_browser; rewrite Hs, Hl; yield).
  assert (yields (setup_page sc) (Ok tt) (fun fs => fs)) as Ypg
    by (unfold setup_page; rewrite Hn, Hvp, Hh; yield).
  assert (yields (navigate_to_book sc u) (Ok true) (fun fs => fs)) as Yn
    by (unfold navigate_to_book; rewrite Hg, Hgs; yield).
  assert (yields (decode_and_save_pdf self sc payload id) (Ok (Some pdf))
            (fun fs => <[pdf := Binary data]> fs)) as Yd
    by (unfold decode_and_save_pdf; rewrite Hd, Hop;
        eapply yields_ext; [yield|]; intros fs; reflexivity).
  assert (forall d,
             yields (save_metadata self sc id u d)
               (match write_metadata sc meta with
                | Ok _ => Ok meta
                | Raise e => Raise e
                end)
               (written meta
                  (Json {| md_book_id := id;
                           md_original_url := u;
                           md_extraction_date := t_metadata sc;
                           md_extractor_version := "1.0.0";
                           md_created_by := "Eylias Sharar";
                           md_extraction_data := d |})
                  (write_metadata sc meta) (opened_before sc meta))) as Ym.
  { intros d. unfold save_metadata. cbv zeta.
    change (Pathlib.str (output_dir self // "metadata"
                         // (id +:+ "_metadata.json"))) with meta.
    destruct (write_metadata sc meta) as [[]|e];
      (eapply yields_ext; [yield|]; intros fs; reflexivity). }
  specialize (Ym result). unfold extract_book. cbv zeta.
  revert Ym. destruct (write_metadata sc meta) as [[]|[m|m]]; intros Ym;
    (eapply yields_ext;
     [ eapply yields_bind; [exact Yv|]; cbn [negb];
       eapply yields_bind; [exact Yid|]; cbv beta;
       do 3 (eapply yields_bind; [apply yields_emit|]; cbv beta);
       eapply yields_try_acquire_ok; [exact Ya| |rewrite Hc; yield];
       lazymatch type of Ym with
       | yields _ (Ok _) _ => eapply yields_try_except
       | yields _ (Raise (Exception _)) _ =>
           eapply yields_try_except_caught; [|solve [yield]]
       | _ => eapply yields_try_except_interrupted
       end;
       eapply yields_bind; [exact Ypg|]; cbv beta;
       eapply yields_bind; [exact Yn|]; cbn [negb];
       eapply yields_bind; [exact Yf|]; cbv beta iota; cbn [content];
       eapply yields_bind; [exact Yp|]; cbv beta;
       rewrite (falsy_some _ Hne);
       change (default "" (Some payload)) with payload;
       eapply yields_bind; [exact Yd|];
       cbv beta; rewrite (falsy_some _ Hpne); rewrite Hd;
       eapply yields_bind; [apply yields_lift|]; cbv beta;
       cbn [iframe_index iframe_src content_length];
       first [ eapply yields_bind; [exact Ym|]; yield
             | eapply yields_bind_raise; exact Ym ]
     | intros fs; reflexivity ]).
Qed.

End Saved.

(** X7: when the URL is valid, the browser and the page answer every call,
    the first frame that is not skipped qualifies, its text holds a payload
    that decodes, and both files can be written, [extract_book] returns the
    successful result with every key set.  The files are those it found
    with three of them written, at three different paths: the screenshot
    of the frame, as the screenshot request leaves it, the PDF of the
    decoded bytes and the metadata document.  The metadata document holds
    the result as it is before [metadata_path] is set. *)
Theorem extract_book_success `{Urllib} self sc url st before f rest src text
    payload data :
  let id := book_id_of sc url in
  let pdf := Pathlib.str (pdf_file self id) in
  let meta := metadata_file self id in
  let shot := screenshot_path self id (length before) in
  let result :=
    {| success := true; error := None; book_id := Some id; url := url;
       pdf_path := Some pdf; pdf_size_bytes := Some (length data);
       iframe_data := Some (length before + 1, src, String.length text);
       extraction_duration := Some (t_end sc - t_start sc)%Z;
       metadata_path := None |} in
  fst (validate_url url st) = Ok true ->
  playwright_start sc = Ok tt -> launch sc = Ok tt ->
  new_page sc = Ok tt -> set_viewport_size sc = Ok tt ->
  set_extra_http_headers sc = Ok tt ->
  goto sc = Ok tt -> goto_sleep sc = Ok tt ->
  query_selector_all sc = Ok (before ++ f :: rest) ->
  Forall (fun g => verdict_of g = Skipped) before ->
  verdict_of f = Accepted src text ->
  quiet (screenshot sc shot) ->
  find_payload text = Some payload ->
  Base64.b64decode payload = Ok data ->
  write_pdf sc pdf = Ok tt ->
  write_metadata sc meta = Ok tt ->
  close sc = Ok tt ->
  fst (extract_book self sc url st) = Ok (set_metadata_path result meta) /\
  files (snd (extract_book self sc url st))
  = <[meta := Json {| md_book_id := id;
                      md_original_url := url;
                      md_extraction_date := t_metadata sc;
                      md_extractor_version := "1.0.0";
                      md_created_by := "Eylias Sharar";
                      md_extraction_data := result |}]>
      (<[pdf := Binary data]>
         (written shot Png (screenshot sc shot) (opened_before sc shot)
                  (files st))) /\
  pdf <> meta /\ shot <> pdf /\ shot <> meta /\
  (screenshot sc shot = Ok tt ->
   files (snd (extract_book self sc url st)) !! shot = Some Png).
Proof.
  cbv zeta.
  intros Hv Hs Hl Hn Hvp Hh Hg Hgs Hq Hb Hf Hsh Hp Hd Hop Hom Hc.
  pose proof (extract_book_saved self sc url st before f rest src text
                payload data Hv Hs Hl Hn Hvp Hh Hg Hgs Hq Hb Hf Hsh Hp Hd
                Hop Hc st) as Y.
  rewrite Hom in Y. destruct Y as [Y1 Y2].
  pose proof (pdf_file_not_metadata_file self (book_id_of sc url)) as N1.
  pose proof (screenshot_path_not_pdf_file self (book_id_of sc url)
                (length before)) as N2.
  pose proof (screenshot_path_not_metadata_file self (book_id_of sc url)
                (length before)) as N3.
  do 5 (split; [assumption|]).
  intros Hshot. rewrite Y2, Hshot. cbn [written].
  rewrite !lookup_insert_ne by congruence. apply lookup_insert_eq.
Qed.

Lemma extract_book_success_witness :
  let id := book_id_of Demo.good Demo.good_url in
  let pdf := Pathlib.str (pdf_file Demo.extractor id) in
  let meta := metadata_file Demo.extractor id in
  let shot := screenshot_path Demo.extractor id 0 in
  let result :=
    {| success := true; error := None; book_id := Some id;
       url := Demo.good_url; pdf_path := Some pdf;
       pdf_size_bytes := Some 3;
       iframe_data := Some (1, Some "viewer.html",
                            String.length Demo.book_text);
       extraction_duration := Some 7%Z;
       metadata_path := None |} in
  id = "test-id" /\ pdf = "output/pdfs/test-id.pdf" /\
  meta = "output/metadata/test-id_metadata.json" /\
  shot = "output/screenshots/test-id_iframe_1.png" /\
  fst (@extract_book urllib_model Demo.extractor Demo.good Demo.good_url
         Demo.st0)
  = Ok (set_metadata_path result meta) /\
  files (snd (@extract_book urllib_model Demo.extractor Demo.good
                Demo.good_url Demo.st0))
  = <[meta := Json {| md_book_id := id;
                      md_original_url := Demo.good_url;
                      md_extraction_date := 6;
                      md_extractor_version := "1.0.0";
                      md_created_by := "Eylias Sharar";
                      md_extraction_data := result |}]>
      (<[pdf := Binary [Byte.x41; Byte.x42; Byte.x43]]>
         (<[shot := Png]> (files Demo.st0))) /\
  pdf <> meta /\ shot <> pdf /\ shot <> meta /\
  (screenshot Demo.good shot = Ok tt ->
   files (snd (@extract_book urllib_model Demo.extractor Demo.good
                 Demo.good_url Demo.st0)) !! shot = Some Png).
Proof.
  cbv zeta. do 4 (split; [reflexivity|]).
  apply (@extract_book_success urllib_model Demo.extractor Demo.good
           Demo.good_url Demo.st0 [] (Demo.frame_of Demo.book_text) []
           (Some "viewer.html") Demo.book_text "QUJD"
           [Byte.x41; Byte.x42; Byte.x43]);
    try reflexivity.
  - constructor.
  - intros m. discriminate.
Defined.

(** X8: when everything succeeds up to the PDF file and the metadata file
    cannot be written, [extract_book] returns a failed result, without
    [pdf_path], whose error is the message of the exception; the PDF file
    that was written stays where it is, with the screenshot of the frame,
    and the metadata file is left incomplete when it had been opened. *)
Theorem extract_book_metadata_failure `{Urllib} self sc url st before f rest
    src text payload data msg :
  let id := book_id_of sc url in
  let pdf := Pathlib.str (pdf_file self id) in
  let meta := metadata_file self id in
  let shot := screenshot_path self id (length before) in
  fst (validate_url url st) = Ok true ->
  playwright_start sc = Ok tt -> launch sc = Ok tt ->
  new_page sc = Ok tt -> set_viewport_size sc = Ok tt ->
  set_extra_http_headers sc = Ok tt ->
  goto sc = Ok tt -> goto_sleep sc = Ok tt ->
  query_selector_all sc = Ok (before ++ f :: rest) ->
  Forall (fun g => verdict_of g = Skipped) before ->
  verdict_of f = Accepted src text ->
  quiet (screenshot sc shot) ->
  find_payload text = Some payload ->
  Base64.b64decode payload = Ok data ->
  write_pdf sc pdf = Ok tt ->
  write_metadata sc meta = Raise (Exception msg) ->
  close sc = Ok tt ->
  fst (extract_book self sc url st)
  = Ok {| success := false; error := Some msg; book_id := Some id;
          url := url; pdf_path := None; pdf_size_bytes := None;
          iframe_data := None;
          extraction_duration := Some (t_end sc - t_start sc)%Z;
          metadata_path := None |} /\
  files (snd (extract_book self sc url st)) !! pdf = Some (Binary data) /\
  files (snd (extract_book self sc url st))
  = (if opened_before sc meta then <[meta := Partial]> else fun fs => fs)
      (<[pdf := Binary data]>
         (written shot Png (screenshot sc shot) (opened_before sc shot)
                  (files st))).
Proof.
  cbv zeta.
  intros Hv Hs Hl Hn Hvp Hh Hg Hgs Hq Hb Hf Hsh Hp Hd Hop Hom Hc.
  pose proof (extract_book_saved self sc url st before f rest src text
                payload data Hv Hs Hl Hn Hvp Hh Hg Hgs Hq Hb Hf Hsh Hp Hd
                Hop Hc st) as Y.
  rewrite Hom in Y. destruct Y as [Y1 Y2].
  pose proof (pdf_file_not_metadata_file self (book_id_of sc url)) as N1.
  split; [exact Y1|]. rewrite Y2. cbn [written].
  destruct (opened_before sc (metadata_file self (book_id_of sc url)));
    (split; [|reflexivity]);
    rewrite ?lookup_insert_ne by congruence; apply lookup_insert_eq.
Qed.

Lemma extract_book_metadata_failure_witness :
  let sc := with_write_metadata Demo.good
              (fun _ => Raise (Exception "No space left on device")) in
  fst (@extract_book urllib_model Demo.extractor sc Demo.good_url Demo.st0)
  = Ok {| success := false; error := Some "No space left on device";
          book_id := Some "test-id";
          url := Demo.good_url; pdf_path := None; pdf_size_bytes := None;
          iframe_data := None;
          extraction_duration := Some 7%Z;
          metadata_path := None |} /\
  files (snd (@extract_book urllib_model Demo.extractor sc Demo.good_url
                Demo.st0)) !! "output/pdfs/test-id.pdf"
  = Some (Binary [Byte.x41; Byte.x42; Byte.x43]) /\
  files (snd (@extract_book urllib_model Demo.extractor sc Demo.good_url
                Demo.st0))
  = <["output/pdfs/test-id.pdf" := Binary [Byte.x41; Byte.x42; Byte.x43]]>
      (<["output/screenshots/test-id_iframe_1.png" := Png]>
         (files Demo.st0)).
Proof.
  cbv zeta.
  apply (@extract_book_metadata_failure urllib_model Demo.extractor
           (with_write_metadata Demo.good
              (fun _ => Raise (Exception "No space left on device")))
           Demo.good_url Demo.st0 [] (Demo.frame_of Demo.book_text) []
           (Some "viewer.html") Demo.book_text "QUJD"
           [Byte.x41; Byte.x42; Byte.x43] "No space left on device");
    try reflexivity.
  - constructor.
  - intros m. discriminate.
Defined.

Lemma validate_url_accepted `{Urllib} url st :
  fst (validate_url url st) = Ok true -> validate_url url st = (Ok true, st).
Proof.
  unfold validate_url. step_m.
  destruct (urlparse url) as [p|[m|m]]; cbn; try discriminate.
  destruct (PyStr.contains "library.alkafeel.net" (netloc p)); cbn;
    [|discriminate].
  destruct (PyStr.contains "/dic/book/" (path p)); cbn; [|discriminate].
  destruct st. reflexivity.
Qed.

Lemma extract_book_id_eq sc url st :
  extract_book_id sc url st = (Ok (book_id_of sc url), st).
Proof.
  unfold extract_book_id, book_id_of.
  destruct (Re.search book_id_pattern url); reflexivity.
Qed.

Ltac read_calls :=
  unfold browser_calls;
  repeat rewrite flat_map_app; cbn [flat_map app];
  repeat rewrite app_nil_r;
  repeat rewrite <- app_assoc; cbn [app].

(** X9: when the browser cannot be started or launched, [extract_book]
    returns a failed result whose error is the message of the exception,
    with the book identifier and the duration; the session that was never
    opened is not closed, nothing else is asked of the browser, and no file
    is written. *)
Theorem extract_book_launch_failure `{Urllib} self sc url st msg :
  fst (validate_url url st) = Ok true ->
  playwright_start sc = Raise (Exception msg) \/
  (playwright_start sc = Ok tt /\ launch sc = Raise (Exception msg)) ->
  fst (extract_book self sc url st)
  = Ok {| success := false; error := Some msg;
          book_id := Some (book_id_of sc url); url := url;
          pdf_path := None; pdf_size_bytes := None; iframe_data := None;
          extraction_duration := Some (t_end sc - t_start sc)%Z;
          metadata_path := None |} /\
  browser_calls (trace (snd (extract_book self sc url st)))
  = browser_calls (trace st)
    ++ PlaywrightStart :: match playwright_start sc with
                          | Ok _ => [Launch]
                          | Raise _ => []
                          end /\
  files (snd (extract_book self sc url st)) = files st.
Proof.
  intros Hv Hl.
  enough (exists s,
             extract_book self sc url st
             = (Ok {| success := false; error := Some msg;
                      book_id := Some (book_id_of sc url); url := url;
                      pdf_path := None; pdf_size_bytes := None;
                      iframe_data := None;
                      extraction_duration := Some (t_end sc - t_start sc)%Z;
                      metadata_path := None |}, s) /\
             browser_calls (trace s)
             = browser_calls (trace st)
               ++ PlaywrightStart :: match playwright_start sc with
                                     | Ok _ => [Launch]
                                     | Raise _ => []
                                     end /\
             files s = files st) as (s & -> & Hc & Hf) by auto.
  unfold extract_book. unfold bind at 1.
  rewrite (validate_url_accepted url st Hv). cbn [negb].
  unfold bind at 1. rewrite extract_book_id_eq.
  unfold try_acquire, setup_browser.
  destruct Hl as [Hs|[Hs Hl]]; rewrite Hs, ?Hl; step_m;
    eexists; (split; [reflexivity|]); cbn [trace files];
    (split; [|reflexivity]); read_calls; reflexivity.
Qed.

Lemma extract_book_launch_failure_witness :
  fst (@extract_book urllib_model Demo.extractor
         (with_launch Demo.good (Raise (Exception "Executable not found")))
         Demo.good_url Demo.st0)
  = Ok {| success := false; error := Some "Executable not found";
          book_id := Some (book_id_of Demo.good Demo.good_url);
          url := Demo.good_url;
          pdf_path := None; pdf_size_bytes := None; iframe_data := None;
          extraction_duration := Some (7 - 0)%Z;
          metadata_path := None |} /\
  browser_calls
    (trace (snd (@extract_book urllib_model Demo.extractor
                   (with_launch Demo.good
                      (Raise (Exception "Executable not found")))
                   Demo.good_url Demo.st0)))
  = browser_calls (trace Demo.st0) ++ [PlaywrightStart; Launch] /\
  files (snd (@extract_book urllib_model Demo.extractor
                (with_launch Demo.good
                   (Raise (Exception "Executable not found")))
                Demo.good_url Demo.st0))
  = files Demo.st0.
Proof.
  apply (@extract_book_launch_failure urllib_model Demo.extractor
           (with_launch Demo.good (Raise (Exception "Executable not found")))
           Demo.good_url Demo.st0 "Executable not found").
  - reflexivity.
  - right. split; reflexivity.
Defined.

(** X10: when the page cannot be reached ([goto], or the wait after it,
    raises), [extract_book] goes no further: it asks for no frame, closes
    the session and, for an [Exception], returns a failed result whose
    error is the fixed text [Failed to navigate to book page]; the message
    of the exception is only logged.  An interruption is raised again once
    the session is closed.  No file is written. *)
Theorem extract_book_navigation_failure `{Urllib} self sc url st e :
  fst (validate_url url st) = Ok true ->
  playwright_start sc = Ok tt -> launch sc = Ok tt ->
  new_page sc = Ok tt -> set_viewport_size sc = Ok tt ->
  set_extra_http_headers sc = Ok tt ->
  goto sc = Raise e \/ (goto sc = Ok tt /\ goto_sleep sc = Raise e) ->
  close sc = Ok tt ->
  fst (extract_book self sc url st)
  = match e with
    | Exception _ =>
        Ok {| success := false;
              error := Some "Failed to navigate to book page";
              book_id := Some (book_id_of sc url); url := url;
              pdf_path := None; pdf_size_bytes := None; iframe_data := None;
              extraction_duration := Some (t_end sc - t_start sc)%Z;
              metadata_path := None |}
    | BaseException msg => Raise (BaseException msg)
    end /\
  browser_calls (trace (snd (extract_book self sc url st)))
  = browser_calls (trace st)
    ++ [PlaywrightStart; Launch; NewPage; SetViewportSize;
        SetExtraHttpHeaders; Goto url]
    ++ match goto sc with Ok _ => [Sleep 3] | Raise _ => [] end
    ++ [Close] /\
  files (snd (extract_book self sc url st)) = files st /\
  (forall msg,
      e = Exception msg ->
      In (Log ERROR ("Navigation failed: " +:+ msg))
         (trace (snd (extract_book self sc url st)))).
Proof.
  intros Hv Hs Hl Hn Hvp Hh Hg Hc.
  enough (exists s,
             extract_book self sc url st
             = (match e with
                | Exception _ =>
                    Ok {| success := false;
                          error := Some "Failed to navigate to book page";
                          book_id := Some (book_id_of sc url); url := url;
                          pdf_path := None; pdf_size_bytes := None;
                          iframe_data := None;
                          extraction_duration :=
                            Some (t_end sc - t_start sc)%Z;
                          metadata_path := None |}
                | BaseException msg => Raise (BaseException msg)
                end, s) /\
             browser_calls (trace s)
             = browser_calls (trace st)
               ++ [PlaywrightStart; Launch; NewPage; SetViewportSize;
                   SetExtraHttpHeaders; Goto url]
               ++ match goto sc with Ok _ => [Sleep 3] | Raise _ => [] end
               ++ [Close] /\
             files s = files st /\
             (forall msg,
                 e = Exception msg ->
                 In (Log ERROR ("Navigation failed: " +:+ msg)) (trace s)))
    as (s & -> & Hb & Hf & Hi) by auto.
  unfold extract_book. unfold bind at 1.
  rewrite (validate_url_accepted url st Hv). cbn [negb].
  unfold bind at 1. rewrite extract_book_id_eq.
  unfold try_acquire, setup_browser, setup_page, navigate_to_book.
  rewrite Hs, Hl, Hn, Hvp, Hh, Hc.
  destruct Hg as [Hg|[Hg Hgs]]; rewrite Hg, ?Hgs; destruct e as [m|m];
    step_m; eexists; (split; [reflexivity|]); cbn [trace files];
    (split; [read_calls; reflexivity|]); (split; [reflexivity|]);
    intros msg [= ->]; rewrite ?in_app_iff; cbn [In]; auto 20.
Qed.

Lemma extract_book_navigation_failure_witness :
  fst (@extract_book urllib_model Demo.extractor Demo.nav_timeout
         Demo.good_url Demo.st0)
  = Ok {| success := false;
          error := Some "Failed to navigate to book page";
          book_id := Some (book_id_of Demo.nav_timeout Demo.good_url);
          url := Demo.good_url;
          pdf_path := None; pdf_size_bytes := None; iframe_data := None;
          extraction_duration := Some (61 - 0)%Z;
          metadata_path := None |} /\
  browser_calls
    (trace (snd (@extract_book urllib_model Demo.extractor Demo.nav_timeout
                   Demo.good_url Demo.st0)))
  = browser_calls (trace Demo.st0)
    ++ [PlaywrightStart; Launch; NewPage; SetViewportSize;
        SetExtraHttpHeaders; Goto Demo.good_url]
    ++ [] ++ [Close] /\
  files (snd (@extract_book urllib_model Demo.extractor Demo.nav_timeout
                Demo.good_url Demo.st0))
  = files Demo.st0 /\
  (forall msg,
      Exception "Timeout 60000ms exceeded" = Exception msg ->
      In (Log ERROR ("Navigation failed: " +:+ msg))
         (trace (snd (@extract_book urllib_model Demo.extractor
                        Demo.nav_timeout Demo.good_url Demo.st0)))).
Proof.
  apply (@extract_book_navigation_failure urllib_model Demo.extractor
           Demo.nav_timeout Demo.good_url Demo.st0
           (Exception "Timeout 60000ms exceeded")); try reflexivity.
  left. reflexivity.
Defined.

(** A [finally] clause that raises: the exception replaces the result. *)
Lemma try_acquire_release_raises {R A} (acquire : M R) (rest : R -> M A) h
    release st r st1 e :
  acquire st = (Ok r, st1) ->
  (forall st2, fst (release (Some r) st2) = Raise e) ->
  fst (try_acquire acquire rest h release st) = Raise e.
Proof.
  intros E Hr. unfold try_acquire. rewrite E. unfold try_finally.
  destruct (try_except (rest r) h st1) as [o st2].
  specialize (Hr st2). destruct (release (Some r) st2) as [[[]|e'] st3];
    cbn [fst] in *; congruence.
Qed.

(** A session that cannot be closed. *)
Lemma close_raises `{Urllib} self sc url st e :
  fst (validate_url url st) = Ok true ->
  playwright_start sc = Ok tt -> launch sc = Ok tt ->
  close sc = Raise e ->
  fst (extract_book self sc url st) = Raise e.
Proof.
  intros Hv Hs Hl Hc. unfold extract_book. unfold bind at 1.
  rewrite (validate_url_accepted url st Hv). cbn [negb].
  unfold bind at 1. rewrite extract_book_id_eq.
  do 3 (unfold bind at 1, log at 1, emit at 1).
  match goal with
  | |- context [try_acquire _ _ _ _ ?s] =>
      destruct (setup_browser_opens sc s Hs Hl) as (st2 & E & _)
  end.
  eapply try_acquire_release_raises; [exact E|].
  intros st3. rewrite Hc. reflexivity.
Qed.

(** X11: when the session was opened and closing it raises, the exception
    of [close] leaves [extract_book] in place of any result: also of the
    result of an extraction that succeeded and whose files are written. *)
Theorem extract_book_close_failure `{Urllib} self sc url st e :
  fst (validate_url url st) = Ok true ->
  playwright_start sc = Ok tt -> launch sc = Ok tt ->
  close sc = Raise e ->
  fst (extract_book self sc url st) = Raise e.
Proof.
  intros Hv Hs Hl Hc. unfold extract_book. unfold bind at 1.
  rewrite (validate_url_accepted url st Hv). cbn [negb].
  unfold bind at 1. rewrite extract_book_id_eq.
  do 3 (unfold bind at 1, log at 1, emit at 1).
  match goal with
  | |- context [try_acquire _ _ _ _ ?s] =>
      destruct (setup_browser_opens sc s Hs Hl) as (st2 & E & _)
  end.
  eapply try_acquire_release_raises; [exact E|].
  intros st3. rewrite Hc. reflexivity.
Qed.

Lemma extract_book_close_failure_witness :
  fst (@extract_book urllib_model Demo.extractor
         (with_close Demo.good (Raise (Exception "Target closed")))
         Demo.good_url Demo.st0)
  = Raise (Exception "Target closed").
Proof.
  apply (@extract_book_close_failure urllib_model Demo.extractor
           (with_close Demo.good (Raise (Exception "Target closed")))
           Demo.good_url Demo.st0 (Exception "Target closed"));
    reflexivity.
Defined.

(** ** What a result says of the files *)

Lemma untouched_refl st : untouched st st.
Proof. reflexivity. Qed.

Lemma untouched_trans a b c : untouched a b -> untouched b c -> untouched a c.
Proof. unfold untouched. congruence. Qed.

Lemma untouched_emit st e :
  True -> untouched st {| trace := trace st ++ [e]; files := files st |}.
Proof. reflexivity. Qed.

Lemma untouched_write st p f :
  False -> untouched st {| trace := trace st; files := <[p := f]> (files st) |}.
Proof. intros []. Qed.

Ltac no_write :=
  unfold log, print;
  preserve untouched_refl untouched_trans untouched_emit untouched_write
           ltac:(exact Logic.I).

Lemma untouched_run {A} (m : M A) st o st' :
  preserves untouched m -> m st = (o, st') -> files st' = files st.
Proof. intros H E. specialize (H st). rewrite E in H. exact H. Qed.

Section Untouched.

Context {U : Urllib}.
Variables (self : AlkafeelExtractor) (sc : Scenario).

Lemma validate_url_untouched url : preserves untouched (validate_url url).
Proof. intros st. apply (validate_url_offline url st). Qed.

Lemma setup_browser_untouched : preserves untouched (setup_browser sc).
Proof. unfold setup_browser. no_write. Qed.

Lemma setup_page_untouched : preserves untouched (setup_page sc).
Proof. unfold setup_page. no_write. Qed.

Lemma navigate_to_book_untouched url :
  preserves untouched (navigate_to_book sc url).
Proof. unfold navigate_to_book. no_write. Qed.

Lemma extract_pdf_data_untouched content :
  preserves untouched (extract_pdf_data content).
Proof. intros st. apply (extract_pdf_data_run content st). Qed.

(** The scan writes one file, the screenshot of the frame it returns, and
    none when it returns no frame. *)
Lemma extract_iframe_content_returned book_id st o st' :
  extract_iframe_content self sc book_id st = (Ok o, st') ->
  match o with
  | Some d =>
      exists k,
        iframe_index d = k + 1 /\
        files st' = shot_store self sc book_id k (files st)
  | None => files st' = files st
  end.
Proof.
  intros E.
  pose proof (extract_iframe_content_files self sc book_id st) as Hf.
  pose proof (extract_iframe_content_run self sc book_id st) as H.
  rewrite E in Hf, H. cbn [fst snd] in *.
  destruct (query_selector_all sc) as [frames|[m|m]].
  - unfold scan_report in H. cbn [fst snd Nat.add] in H.
    destruct H as [(before & g & rest & src & text & -> & Hb & Hg & A & S' & R & W)
                  |[(before & g & rest & msg & -> & Hb & Hg & S' & R)
                   |(Hb & A & S' & R)]].
    + rewrite (scan_store_decided _ _ _ _ _ _ 0 _ Hb), Hg in Hf.
      cbn [Nat.add] in Hf.
      assert (o = Some {| iframe_index := length before + 1;
                          iframe_src := src;
                          content := text;
                          content_length := String.length text |}) as ->.
      { destruct (screenshot sc _) as [[]|[m|m]]; congruence. }
      exists (length before). split; [reflexivity | exact Hf].
    + discriminate.
    + injection R as ->. rewrite Hf. apply scan_store_skipped, Hb.
  - destruct H as [[= ->] _]. exact Hf.
  - destruct H as [[=] _].
Qed.

(** The scan lets no [Exception] out. *)
Lemma extract_iframe_content_no_exception book_id st msg :
  fst (extract_iframe_content self sc book_id st) <> Raise (Exception msg).
Proof.
  pose proof (extract_iframe_content_run self sc book_id st) as H.
  destruct (query_selector_all sc) as [frames|[m|m]].
  - unfold scan_report in H.
    destruct H as [(before & g & rest & src & text & -> & Hb & Hg & A & S' & -> & W)
                  |[(before & g & rest & m & -> & Hb & Hg & S' & ->)
                   |(Hb & A & S' & ->)]]; try discriminate.
    destruct (screenshot sc _) as [[]|[m|m]]; discriminate.
  - destruct H as [-> _]. discriminate.
  - destruct H as [-> _]. discriminate.
Qed.

End Untouched.

(** The two ways out of [do x <- m; f x]. *)
Lemma bind_inv {A B} (m : M A) (f : A -> M B) st o st' :
  bind m f st = (o, st') ->
  (exists a st1, m st = (Ok a, st1) /\ f a st1 = (o, st')) \/
  (exists e, m st = (Raise e, st') /\ o = Raise e).
Proof.
  unfold bind. destruct (m st) as [[a|e] st1]; [eauto|].
  intros [= <- <-]. eauto.
Qed.

Lemma try_except_inv {A} (m : M A) h st a st' :
  try_except m h st = (Ok a, st') ->
  m st = (Ok a, st') \/
  exists msg st1, m st = (Raise (Exception msg), st1) /\ h msg st1 = (Ok a, st').
Proof.
  unfold try_except. destruct (m st) as [[b|[msg|msg]] st1]; eauto;
    discriminate.
Qed.

Lemma try_finally_inv {A} (m : M A) fin st a st' :
  try_finally m fin st = (Ok a, st') ->
  exists st1, m st = (Ok a, st1) /\ fin st1 = (Ok tt, st').
Proof.
  unfold try_finally. destruct (m st) as [o st1].
  destruct (fin st1) as [[[]|e] st2] eqn:Ef; [|discriminate].
  intros [= -> ->]. exists st1. split; [reflexivity | exact Ef].
Qed.

Lemma log_inv l msg st o st' :
  log l msg st = (o, st') -> o = Ok tt /\ files st' = files st.
Proof. intros [= <- <-]. auto. Qed.

Lemma falsy_inv o : falsy o = false -> exists s, o = Some s /\ s <> "".
Proof.
  destruct o as [s|]; [|discriminate]. cbn.
  destruct (String.eqb_spec s ""); [discriminate | eauto].
Qed.

(** What a run of [extract_book] that returns leaves behind: the result of
    a failed validation and the files as they were; or what the steps after
    the validation have left, with the result they returned or the failed
    result of the error they raised. *)
Lemma extract_book_returned `{Urllib} self sc url st r st' :
  extract_book self sc url st = (Ok r, st') ->
  (r = invalid_url url /\ files st' = files st) \/
  (exists o,
      left_behind self sc url (files st) o (files st') /\
      (o = Ok r \/
       exists msg, o = Raise (Exception msg) /\ r = failed_result sc url msg)).
Proof.
  intros E. unfold extract_book in E. cbv zeta in E.
  apply bind_inv in E as [(v & s1 & E1 & E)|(e & _ & [=])].
  pose proof (untouched_run _ _ _ _ (validate_url_untouched url) E1) as F1.
  destruct v; cbn [negb] in E.
  2: { injection E as <- <-. left. auto. }
  right.
  apply bind_inv in E as [(id & s2 & E2 & E)|(e & _ & [=])].
  rewrite extract_book_id_eq in E2. injection E2 as <- <-.
  apply bind_inv in E as [([] & s3 & [= <-] & E)|(e & _ & [=])].
  apply bind_inv in E as [([] & s4 & [= <-] & E)|(e & _ & [=])].
  apply bind_inv in E as [([] & s5 & [= <-] & E)|(e & _ & [=])].
  unfold try_acquire in E.
  destruct (setup_browser sc _) as [[[]|e] s6] eqn:Ea;
    pose proof (untouched_run _ _ _ _ (setup_browser_untouched sc) Ea) as F6;
    cbn [files] in F6;
    apply try_finally_inv in E as (s7 & Eb & Er).
  2: { injection Er as <-.
       apply try_except_inv in Eb as [[=]|(msg & s & [= -> <-] & Eh)].
       revert Eh. step_m. intros [= <- <-].
       exists (Raise (Exception msg)). cbn [files].
       split; [|right; exists msg; split; reflexivity].
       rewrite F6, F1. apply left_nothing. discriminate. }
  assert (files st' = files s7) as F7.
  { revert Er. step_m.
    destruct (close sc) as [[]|e]; intros [= <-]; reflexivity. }
  assert (files s6 = files st) as F0 by congruence.
  match type of Eb with
  | try_except ?body ?h s6 = _ =>
      assert (forall o s,
                 body s6 = (o, s) ->
                 (forall m, o <> Raise (BaseException m)) ->
                 left_behind self sc url (files s6) o (files s)) as Hbody
  end.
  { intros o s Eo Hq.
    apply bind_inv in Eo as [([] & t1 & T1 & Eo)|(e & T1 & ->)];
      pose proof (untouched_run _ _ _ _ (setup_page_untouched sc) T1) as G1.
    2: { rewrite G1. apply left_nothing. discriminate. }
    apply bind_inv in Eo as [(nav & t2 & T2 & Eo)|(e & T2 & ->)];
      pose proof (untouched_run _ _ _ _ (navigate_to_book_untouched sc url) T2)
        as G2.
    2: { rewrite G2, G1. apply left_nothing. discriminate. }
    destruct nav; cbn [negb] in Eo.
    2: { injection Eo as <- <-. rewrite G2, G1. apply left_nothing.
         discriminate. }
    apply bind_inv in Eo as [(fr & t3 & T3 & Eo)|(e & T3 & ->)].
    2: { destruct e as [m|m]; [|destruct (Hq m eq_refl)].
         destruct (extract_iframe_content_no_exception self sc
                     (book_id_of sc url) t2 m).
         rewrite T3. reflexivity. }
    pose proof (extract_iframe_content_returned self sc _ _ _ _ T3) as G3.
    destruct fr as [d|].
    2: { injection Eo as <- <-. rewrite G3, G2, G1. apply left_nothing.
         discriminate. }
    destruct G3 as (k & Hk & G3). rewrite G2, G1 in G3.
    apply bind_inv in Eo as [(pl & t4 & T4 & Eo)|(e & T4 & ->)];
      pose proof (untouched_run _ _ _ _ (extract_pdf_data_untouched _) T4)
        as G4.
    2: { rewrite G4, G3. apply left_screenshot. discriminate. }
    destruct (falsy pl) eqn:Hpl.
    { injection Eo as <- <-. rewrite G4, G3. apply left_screenshot.
      discriminate. }
    apply falsy_inv in Hpl as (payload & -> & Hne).
    change (default "" (Some payload)) with payload in Eo.
    pose proof (decode_and_save_pdf_run self sc payload (book_id_of sc url) t4)
      as (_ & Hfiles & Hrun). cbv zeta in Hfiles, Hrun.
    rewrite G4, G3 in Hfiles.
    apply bind_inv in Eo as [(pp & t5 & T5 & Eo)|(e & T5 & ->)];
      rewrite T5 in Hrun, Hfiles; cbn [fst snd] in Hrun, Hfiles.
    2: { exfalso. revert Hrun.
         destruct (Base64.b64decode payload) as [data|e'];
           [destruct (write_pdf sc _) as [[]|[m|m]]|];
           intros Hr; try discriminate Hr.
         injection Hr as ->. exact (Hq m eq_refl). }
    revert Hrun Hfiles.
    destruct (Base64.b64decode payload) as [data|e'] eqn:Hd.
    2: { intros [= ->] Hfiles. cbv [falsy] in Eo.
         injection Eo as <- <-. rewrite Hfiles. apply left_screenshot.
         discriminate. }
    unfold written.
    destruct (write_pdf sc _) as [[]|[m|m]] eqn:Hop; intros [= ->] Hfiles.
    2: { cbv [falsy] in Eo. injection Eo as <- <-. rewrite Hfiles.
         destruct (opened_before sc _) eqn:Hob.
         - eapply left_partial_pdf; [exact Hop | exact Hob].
         - apply left_screenshot. discriminate. }
    rewrite (falsy_some _ (pdf_file_nonempty self (book_id_of sc url))) in Eo.
    apply bind_inv in Eo as [(dec & t6 & [= <- <-] & Eo)|(e & [=] & _)].
    cbn [iframe_index iframe_src content_length] in Eo.
    apply bind_inv in Eo as [(mp & t7 & T7 & Eo)|(e & T7 & ->)];
      unfold save_metadata in T7; cbv zeta in T7;
      change (Pathlib.str (output_dir self // "metadata"
                           // (book_id_of sc url +:+ "_metadata.json")))
        with (metadata_file self (book_id_of sc url)) in T7;
      destruct (write_metadata sc (metadata_file self (book_id_of sc url)))
        as [[]|e''] eqn:Hom; revert T7; step_m; intros T7;
      try discriminate; injection T7 as <- <-.
    - revert Eo. step_m. intros [= <- <-]. cbn [files]. rewrite Hfiles, Hk.
      apply (left_all self sc url (files s6) k data (iframe_src d)
               (content_length d)).
    - destruct e'' as [m|m]; [|destruct (Hq m eq_refl)].
      cbn [files written]. rewrite Hfiles.
      apply (left_pdf self sc url (files s6) k data m Hom). }
  rewrite F0 in Hbody. rewrite F7.
  apply try_except_inv in Eb as [Eb|(msg & s & Eb & Eh)].
  - exists (Ok r). split; [|left; reflexivity].
    apply (Hbody _ _ Eb). discriminate.
  - revert Eh. step_m. intros [= <- <-]. cbn [files].
    exists (Raise (Exception msg)).
    split; [|right; exists msg; split; reflexivity].
    apply (Hbody _ _ Eb). discriminate.
Qed.

(** X12: whatever the environment answers, a result of [extract_book] with
    the success flag is backed by its files: [pdf_path] and
    [metadata_path] are the paths of the PDF file and of the metadata file
    of the book, two different files; the PDF file holds bytes decoded from
    the payload, as many as [pdf_size_bytes] says; the metadata file holds
    the metadata document; the result has no error.  Besides these two
    files the run has written the screenshot of the frame that the result
    names, at a third path, and it has changed no other file. *)
Theorem successful_result_has_its_files `{Urllib} self sc url st r st' :
  extract_book self sc url st = (Ok r, st') ->
  success r = true ->
  let id := book_id_of sc url in
  let pdf := Pathlib.str (pdf_file self id) in
  let meta := metadata_file self id in
  pdf_path r = Some pdf /\ metadata_path r = Some meta /\ pdf <> meta /\
  error r = None /\ book_id r = Some id /\
  extraction_duration r = Some (t_end sc - t_start sc)%Z /\
  (exists data,
      pdf_size_bytes r = Some (length data) /\
      files st' !! pdf = Some (Binary data)) /\
  (exists doc,
      files st' !! meta = Some (Json doc) /\
      md_book_id doc = id /\ md_original_url doc = url /\
      pdf_path (md_extraction_data doc) = Some pdf /\
      metadata_path (md_extraction_data doc) = None) /\
  (exists k src len,
      let shot := screenshot_path self id k in
      iframe_data r = Some (k + 1, src, len) /\
      shot <> pdf /\ shot <> meta /\
      (screenshot sc shot = Ok tt -> files st' !! shot = Some Png) /\
      (forall p, p <> pdf -> p <> meta -> p <> shot ->
                 files st' !! p = files st !! p)).
Proof.
  cbv zeta. intros E Hs.
  pose proof (pdf_file_not_metadata_file self (book_id_of sc url)) as Hne.
  destruct (extract_book_returned self sc url st r st' E)
    as [[-> _]|(o & Hl & [->|(msg & -> & ->)])]; [discriminate| |discriminate].
  inversion Hl as [o Ho|o k Ho|k e|k data msg|k data src len];
    try (exfalso; eapply Ho; reflexivity).
  subst. clear Hl.
  pose proof (screenshot_path_not_pdf_file self (book_id_of sc url) k) as N2.
  pose proof (screenshot_path_not_metadata_file self (book_id_of sc url) k)
    as N3.
  cbn [set_metadata_path success_result pdf_path metadata_path error book_id
       extraction_duration pdf_size_bytes iframe_data].
  do 6 (split; [auto|]). split; [|split].
  - exists data. split; [reflexivity|].
    rewrite lookup_insert_ne by congruence. apply lookup_insert_eq.
  - eexists. split; [apply lookup_insert_eq|]. cbn. auto.
  - exists k, src, len. do 3 (split; [auto|]). split.
    + intros Hshot. rewrite !lookup_insert_ne by congruence.
      unfold shot_store. rewrite Hshot. apply lookup_insert_eq.
    + intros p Hp Hm Hk. rewrite !lookup_insert_ne by congruence.
      apply written_other, Hk.
Qed.

Lemma successful_result_has_its_files_witness :
  exists r st',
    @extract_book urllib_model Demo.extractor Demo.good Demo.good_url Demo.st0
    = (Ok r, st') /\
    pdf_path r = Some "output/pdfs/test-id.pdf" /\
    (exists data,
        pdf_size_bytes r = Some (length data) /\
        files st' !! "output/pdfs/test-id.pdf" = Some (Binary data)) /\
    (exists k src len,
        iframe_data r = Some (k + 1, src, len) /\
        forall p,
          p <> "output/pdfs/test-id.pdf" ->
          p <> "output/metadata/test-id_metadata.json" ->
          p <> screenshot_path Demo.extractor "test-id" k ->
          files st' !! p = files Demo.st0 !! p).
Proof.
  destruct (@extract_book urllib_model Demo.extractor Demo.good Demo.good_url
              Demo.st0) as [o st'] eqn:E.
  assert (exists r, o = Ok r /\ success r = true) as (r & -> & Hs).
  { apply (f_equal fst) in E. vm_compute in E. subst o. eexists.
    split; reflexivity. }
  exists r, st'. split; [reflexivity|].
  destruct (@successful_result_has_its_files urllib_model Demo.extractor
              Demo.good Demo.good_url Demo.st0 r st' E Hs)
    as (Hp & _ & _ & _ & _ & _ & Hd & _ & (k & src & len & Hi & _ & _ & _ & Ho)).
  split; [exact Hp|]. split; [exact Hd|].
  exists k, src, len. split; [exact Hi | exact Ho].
Defined.

(** X13: whatever the environment answers, a failed result of
    [extract_book] has neither [pdf_path] nor [metadata_path], and the
    files are as they were but for what the run had written when it
    failed: nothing; or the screenshot of the frame it had accepted; or
    that and the PDF file left incomplete, when the writing of the PDF
    failed once the file was opened; or the screenshot and the whole PDF
    file, when the metadata file could not be written, which is then left
    incomplete if it was opened, and the error of the result is the message
    of that failure. *)
Theorem failed_result_files `{Urllib} self sc url st r st' :
  extract_book self sc url st = (Ok r, st') ->
  success r = false ->
  let id := book_id_of sc url in
  let pdf := Pathlib.str (pdf_file self id) in
  let meta := metadata_file self id in
  pdf_path r = None /\ metadata_path r = None /\
  (files st' = files st \/
   exists k,
     let shot := screenshot_path self id k in
     let scanned :=
       written shot Png (screenshot sc shot) (opened_before sc shot)
               (files st) in
     files st' = scanned \/
     (exists e,
         write_pdf sc pdf = Raise e /\ opened_before sc pdf = true /\
         error r = Some "Failed to decode/save PDF" /\
         files st' = <[pdf := Partial]> scanned) \/
     (exists data msg,
         write_metadata sc meta = Raise (Exception msg) /\
         error r = Some msg /\
         files st' !! pdf = Some (Binary data) /\
         files st'
         = if opened_before sc meta
           then <[meta := Partial]> (<[pdf := Binary data]> scanned)
           else <[pdf := Binary data]> scanned)).
Proof.
  cbv zeta. intros E Hs.
  pose proof (pdf_file_not_metadata_file self (book_id_of sc url)) as Hne.
  destruct (extract_book_returned self sc url st r st' E)
    as [[-> Hf]|(o & Hl & [->|(msg & -> & ->)])].
  - cbn. auto.
  - inversion Hl as [o Ho|o k Ho|k e|k data msg|k data src len];
      try (exfalso; eapply Ho; reflexivity).
    subst. discriminate.
  - cbn [failed_result pdf_path metadata_path error].
    do 2 (split; [reflexivity|]).
    inversion Hl as [o Ho|o k Ho|k e Hop Hob|k data m Hom|k data src len];
      subst; clear Hl.
    + left. reflexivity.
    + right. exists k. left. reflexivity.
    + right. exists k. right. left. exists e. auto.
    + right. exists k. right. right.
      match goal with
      | Hom : write_metadata _ _ = Raise (Exception ?m) |- _ =>
          exists data, m; cbv zeta; split; [exact Hom|]
      end.
      split; [reflexivity|]. split; [|reflexivity].
      destruct (opened_before sc _);
        rewrite ?lookup_insert_ne by congruence; apply lookup_insert_eq.
Qed.

Lemma failed_result_files_witness :
  exists r st',
    @extract_book urllib_model Demo.extractor
      (with_write_metadata Demo.good
         (fun _ => Raise (Exception "No space left on device")))
      Demo.good_url Demo.st0 = (Ok r, st') /\
    pdf_path r = None /\ metadata_path r = None /\
    error r = Some "No space left on device" /\
    files st' !! "output/pdfs/test-id.pdf"
    = Some (Binary [Byte.x41; Byte.x42; Byte.x43]).
Proof.
  destruct (@extract_book urllib_model Demo.extractor
              (with_write_metadata Demo.good
                 (fun _ => Raise (Exception "No space left on device")))
              Demo.good_url Demo.st0) as [o st'] eqn:E.
  assert (exists r, o = Ok r /\ success r = false
                    /\ error r = Some "No space left on device")
    as (r & -> & Hs & He).
  { apply (f_equal fst) in E. vm_compute in E. subst o. eexists.
    repeat split; reflexivity. }
  exists r, st'. split; [reflexivity|].
  destruct (@failed_result_files urllib_model Demo.extractor _
              Demo.good_url Demo.st0 r st' E Hs) as (Hp & Hm & _).
  do 3 (split; [assumption|]).
  apply (f_equal snd) in E. cbn [snd] in E. rewrite <- E.
  vm_compute. reflexivity.
Defined.

Lemma validate_url_no_exception `{Urllib} url st msg :
  fst (validate_url url st) <> Raise (Exception msg).
Proof.
  unfold validate_url. step_m.
  destruct (urlparse url) as [p|[m|m]]; cbn; try discriminate.
  destruct (PyStr.contains "library.alkafeel.net" (netloc p)); cbn;
    [destruct (PyStr.contains "/dic/book/" (path p)); cbn|]; discriminate.
Qed.

Lemma validate_url_outcome `{Urllib} url st o st' :
  validate_url url st = (o, st') -> fst (validate_url url st) = o.
Proof. intros ->. reflexivity. Qed.

(** X14: the only [Exception] that can leave [extract_book] is the one of
    [browser.close()]: when [extract_book] raises an [Exception], the URL
    was valid, the session was opened, and closing it raised that
    exception.  Every other failure of a step becomes a failed result. *)
Theorem extract_book_raises_only_from_close `{Urllib} self sc url st msg :
  fst (extract_book self sc url st) = Raise (Exception msg) ->
  fst (validate_url url st) = Ok true /\
  playwright_start sc = Ok tt /\ launch sc = Ok tt /\
  close sc = Raise (Exception msg).
Proof.
  destruct (extract_book self sc url st) as [o st'] eqn:E. cbn [fst].
  intros ->. unfold extract_book in E. cbv zeta in E.
  apply bind_inv in E as [(v & s1 & E1 & E)|(e & E1 & [= <-])].
  2: { apply validate_url_outcome in E1.
       destruct (validate_url_no_exception url st msg E1). }
  apply validate_url_outcome in E1.
  destruct v; cbn [negb] in E; [|discriminate].
  split; [exact E1|].
  apply bind_inv in E as [(id & s2 & E2 & E)|(e & E2 & _)];
    rewrite extract_book_id_eq in E2; [|discriminate].
  apply bind_inv in E as [([] & s3 & _ & E)|(e & [=] & _)].
  apply bind_inv in E as [([] & s4 & _ & E)|(e & [=] & _)].
  apply bind_inv in E as [([] & s5 & _ & E)|(e & [=] & _)].
  unfold try_acquire, try_finally in E.
  destruct (setup_browser sc s5) as [[[]|e] s6] eqn:Ea.
  - assert (playwright_start sc = Ok tt /\ launch sc = Ok tt) as [Hs Hl].
    { revert Ea. unfold setup_browser. step_m.
      destruct (playwright_start sc) as [[]|e]; cbn; [|discriminate].
      destruct (launch sc) as [[]|e]; cbn; [auto | discriminate]. }
    split; [exact Hs|]. split; [exact Hl|].
    match type of E with
    | context [try_except ?body ?h s6] =>
        destruct (try_except body h s6) as [o s7] eqn:Eb
    end.
    revert E. step_m.
    destruct (close sc) as [[]|e]; cbn; [|intros [= ->]; reflexivity].
    intros [= -> _]. exfalso. revert Eb. unfold try_except.
    match goal with
    | |- context [let (_, _) := ?b in _] => destruct b as [[r|[m|m]] s8]
    end; try discriminate; step_m; discriminate.
  - exfalso. revert E. step_m. destruct e as [m|m]; discriminate.
Qed.

Lemma extract_book_raises_only_from_close_witness :
  fst (@validate_url urllib_model Demo.good_url Demo.st0) = Ok true /\
  playwright_start (with_close Demo.good (Raise (Exception "Target closed")))
  = Ok tt /\
  launch (with_close Demo.good (Raise (Exception "Target closed"))) = Ok tt /\
  close (with_close Demo.good (Raise (Exception "Target closed")))
  = Raise (Exception "Target closed").
Proof.
  apply (@extract_book_raises_only_from_close urllib_model Demo.extractor
           (with_close Demo.good (Raise (Exception "Target closed")))
           Demo.good_url Demo.st0 "Target closed").
  vm_compute. reflexivity.
Defined.

(** ** The batch runner, further *)




Section BatchStops.

Context {U : Urllib}.
Variables (extractor : AlkafeelExtractor) (w : BatchScenario) (n : nat).

(** The loop over the URLs when an extraction raises: the exception leaves
    the loop at that URL. *)
Lemma batch_loop_raises urls : forall k i results st u e,
  urls !! k = Some u ->
  (forall j v st',
      j < k -> urls !! j = Some v ->
      exists r, fst (extract_book extractor (item w (i + j)) v st') = Ok r) ->
  (forall st', fst (extract_book extractor (item w (i + k)) u st') = Raise e) ->
  fst (batch_loop extractor w n i urls results st) = Raise e.
Proof.
  induction urls as [|v urls IH]; intros k i results st u e Hk Hret Hraise;
    [discriminate|].
  cbn [batch_loop]. unfold bind at 1, print at 1, emit at 1.
  cbv beta iota. unfold bind at 1.
  destruct k as [|k].
  - injection Hk as ->. rewrite Nat.add_0_r in Hraise.
    match goal with
    | |- context [extract_book extractor (item w i) u ?s] =>
        specialize (Hraise s);
        destruct (extract_book extractor (item w i) u s) as [o s1]
    end.
    cbn [fst] in Hraise. subst o. reflexivity.
  - match goal with
    | |- context [extract_book extractor (item w i) v ?s] =>
        destruct (Hret 0 v s) as [r Hr]; [lia | reflexivity |];
        rewrite Nat.add_0_r in Hr;
        destruct (extract_book extractor (item w i) v s) as [o s1]
    end.
    cbn [fst] in Hr. subst o. cbv beta iota. unfold bind at 1.
    destruct (success r);
      unfold bind at 1, print at 1, emit at 1, ret at 1; cbv beta iota;
      apply (IH k (S i) _ _ u e Hk).
    all: try (intros j x st' Hj Hx; rewrite Nat.add_succ_l, <- Nat.add_succ_r;
              apply (Hret (S j) x st'); [lia | exact Hx]).
    all: intros st'; rewrite Nat.add_succ_l, <- Nat.add_succ_r; apply Hraise.
Qed.

End BatchStops.

(** X16: the batch runner does not guard the extractions: once the
    extractor is created, when the session of one book cannot be closed,
    the exception of [close] leaves [extract_multiple_books], and no
    summary is returned, whatever was extracted before. *)
Theorem extract_multiple_books_stops_at_close_failure `{Urllib} w urls
    output_dir st k u e :
  urls !! k = Some u ->
  ready (setup w) output_dir ->
  (forall v, quiet (urlparse v)) ->
  (forall j, j < k -> calm (item w j)) ->
  (forall st', fst (validate_url u st') = Ok true) ->
  playwright_start (item w k) = Ok tt -> launch (item w k) = Ok tt ->
  close (item w k) = Raise e ->
  fst (extract_multiple_books w urls output_dir st) = Raise e.
Proof.
  intros Hk Hrdy Hu Hc Hv Hs Hl He. unfold extract_multiple_books.
  unfold bind at 1.
  destruct (new_extractor_ready _ _ st Hrdy) as (st1 & -> & _).
  cbv [bind log emit ret print lift].
  match goal with
  | |- context [batch_loop ?x w ?n 0 urls ?acc ?s] =>
      pose proof (batch_loop_raises x w n urls k 0 acc s u e Hk) as Hb;
      destruct (batch_loop x w n 0 urls acc s) as [o s']
  end.
  cbn [fst] in Hb. rewrite Hb; [reflexivity| |].
  - intros j v st' Hj _. apply extract_book_returns; [exact Hu|].
    apply Hc, Hj.
  - intros st'. apply close_raises; auto.
Qed.

Lemma extract_multiple_books_stops_at_close_failure_witness :
  fst (@extract_multiple_books urllib_model
         {| setup := Demo.writable;
            item := fun i =>
                      match i with
                      | 1 => with_close Demo.good
                               (Raise (Exception "Target closed"))
                      | _ => Demo.good
                      end;
            t_batch_start := 0; t_batch_end := 90 |}
         [Demo.good_url; Demo.good_url; Demo.good_url] "output" Demo.st0)
  = Raise (Exception "Target closed").
Proof.
  apply (@extract_multiple_books_stops_at_close_failure urllib_model
           {| setup := Demo.writable;
              item := fun i =>
                        match i with
                        | 1 => with_close Demo.good
                                 (Raise (Exception "Target closed"))
                        | _ => Demo.good
                        end;
              t_batch_start := 0; t_batch_end := 90 |}
           [Demo.good_url; Demo.good_url; Demo.good_url] "output" Demo.st0
           1 Demo.good_url (Exception "Target closed")).
  - reflexivity.
  - apply ready_writable.
  - exact urlparse_model_quiet.
  - intros [|j] Hj; [exact (calm_page_with Demo.book_text) | lia].
  - intros st'.
    apply (@validate_url_yields urllib_model Demo.good_url Demo.st0 true
             eq_refl st').
  - reflexivity.
  - reflexivity.
  - reflexivity.
Defined.

(** ** The file of URLs *)










(** A file with a comment, an indented comment, a blank line and a URL
    between blanks. *)
Example read_urls_file :
  read_urls ["# the books" +:+ Demo.newline;
             "  # second part" +:+ Demo.newline;
             Demo.newline;
             "  https://library.alkafeel.net/dic/book/?e=x  " +:+ Demo.newline]
  = ["# second part"; "https://library.alkafeel.net/dic/book/?e=x"].
Proof. reflexivity. Qed.
